(** * Gene-tumor correlation networks: aggregation and visual mapping

    A shallow embedding of the data-transformation core of the two
    visualizers, [MultiTumorNetworkVisualizer] (tumor_network.py) and
    [BadSurvivalTreeVisualizer] (bad_survival_tree.py):

    - [load_all_data]: per-tumor loading with threshold filtering;
    - the aggregation of rows into per-gene tumor memberships and the
      classification of genes as tumor-specific or cross-tumor;
    - the linear maps from a correlation to a node size and an edge width;
    - the construction of nodes and edges handed to the graph library.

    Modelling choices.
    - A PCC is a Python float.  Scores are modelled as rationals [Q] with
      exact arithmetic; comparisons are exact on floats as well, rounding of
      the four arithmetic operations is not modelled.  Equality of computed
      sizes is [Qeq] ([==]).
    - A Python [dict] keeps insertion order, and the choice of a
      representative tumor depends on it, so a dict is an association list
      in insertion order with in-place update ([PyDict]).
    - A pandas data frame is the list of its rows in index order.
    - Exceptions ([ZeroDivisionError], [KeyError], the graph library's
      assertion on edge end points) are [None] in [option].
    - Layout coordinates, colours, fonts and tooltips are presentation only
      and are left out of nodes and edges.
    - A table is well formed: every row has a text gene symbol and a
      numeric PCC.  A file that pandas reads into a frame with a ['PCC']
      column but without a ['Gene Symbol'] column, or with gene cells that
      are not text, is outside the model; the two constructions raise on it
      ([KeyError], the graph library's assertion on node identifiers), and
      nothing is stated about it.
    - pandas leaves the order of rows of equal PCC to its sorting algorithm,
      in [sort_values] and, when [n >= len(df)], in [nlargest]; the model
      keeps them in table order.  Statements that depend on the order of the
      rows are made for tables without equal PCCs, where every sorting
      algorithm gives the same order.
    - [load_all_data] is modelled in two steps: its loop, given the tumor
      types ([load_all_data]), and the whole function, discovery and its log
      lines included ([load_all_data_of_files]). *)

From Stdlib Require Import Ascii List String Bool Arith Lia Permutation Sorted.
From Stdlib Require Import DecimalString.
From Stdlib Require Import QArith Qminmax Lqa.
Import ListNotations.
Open Scope string_scope.
Open Scope list_scope.
Open Scope Q_scope.

Set Implicit Arguments.

(** ** Python dictionaries (insertion ordered, string keys) *)

Definition PyDict (V : Type) : Type := list (string * V).

Section PyDictOps.
Context {V : Type}.

(** [d[k]], [None] standing for [KeyError]. *)
Fixpoint dict_get (k : string) (d : PyDict V) : option V :=
  match d with
  | [] => None
  | (k', v) :: d' => if String.eqb k k' then Some v else dict_get k d'
  end.

(** [k in d]. *)
Definition dict_mem (k : string) (d : PyDict V) : bool :=
  match dict_get k d with Some _ => true | None => false end.

(** [d[k] = v]: an existing key keeps its position, a new key goes last. *)
Fixpoint dict_set (k : string) (v : V) (d : PyDict V) : PyDict V :=
  match d with
  | [] => [(k, v)]
  | (k', v') :: d' =>
      if String.eqb k k' then (k, v) :: d' else (k', v') :: dict_set k v d'
  end.

(** In-place mutation of the object stored under [k] (as in
    [d[k][j] = x] or [d[k].append(x)]); nothing happens on a missing key. *)
Fixpoint dict_modify (k : string) (f : V -> V) (d : PyDict V) : PyDict V :=
  match d with
  | [] => []
  | (k', v') :: d' =>
      if String.eqb k k' then (k', f v') :: d' else (k', v') :: dict_modify k f d'
  end.

Definition dict_keys (d : PyDict V) : list string := map fst d.
Definition dict_values (d : PyDict V) : list V := map snd d.
Definition dict_items (d : PyDict V) : list (string * V) := d.
Definition dict_len (d : PyDict V) : nat := List.length d.

(** A dictionary has each key once. *)
Definition dict_wf (d : PyDict V) : Prop := NoDup (dict_keys d).
End PyDictOps.

(** ** Tables *)

(** One row of a per-tumor table: the columns ['Gene Symbol'] and ['PCC']. *)
Record Row : Type := mkRow { gene_symbol : string; PCC : Q }.

Definition DataFrame : Type := list Row.

(** [df.empty] *)
Definition df_empty (df : DataFrame) : bool :=
  match df with [] => true | _ => false end.

(** [df[df['PCC'] >= threshold]]: boolean-mask selection keeps row order. *)
Definition filter_pcc_ge (threshold : Q) (df : DataFrame) : DataFrame :=
  filter (fun row => Qle_bool threshold (PCC row)) df.

(** [df[df['Gene Symbol'].apply(p)]] *)
Definition filter_gene (p : string -> bool) (df : DataFrame) : DataFrame :=
  filter (fun row => p (gene_symbol row)) df.

(** [a < b] on scores. *)
Definition Qlt_bool (a b : Q) : bool := negb (Qle_bool b a).

(** Stable insertion of an earlier row into the sorted later rows: the new
    row goes after the rows whose PCC is strictly larger, before the rows of
    equal PCC. *)
Fixpoint insert_desc (r : Row) (sorted : DataFrame) : DataFrame :=
  match sorted with
  | [] => [r]
  | x :: rest =>
      if Qlt_bool (PCC r) (PCC x) then x :: insert_desc r rest
      else r :: x :: rest
  end.

(** [df.sort_values('PCC', ascending=False)].  pandas leaves the order of
    rows of equal PCC to its sorting algorithm; the model keeps them in their
    original order.  In [create_network] that order only decides the place
    of a gene on the spiral and the order of the node list. *)
Definition sort_values_desc (df : DataFrame) : DataFrame :=
  fold_right insert_desc [] df.

(** [df.nlargest(n, 'PCC')] with the default [keep='first']: the first [n]
    rows of the table sorted by descending PCC, ties in original order.
    pandas keeps that order of ties for [n < len(df)]; for [n >= len(df)] it
    sorts with [sort_values], and the order of rows of equal PCC is the
    sorting algorithm's.  Which rows are kept, and how many, does not depend
    on it. *)
Definition nlargest (n : nat) (df : DataFrame) : DataFrame :=
  firstn n (sort_values_desc df).

(** [g] occurs in the gene column of [df]. *)
Definition has_gene (g : string) (df : DataFrame) : bool :=
  existsb (fun row => String.eqb (gene_symbol row) g) df.

(** PCC of the last row of [df] whose gene is [g]. *)
Fixpoint last_pcc (g : string) (df : DataFrame) : option Q :=
  match df with
  | [] => None
  | row :: df' =>
      match last_pcc g df' with
      | Some p => Some p
      | None => if String.eqb (gene_symbol row) g then Some (PCC row) else None
      end
  end.

(** ** Small Python helpers *)

(** Sequencing of steps that may raise. *)
Notation "x <- e ;; k" := (match e with Some x => k | None => None end)
  (at level 61, e at next level, right associativity).

(** A [for] loop whose body may raise: the first exception ends the loop. *)
Fixpoint foldM {S A : Type} (body : S -> A -> option S) (l : list A) (s : S)
  : option S :=
  match l with
  | [] => Some s
  | x :: l' => s' <- body s x ;; foldM body l' s'
  end.

(** [enumerate(l)] *)
Definition enumerate {A : Type} (l : list A) : list (nat * A) :=
  combine (seq 0 (List.length l)) l.

(** [a / b] on Python floats: [ZeroDivisionError] when [b] is zero. *)
Definition py_div (a b : Q) : option Q :=
  if Qeq_bool b 0 then None else Some (a / b).

(** The scan of [max(items, key=...)] after its first element: the current
    best is replaced only by an item whose key is strictly greater, so among
    equal keys the earliest item wins. *)
Fixpoint max_from {A : Type} (key : A -> Q) (best : A) (l : list A) : A :=
  match l with
  | [] => best
  | x :: l' => max_from key (if Qlt_bool (key best) (key x) then x else best) l'
  end.

(** [max(l, key=key)]; [None] is the [ValueError] on an empty sequence. *)
Definition py_max {A : Type} (key : A -> Q) (l : list A) : option A :=
  match l with
  | [] => None
  | x :: l' => Some (max_from key x l')
  end.

(** [counts[k] += 1], [KeyError] when [k] is missing. *)
Definition dict_incr (k : string) (counts : PyDict nat) : option (PyDict nat) :=
  c <- dict_get k counts ;; Some (dict_set k (S c) counts).

(** ** Settings shared by the two visualizers (the "Settings" and "Visual
    parameters" attributes set in [__init__]) *)

Record Settings : Type := mkSettings {
  min_correlation : Q;
  max_genes_per_tumor : nat;
  node_size_range : Q * Q;
  edge_width_range : Q * Q
}.

(** ** The graph library

    The visualizers hand nodes and edges to pyvis' [Network], which is not
    part of the repository.  The operations they call are modelled after the
    library: [add_node] ignores an identifier that is already present;
    [add_edge] asserts that both end points are nodes and, in an undirected
    network, ignores an edge between two nodes that are already joined;
    [get_node] looks a node up by identifier. *)

Inductive Shape : Type := Dot | Diamond | Box | Ellipse.

Record Node : Type := mkNode { n_id : string; n_shape : Shape; n_size : Q }.

Record Edge : Type := mkEdge { e_from : string; e_to : string; e_width : Q }.

Record Network : Type := mkNetwork {
  directed : bool;
  nodes : list Node;
  edges : list Edge
}.

Definition empty_network (dir : bool) : Network :=
  {| directed := dir; nodes := []; edges := [] |}.

Definition has_node (id : string) (net : Network) : bool :=
  existsb (fun n => String.eqb (n_id n) id) (nodes net).

Definition joins (source to : string) (e : Edge) : bool :=
  (String.eqb source (e_to e) && String.eqb to (e_from e))
  || (String.eqb source (e_from e) && String.eqb to (e_to e)).

Definition add_node (n : Node) (net : Network) : Network :=
  if has_node (n_id n) net then net
  else {| directed := directed net; nodes := nodes net ++ [n]; edges := edges net |}.

Definition add_edge (e : Edge) (net : Network) : option Network :=
  if has_node (e_from e) net && has_node (e_to e) net then
    if negb (directed net) && existsb (joins (e_from e) (e_to e)) (edges net)
    then Some net
    else Some {| directed := directed net; nodes := nodes net;
                 edges := edges net ++ [e] |}
  else None.

Definition get_node (id : string) (net : Network) : option Node :=
  find (fun n => String.eqb (n_id n) id) (nodes net).

(** Mutation of the stored node [net.get_node(id)]: [KeyError] when there is
    no such node. *)
Fixpoint update_first (id : string) (f : Node -> Node) (l : list Node)
  : option (list Node) :=
  match l with
  | [] => None
  | n :: l' =>
      if String.eqb (n_id n) id then Some (f n :: l')
      else l'' <- update_first id f l' ;; Some (n :: l'')
  end.

Definition update_node (id : string) (f : Node -> Node) (net : Network)
  : option Network :=
  ns <- update_first id f (nodes net) ;;
  Some {| directed := directed net; nodes := ns; edges := edges net |}.

(** ** Loader ([load_all_data], the same code in both visualizers) *)

(** What [pd.read_csv] and the column access make of one tumor's file.  A
    frame that is read and has a ['PCC'] column is taken to be a well-formed
    table ([Readable]): a frame with ['PCC'] but without ['Gene Symbol'] has
    no case here. *)
Inductive CsvFile : Type :=
| ReadFails                 (* [pd.read_csv] raises: missing or malformed file *)
| MissingPCC                (* the frame is read, [df['PCC']] raises [KeyError] *)
| Readable (df : DataFrame).

Inductive LogRecord : Type :=
| LogInfoThreshold (tumor_type : string) (rows : nat)
| LogErrorLoading (tumor_type : string)
| LogWarningNoData (tumor_type : string).

Record LoadState : Type := mkLoadState {
  all_data : PyDict DataFrame;
  load_counts : PyDict nat;
  load_log : list LogRecord
}.

Section Loader.
(** [read_csv t] is the outcome of reading [<data_dir>/<t>.csv]. *)
Variable read_csv : string -> CsvFile.
Variable s : Settings.

(** The body of the loop over [self.tumor_types], [try]/[except] included. *)
Definition load_one (st : LoadState) (tumor_type : string) : LoadState :=
  match read_csv tumor_type with
  | ReadFails =>
      {| all_data := all_data st;
         load_counts := load_counts st;
         load_log := load_log st ++ [LogErrorLoading tumor_type] |}
  | MissingPCC =>
      {| all_data := all_data st;
         load_counts := dict_set tumor_type 0%nat (load_counts st);
         load_log := load_log st ++ [LogErrorLoading tumor_type] |}
  | Readable df =>
      let high_corr_df := filter_pcc_ge (min_correlation s) df in
      {| all_data := dict_set tumor_type high_corr_df (all_data st);
         load_counts := dict_set tumor_type 0%nat (load_counts st);
         load_log := load_log st
                     ++ [LogInfoThreshold tumor_type (List.length high_corr_df)] |}
  end.

(** The loop of [load_all_data], given the discovered [tumor_types] and the
    current [self.gene_counts]; [load_all_data_of_files] below is the whole
    function, which discovers the tumor types first. *)
Definition load_all_data (tumor_types : list string) (gene_counts : PyDict nat)
  : LoadState :=
  fold_left load_one tumor_types
    {| all_data := []; load_counts := gene_counts; load_log := [] |}.
End Loader.

(** ** tumor_network.py: [MultiTumorNetworkVisualizer] *)

Module TumorNetwork.

(** The values set in [__init__]. *)
Definition default_settings : Settings :=
  {| min_correlation := 1 # 2;
     max_genes_per_tumor := 1000;
     node_size_range := (3, 10);
     edge_width_range := (3 # 10, 3 # 2) |}.

(** [all_genes]: gene -> (tumor type -> pcc). *)
Definition Membership : Type := PyDict (PyDict Q).

(** Body of the inner loop of step 1: [all_genes[gene_id][tumor_type] = pcc],
    after creating [all_genes[gene_id]] when it is missing. *)
Definition collect_row (tumor_type : string) (all_genes : Membership) (row : Row)
  : Membership :=
  let gene_id := gene_symbol row in
  let pcc := PCC row in
  let all_genes :=
    if negb (dict_mem gene_id all_genes) then dict_set gene_id [] all_genes
    else all_genes in
  dict_modify gene_id (dict_set tumor_type pcc) all_genes.

Definition collect_table (all_genes : Membership) (item : string * DataFrame)
  : Membership :=
  let (tumor_type, df) := item in
  fold_left (collect_row tumor_type) df all_genes.

(** Step 1: the aggregation pass over [tumor_data.items()]. *)
Definition collect_all_genes (tumor_data : PyDict DataFrame) : Membership :=
  fold_left collect_table (dict_items tumor_data) [].

(** [{gene: tumors for gene, tumors in all_genes.items() if len(tumors) > 1}] *)
Definition cross_tumor_genes (all_genes : Membership) : Membership :=
  filter (fun item => (1 <? dict_len (snd item))%nat) (dict_items all_genes).

(** The test [g in all_genes and len(all_genes[g]) == 1] of the
    tumor-specific selection. *)
Definition is_tumor_specific (all_genes : Membership) (g : string) : bool :=
  match dict_get g all_genes with
  | Some tumors => (dict_len tumors =? 1)%nat
  | None => false
  end.

(** A gene is drawn as a cross-tumor gene when it is a key of
    [cross_tumor_genes]. *)
Definition is_cross_tumor (all_genes : Membership) (g : string) : bool :=
  dict_mem g (cross_tumor_genes all_genes).

(** [size_min + (pcc - min_correlation) * (size_max - size_min)
              / (1 - min_correlation)] *)
Definition node_size (s : Settings) (pcc : Q) : option Q :=
  let (size_min, size_max) := node_size_range s in
  q <- py_div ((pcc - min_correlation s) * (size_max - size_min))
              (1 - min_correlation s) ;;
  Some (size_min + q).

(** [width_min + (pcc - min_correlation) * (width_max - width_min)] *)
Definition edge_width (s : Settings) (pcc : Q) : Q :=
  let (width_min, width_max) := edge_width_range s in
  width_min + (pcc - min_correlation s) * (width_max - width_min).

(** [max(tumor_pccs.items(), key=lambda x: x[1])[0]] *)
Definition main_tumor (tumor_pccs : PyDict Q) : option string :=
  best <- py_max snd (dict_items tumor_pccs) ;; Some (fst best).

Record BuildState : Type := mkBuildState {
  net : Network;
  gene_counts : PyDict nat;
  tumor_positions : PyDict nat   (* the position is a function of the index *)
}.

Definition central_node : Node :=
  {| n_id := "GCH1"; n_shape := Dot; n_size := 30 |}.

(** Body of the loop "Add tumor nodes". *)
Definition add_tumor_node (tumor_data : PyDict DataFrame) (st : BuildState)
  (item : nat * string) : option BuildState :=
  let (idx, tumor_type) := item in
  if negb (dict_mem tumor_type tumor_data) then Some st
  else
    let positions := dict_set tumor_type idx (tumor_positions st) in
    let net1 :=
      add_node {| n_id := tumor_type; n_shape := Dot; n_size := 20 |} (net st) in
    net2 <- add_edge {| e_from := "GCH1"; e_to := tumor_type; e_width := 2 |} net1 ;;
    Some {| net := net2;
            gene_counts := dict_set tumor_type 0%nat (gene_counts st);
            tumor_positions := positions |}.

(** Body of the loop over the tumor-specific rows of one tumor. *)
Definition add_specific_gene (s : Settings) (tumor_type : string)
  (st : BuildState) (gene_row : Row) : option BuildState :=
  let gene_id := gene_symbol gene_row in
  let pcc := PCC gene_row in
  size <- node_size s pcc ;;
  let width := edge_width s pcc in
  let net1 := add_node {| n_id := gene_id; n_shape := Dot; n_size := size |} (net st) in
  net2 <- add_edge {| e_from := tumor_type; e_to := gene_id; e_width := width |} net1 ;;
  counts <- dict_incr tumor_type (gene_counts st) ;;
  Some {| net := net2; gene_counts := counts;
          tumor_positions := tumor_positions st |}.

(** Body of the loop "Add tumor-specific genes". *)
Definition add_specific_genes (s : Settings) (tumor_data : PyDict DataFrame)
  (all_genes : Membership) (st : BuildState) (tumor_type : string)
  : option BuildState :=
  match dict_get tumor_type tumor_data with
  | None => Some st
  | Some df =>
      _ <- dict_get tumor_type (tumor_positions st) ;;
      let tumor_specific_genes := filter_gene (is_tumor_specific all_genes) df in
      let tumor_specific_genes :=
        if negb (df_empty tumor_specific_genes)
        then sort_values_desc tumor_specific_genes
        else tumor_specific_genes in
      foldM (add_specific_gene s tumor_type) tumor_specific_genes st
  end.

(** Body of the loop over [tumor_pccs.items()] that connects a cross-tumor
    gene to its tumors. *)
Definition add_cross_edge (s : Settings) (gene_id : string) (st : BuildState)
  (item : string * Q) : option BuildState :=
  let (tumor_type, pcc) := item in
  if Qle_bool (min_correlation s) pcc then
    let width := edge_width s pcc in
    net2 <- add_edge {| e_from := tumor_type; e_to := gene_id; e_width := width |}
                     (net st) ;;
    counts <- dict_incr tumor_type (gene_counts st) ;;
    Some {| net := net2; gene_counts := counts;
            tumor_positions := tumor_positions st |}
  else Some st.

(** Body of the loop "Add cross-tumor genes". *)
Definition add_cross_gene (s : Settings) (st : BuildState)
  (item : string * PyDict Q) : option BuildState :=
  let (gene_id, tumor_pccs) := item in
  main <- main_tumor tumor_pccs ;;
  main_pcc <- dict_get main tumor_pccs ;;
  if Qlt_bool main_pcc (min_correlation s) then Some st
  else
    _ <- dict_get main (tumor_positions st) ;;
    size <- node_size s main_pcc ;;
    let net1 :=
      add_node {| n_id := gene_id; n_shape := Diamond; n_size := size + 2 |}
               (net st) in
    foldM (add_cross_edge s gene_id) (dict_items tumor_pccs)
          {| net := net1; gene_counts := gene_counts st;
             tumor_positions := tumor_positions st |}.

(** [create_network]: [tumor_types] and [counts] are [self.tumor_types] and
    [self.gene_counts] at the call; the result is the network together with
    the updated [self.gene_counts]. *)
Definition create_network (s : Settings) (tumor_types : list string)
  (counts : PyDict nat) (tumor_data : PyDict DataFrame)
  : option (Network * PyDict nat) :=
  let net0 := add_node central_node (empty_network false) in
  let all_genes := collect_all_genes tumor_data in
  let cross := cross_tumor_genes all_genes in
  st1 <- foldM (add_tumor_node tumor_data) (enumerate tumor_types)
           {| net := net0; gene_counts := counts; tumor_positions := [] |} ;;
  st2 <- foldM (add_specific_genes s tumor_data all_genes) tumor_types st1 ;;
  st3 <- foldM (add_cross_gene s) (dict_items cross) st2 ;;
  Some (net st3, gene_counts st3).

(** [run] up to the construction of the network: load, then build. *)
Definition run (s : Settings) (read_csv : string -> CsvFile)
  (tumor_types : list string) : option (Network * PyDict nat) :=
  let loaded := load_all_data read_csv s tumor_types [] in
  create_network s tumor_types (load_counts loaded) (all_data loaded).

End TumorNetwork.

(** ** bad_survival_tree.py: [BadSurvivalTreeVisualizer] *)

Module BadSurvivalTree.

(** The values set in [__init__]. *)
Definition default_settings : Settings :=
  {| min_correlation := 1 # 2;
     max_genes_per_tumor := 1000;
     node_size_range := (8, 16);
     edge_width_range := (1 # 2, 5 # 2) |}.

Definition central_node_size : Q := 45.
Definition tumor_node_size : Q := 30.

Inductive RiskLevel : Type := HighRisk | ModerateRisk | LowRisk.

(** The colour bucket of a gene node. *)
Definition risk_level (correlation : Q) : RiskLevel :=
  if Qle_bool (3 # 4) correlation then HighRisk
  else if Qle_bool (13 # 20) correlation then ModerateRisk
  else LowRisk.

(** [(correlation - min_correlation) / (1 - min_correlation)] *)
Definition size_scale (s : Settings) (correlation : Q) : option Q :=
  py_div (correlation - min_correlation s) (1 - min_correlation s).

(** [node_size_range[0] + size_scale * (node_size_range[1] - node_size_range[0])] *)
Definition node_size (s : Settings) (scale : Q) : Q :=
  fst (node_size_range s) + scale * (snd (node_size_range s) - fst (node_size_range s)).

(** [edge_width_range[0] + size_scale * (edge_width_range[1] - edge_width_range[0])] *)
Definition edge_width (s : Settings) (scale : Q) : Q :=
  fst (edge_width_range s) + scale * (snd (edge_width_range s) - fst (edge_width_range s)).

Record BuildState : Type := mkBuildState {
  net : Network;
  gene_counts : PyDict nat;
  gene_tumors : PyDict (list string);
  log : list LogRecord
}.

(** [gene_tumors[gene_symbol].append(tumor_type)], after creating the list
    when it is missing. *)
Definition track_gene (gene : string) (tumor_type : string)
  (tumors_of : PyDict (list string)) : PyDict (list string) :=
  let tumors_of :=
    if negb (dict_mem gene tumors_of) then dict_set gene [] tumors_of
    else tumors_of in
  dict_modify gene (fun tumors => tumors ++ [tumor_type]) tumors_of.

(** [f"{gene_symbol}_{tumor_type}"] *)
Definition gene_node_id (gene tumor_type : string) : string :=
  (gene ++ "_" ++ tumor_type)%string.

(** Body of the loop "Add gene nodes". *)
Definition add_gene_node (s : Settings) (tumor_type : string) (st : BuildState)
  (gene_row : Row) : option BuildState :=
  let gene := gene_symbol gene_row in
  let correlation := PCC gene_row in
  let tracked := track_gene gene tumor_type (gene_tumors st) in
  let gene_id := gene_node_id gene tumor_type in
  scale <- size_scale s correlation ;;
  let net1 :=
    add_node {| n_id := gene_id; n_shape := Dot; n_size := node_size s scale |}
             (net st) in
  net2 <- add_edge {| e_from := tumor_type; e_to := gene_id;
                      e_width := edge_width s scale |} net1 ;;
  Some {| net := net2; gene_counts := gene_counts st;
          gene_tumors := tracked; log := log st |}.

(** Body of the loop "Add tumor nodes as first level branches". *)
Definition add_tumor_branch (s : Settings) (st : BuildState)
  (item : nat * (string * DataFrame)) : option BuildState :=
  let '(idx, (tumor_type, df)) := item in
  if df_empty df then
    Some {| net := net st; gene_counts := gene_counts st;
            gene_tumors := gene_tumors st;
            log := log st ++ [LogWarningNoData tumor_type] |}
  else
    let net1 :=
      add_node {| n_id := tumor_type; n_shape := Box; n_size := tumor_node_size |}
               (net st) in
    net2 <- add_edge {| e_from := "Poor Prognosis"; e_to := tumor_type;
                        e_width := 3 |} net1 ;;
    let top_genes := nlargest (max_genes_per_tumor s) df in
    foldM (add_gene_node s tumor_type) top_genes
          {| net := net2;
             gene_counts := dict_set tumor_type (List.length top_genes) (gene_counts st);
             gene_tumors := gene_tumors st; log := log st |}.

Definition central_node : Node :=
  {| n_id := "Poor Prognosis"; n_shape := Ellipse; n_size := central_node_size |}.

(** The first part of [create_survival_tree]: the central node and the loop
    over [tumor_data.items()]. *)
Definition build_branches (s : Settings) (counts : PyDict nat)
  (tumor_data : PyDict DataFrame) : option BuildState :=
  foldM (add_tumor_branch s) (enumerate (dict_items tumor_data))
        {| net := add_node central_node (empty_network true);
           gene_counts := counts; gene_tumors := []; log := [] |}.

(** The test [len(tumors) > 1] that makes a gene a cross-tumor gene. *)
Definition is_cross_tumor (tumors_of : PyDict (list string)) (g : string) : bool :=
  match dict_get g tumors_of with
  | Some tumors => (1 <? List.length tumors)%nat
  | None => false
  end.

(** The update of one instance of a cross-tumor gene: diamond shape and
    size multiplied by 1.5. *)
Definition mark_instance (gene : string) (nt : Network) (tumor_type : string)
  : option Network :=
  update_node (gene_node_id gene tumor_type)
    (fun n => {| n_id := n_id n; n_shape := Diamond; n_size := n_size n * (3 # 2) |})
    nt.

(** Body of the loop "Identify cross-tumor genes and update their
    appearance". *)
Definition mark_cross_gene (nt : Network) (item : string * list string)
  : option Network :=
  let (gene, tumors) := item in
  if (1 <? List.length tumors)%nat then foldM (mark_instance gene) tumors nt
  else Some nt.

(** [create_survival_tree]: the network, with the updated
    [self.gene_counts] and what was logged. *)
Definition create_survival_tree (s : Settings) (counts : PyDict nat)
  (tumor_data : PyDict DataFrame)
  : option (Network * PyDict nat * list LogRecord) :=
  st <- build_branches s counts tumor_data ;;
  nt <- foldM mark_cross_gene (dict_items (gene_tumors st)) (net st) ;;
  Some (nt, gene_counts st, log st).

(** [run] up to the construction of the network: load, then build. *)
Definition run (s : Settings) (read_csv : string -> CsvFile)
  (tumor_types : list string)
  : option (Network * PyDict nat * list LogRecord) :=
  let loaded := load_all_data read_csv s tumor_types [] in
  create_survival_tree s (load_counts loaded) (all_data loaded).

End BadSurvivalTree.

(** ** Vocabulary of the statements: aggregation *)

(** The tumors of gene [g] stored so far ([[]] when the gene is new). *)
Definition entry_of (g : string) (all_genes : PyDict (PyDict Q)) : PyDict Q :=
  match dict_get g all_genes with Some tumors => tumors | None => [] end.

(** [all_genes[g][t]], [None] when either key is missing. *)
Definition stored_pcc (all_genes : PyDict (PyDict Q)) (g t : string) : option Q :=
  tumors <- dict_get g all_genes ;; dict_get t tumors.

(** The pairs (tumor type, pcc) of gene [g], table by table in the order of
    [tumor_data], the pcc being the one of the gene's last row in the table. *)
Definition memberships (g : string) (tumor_data : PyDict DataFrame) : PyDict Q :=
  flat_map (fun item : string * DataFrame =>
              match last_pcc g (snd item) with
              | Some p => [(fst item, p)]
              | None => []
              end) tumor_data.

(** Gene [g] has a row in the table of tumor type [t]. *)
Definition appears_in (g t : string) (tumor_data : PyDict DataFrame) : Prop :=
  exists df, In (t, df) tumor_data /\ has_gene g df = true.

(** Gene [g] has rows in the tables of two different tumor types. *)
Definition in_several_tumors (g : string) (tumor_data : PyDict DataFrame) : Prop :=
  exists t1 t2, t1 <> t2 /\ appears_in g t1 tumor_data /\ appears_in g t2 tumor_data.

(** The tumor types whose table has a row for gene [g], in table order. *)
Definition tumors_with (g : string) (tumor_data : PyDict DataFrame) : list string :=
  map fst (filter (fun item : string * DataFrame => has_gene g (snd item)) tumor_data).

(** The same tables with their rows in another order. *)
Definition rows_reordered (d d' : PyDict DataFrame) : Prop :=
  Forall2 (fun x y : string * DataFrame =>
             fst x = fst y /\ Permutation (snd x) (snd y)) d d'.

(** The same tables, taken in another order and with their rows in another
    order. *)
Definition reordered (d d' : PyDict DataFrame) : Prop :=
  exists d1, rows_reordered d d1 /\ Permutation d1 d'.

(** The largest PCC among the rows of [df] whose gene is [g]. *)
Fixpoint max_pcc (g : string) (df : DataFrame) : option Q :=
  match df with
  | [] => None
  | row :: df' =>
      if String.eqb (gene_symbol row) g then
        match max_pcc g df' with
        | Some p => Some (Qmax (PCC row) p)
        | None => Some (PCC row)
        end
      else max_pcc g df'
  end.

(** Every row of every table passes the threshold. *)
Definition all_above (threshold : Q) (tumor_data : PyDict DataFrame) : Prop :=
  forall t df row, In (t, df) tumor_data -> In row df -> threshold <= PCC row.

(** The rows of gene [g] in a table. *)
Definition rows_of (g : string) (df : DataFrame) : DataFrame :=
  filter (fun row => String.eqb (gene_symbol row) g) df.

(** The list [gene_tumors[g]] ([[]] when the gene is not tracked). *)
Definition tumors_of (g : string) (tracked : PyDict (list string)) : list string :=
  match dict_get g tracked with Some tumors => tumors | None => [] end.

(** One entry of tumor type [t] for every row of gene [g] among the top rows
    of the table of [t], table by table. *)
Definition tracked_tumors (s : Settings) (g : string) (tumor_data : PyDict DataFrame)
  : list string :=
  flat_map (fun item : string * DataFrame =>
              map (fun _ => fst item)
                  (rows_of g (nlargest (max_genes_per_tumor s) (snd item))))
           tumor_data.

(** The tables cut to their top rows, as [create_survival_tree] reads them. *)
Definition capped (s : Settings) (tumor_data : PyDict DataFrame) : PyDict DataFrame :=
  map (fun item : string * DataFrame =>
         (fst item, nlargest (max_genes_per_tumor s) (snd item))) tumor_data.

(** No gene has two rows in the same table. *)
Definition no_recurrence (tumor_data : PyDict DataFrame) : Prop :=
  forall t df, In (t, df) tumor_data -> NoDup (map gene_symbol df).

(** Descending order of PCC. *)
Definition pcc_desc (a b : Row) : Prop := PCC b <= PCC a.

(** ** Vocabulary of the statements: sizes and widths *)

(** The interpolant [t = (score - lo) / (hi - lo)] of a score in the range
    [lo .. hi]. *)
Definition interpolant (lo hi score : Q) : Q := (score - lo) / (hi - lo).

(** [t] clamped to [0 .. 1]. *)
Definition clamp01 (t : Q) : Q := Qmax 0 (Qmin 1 t).

(** Linear interpolation between the two ends of an output range. *)
Definition lerp (range : Q * Q) (t : Q) : Q :=
  fst range + t * (snd range - fst range).

(** ** Vocabulary of the statements: the networks *)

(** [add_cross_edge] and [add_cross_gene] of [create_network] with the two
    threshold checks taken out, for comparison with the code. *)
Definition add_cross_edge_unchecked (s : Settings) (gene_id : string)
  (st : TumorNetwork.BuildState) (item : string * Q)
  : option TumorNetwork.BuildState :=
  let (tumor_type, pcc) := item in
  let width := TumorNetwork.edge_width s pcc in
  net2 <- add_edge {| e_from := tumor_type; e_to := gene_id; e_width := width |}
                   (TumorNetwork.net st) ;;
  counts <- dict_incr tumor_type (TumorNetwork.gene_counts st) ;;
  Some {| TumorNetwork.net := net2; TumorNetwork.gene_counts := counts;
          TumorNetwork.tumor_positions := TumorNetwork.tumor_positions st |}.

Definition add_cross_gene_unchecked (s : Settings) (st : TumorNetwork.BuildState)
  (item : string * PyDict Q) : option TumorNetwork.BuildState :=
  let (gene_id, tumor_pccs) := item in
  main <- TumorNetwork.main_tumor tumor_pccs ;;
  main_pcc <- dict_get main tumor_pccs ;;
  _ <- dict_get main (TumorNetwork.tumor_positions st) ;;
  size <- TumorNetwork.node_size s main_pcc ;;
  let net1 :=
    add_node {| n_id := gene_id; n_shape := Diamond; n_size := size + 2 |}
             (TumorNetwork.net st) in
  foldM (add_cross_edge_unchecked s gene_id) (dict_items tumor_pccs)
        {| TumorNetwork.net := net1;
           TumorNetwork.gene_counts := TumorNetwork.gene_counts st;
           TumorNetwork.tumor_positions := TumorNetwork.tumor_positions st |}.

(** Tumor type [t] has a table with at least one row. *)
Definition nonempty_table (tumor_data : PyDict DataFrame) (t : string) : Prop :=
  exists df, In (t, df) tumor_data /\ df <> [].

(** Every edge of [nt] leaves the centre or a tumor type with a non-empty
    table. *)
Definition edges_from_tables (centre : string) (tumor_data : PyDict DataFrame)
  (nt : Network) : Prop :=
  forall e, In e (edges nt) -> e_from e = centre \/ nonempty_table tumor_data (e_from e).

(** From [nt] to [nt'] no node is lost and the edges keep leaving the
    centre or a tumor type with rows. *)
Definition extends (centre : string) (tumor_data : PyDict DataFrame)
  (nt nt' : Network) : Prop :=
  (forall id, has_node id nt = true -> has_node id nt' = true)
  /\ (edges_from_tables centre tumor_data nt -> edges_from_tables centre tumor_data nt').

(** Every box node of [nt] is a tumor type whose table has rows. *)
Definition boxes_from_tables (d : PyDict DataFrame) (nt : Network) : Prop :=
  forall n, In n (nodes nt) -> n_shape n = Box -> nonempty_table d (n_id n).

(** Tumor type [t] has its node, its position and its counter. *)
Definition covers (t : string) (st : TumorNetwork.BuildState) : Prop :=
  has_node t (TumorNetwork.net st) = true
  /\ dict_mem t (TumorNetwork.tumor_positions st) = true
  /\ dict_mem t (TumorNetwork.gene_counts st) = true.

(** All the discovered tumor types that have a table are covered. *)
Definition all_covered (tumor_types : list string) (d : PyDict DataFrame)
  (st : TumorNetwork.BuildState) : Prop :=
  forall t, In t tumor_types -> dict_mem t d = true -> covers t st.

(** Every recorded (gene, tumor type) pair has its gene node, and the centre
    has its node. *)
Definition instances_drawn (st : BadSurvivalTree.BuildState) : Prop :=
  has_node "Poor Prognosis" (BadSurvivalTree.net st) = true
  /\ forall g t, In t (tumors_of g (BadSurvivalTree.gene_tumors st)) ->
                 has_node (BadSurvivalTree.gene_node_id g t) (BadSurvivalTree.net st) = true.

(** ** Concrete inputs *)

(** The running example of the documentation: tumor types A and B. *)
Definition table_A : DataFrame :=
  [ {| gene_symbol := "g1"; PCC := 9 # 10 |}; {| gene_symbol := "g2"; PCC := 6 # 10 |} ].
Definition table_B : DataFrame :=
  [ {| gene_symbol := "g1"; PCC := 7 # 10 |}; {| gene_symbol := "g3"; PCC := 55 # 100 |} ].
Definition example_data : PyDict DataFrame := [ ("A", table_A); ("B", table_B) ].

(** A table in which gene g1 recurs, the higher score first. *)
Definition table_recurring : DataFrame :=
  [ {| gene_symbol := "g1"; PCC := 9 # 10 |}; {| gene_symbol := "g1"; PCC := 6 # 10 |} ].

(** The table of one tumor in which gene g1 recurs. *)
Definition recurring_data : PyDict DataFrame := [ ("A", table_recurring) ].

(** Two tumor types, the first with an empty table. *)
Definition data_with_empty : PyDict DataFrame := [ ("A", []); ("B", table_B) ].

(** A data directory in which only the file of tumor type A can be read. *)
Definition example_files (tumor_type : string) : CsvFile :=
  if String.eqb tumor_type "A" then Readable table_A else ReadFails.

(** A data directory with the files of the running example. *)
Definition example_directory (tumor_type : string) : CsvFile :=
  if String.eqb tumor_type "A" then Readable table_A
  else if String.eqb tumor_type "B" then Readable table_B
  else ReadFails.

(** Settings whose score range [min_correlation .. 1] is degenerate. *)
Definition degenerate_settings : Settings :=
  {| min_correlation := 1;
     max_genes_per_tumor := 1000;
     node_size_range := (3, 10);
     edge_width_range := (3 # 10, 3 # 2) |}.

(** The settings [s] with [max_genes_per_tumor] set to [n]. *)
Definition with_cap (n : nat) (s : Settings) : Settings :=
  {| min_correlation := min_correlation s;
     max_genes_per_tumor := n;
     node_size_range := node_size_range s;
     edge_width_range := edge_width_range s |}.

(** The gene names g0, g1, g2, ... *)
Definition gene_name (i : nat) : string :=
  ("g" ++ NilEmpty.string_of_uint (Nat.to_uint i))%string.

(** A table of 1001 different genes: g0 .. g999 with PCC 0.9, then g1000
    with PCC 0.6. *)
Definition table_1001 : DataFrame :=
  map (fun i => {| gene_symbol := gene_name i; PCC := 9 # 10 |}) (seq 0 1000)
  ++ [ {| gene_symbol := "g1000"; PCC := 6 # 10 |} ].

Definition data_1001 : PyDict DataFrame := [ ("A", table_1001) ].

(** ** Vocabulary of the further properties *)

(** The file of a tumor type could be read and has a PCC column. *)
Definition is_readable (f : CsvFile) : bool :=
  match f with Readable _ => true | _ => false end.

(** What [load_all_data] logs for one tumor type. *)
Definition load_record (read_csv : string -> CsvFile) (s : Settings)
  (tumor_type : string) : LogRecord :=
  match read_csv tumor_type with
  | Readable df =>
      LogInfoThreshold tumor_type
        (List.length (filter_pcc_ge (min_correlation s) df))
  | _ => LogErrorLoading tumor_type
  end.

(** ** Discovery of the tumor types ([discover_tumor_types], the same code
    in both visualizers) *)

(** [c in s] for a character. *)
Fixpoint str_contains_char (c : Ascii.ascii) (s : string) : bool :=
  match s with
  | EmptyString => false
  | String x s' => Ascii.eqb x c || str_contains_char c s'
  end.

(** [old in s] for a non-empty string [old]. *)
Fixpoint str_contains (old s : string) : bool :=
  match s with
  | EmptyString => false
  | String _ s' => String.prefix old s || str_contains old s'
  end.

(** [s.endswith('/')] *)
Fixpoint ends_with_slash (s : string) : bool :=
  match s with
  | EmptyString => false
  | String c EmptyString => Ascii.eqb c "/"%char
  | String _ s' => ends_with_slash s'
  end.

(** The scan of [s.replace(old, new)] for a non-empty [old]: [skip] counts the
    characters of a found occurrence that are still to be passed over. *)
Fixpoint replace_from (skip : nat) (old new s : string) : string :=
  match s with
  | EmptyString => EmptyString
  | String c s' =>
      match skip with
      | S k => replace_from k old new s'
      | O =>
          if String.prefix old s
          then (new ++ replace_from (String.length old - 1) old new s')%string
          else String c (replace_from 0 old new s')
      end
  end.

(** [s.replace(old, new)]: the occurrences of [old], found from left to
    right without overlap, are replaced by [new] ([old] is not empty). *)
Definition str_replace (old new s : string) : string := replace_from 0 old new s.

(** [os.path.basename(p)]: what follows the last slash. *)
Fixpoint basename (p : string) : string :=
  match p with
  | EmptyString => EmptyString
  | String c p' =>
      if str_contains_char "/"%char p' then basename p'
      else if Ascii.eqb c "/"%char then p' else p
  end.

(** [os.path.join(a, b)] *)
Definition os_path_join (a b : string) : string :=
  if String.prefix "/" b then b
  else if (String.length a =? 0)%nat || ends_with_slash a then (a ++ b)%string
  else (a ++ "/" ++ b)%string.

(** [os.path.basename(file_path).replace('.csv', '')] *)
Definition tumor_name (file_path : string) : string :=
  str_replace ".csv" "" (basename file_path).

(** [discover_tumor_types], given the paths [data_files] returned by
    [glob.glob(os.path.join(data_dir, "*.csv"))]; the "Discovered tumor
    type" lines it logs are the elements of the result. *)
Definition discover_tumor_types (data_files : list string) : list string :=
  fold_left (fun tumor_types file_path => tumor_types ++ [tumor_name file_path])
            data_files [].

(** [os.path.join(data_dir, f"{tumor_type}.csv")], the file that
    [load_all_data] reads for a tumor type. *)
Definition csv_path (data_dir tumor_type : string) : string :=
  os_path_join data_dir (tumor_type ++ ".csv")%string.

(** A file name, without its extension, that has no slash and no ".csv"
    inside. *)
Definition plain_name (name : string) : Prop :=
  str_contains_char "/"%char name = false /\ str_contains ".csv" name = false.

(** The edges that [create_survival_tree] draws for one tumor type: none for
    an empty table, otherwise the edge from the centre and one edge per top
    row, in descending order of PCC. *)
Definition branch_edges (s : Settings) (item : string * DataFrame) : list Edge :=
  let (tumor_type, df) := item in
  if df_empty df then []
  else
    {| e_from := "Poor Prognosis"; e_to := tumor_type; e_width := 3 |}
    :: map (fun row =>
              {| e_from := tumor_type;
                 e_to := BadSurvivalTree.gene_node_id (gene_symbol row) tumor_type;
                 e_width :=
                   BadSurvivalTree.edge_width s
                     (interpolant (min_correlation s) 1 (PCC row)) |})
           (nlargest (max_genes_per_tumor s) df).

(** The entry of a cross-tumor gene passes the check on its main tumor:
    [main_pcc < min_correlation] is false. *)
Definition reaches_threshold (s : Settings) (item : string * PyDict Q) : bool :=
  match TumorNetwork.main_tumor (snd item) with
  | Some main =>
      match dict_get main (snd item) with
      | Some main_pcc => negb (Qlt_bool main_pcc (min_correlation s))
      | None => false
      end
  | None => false
  end.

(** The positions recorded so far belong to discovered tumor types. *)
Definition positions_within (tumor_types : list string)
  (st : TumorNetwork.BuildState) : Prop :=
  forall t, dict_mem t (TumorNetwork.tumor_positions st) = true -> In t tumor_types.

(** No row of any table has a PCC above [bound]. *)
Definition all_at_most (bound : Q) (tumor_data : PyDict DataFrame) : Prop :=
  forall t df row, In (t, df) tumor_data -> In row df -> PCC row <= bound.

(** The nodes of [create_network]: the centre (size 30), a tumor node (size
    20), a tumor-specific gene (dot, size within the configured range) or a
    cross-tumor gene (diamond, size within the range moved up by 2). *)
Definition tn_node_ok (s : Settings) (n : Node) : Prop :=
  (n_shape n = Dot /\ (n_size n = 30 \/ n_size n = 20))
  \/ (n_shape n = Dot
      /\ fst (node_size_range s) <= n_size n <= snd (node_size_range s))
  \/ (n_shape n = Diamond
      /\ fst (node_size_range s) + 2 <= n_size n <= snd (node_size_range s) + 2).

(** The nodes of [create_survival_tree] before the cross-tumor genes are
    marked: the centre (ellipse, 45), a tumor (box, 30) or a gene (dot, size
    within the configured range). *)
Definition bst_node_ok (s : Settings) (n : Node) : Prop :=
  (n_shape n = Ellipse /\ n_size n = BadSurvivalTree.central_node_size)
  \/ (n_shape n = Box /\ n_size n = BadSurvivalTree.tumor_node_size)
  \/ (n_shape n = Dot
      /\ fst (node_size_range s) <= n_size n <= snd (node_size_range s)).

(** Every node drawn so far by [create_network] has one of the expected
    shapes and sizes. *)
Definition tn_nodes_ok (s : Settings) (st : TumorNetwork.BuildState) : Prop :=
  forall n, In n (nodes (TumorNetwork.net st)) -> tn_node_ok s n.

(** Every node drawn so far by [create_survival_tree] is a diamond (a marked
    cross-tumor gene) or has one of the expected shapes and sizes. *)
Definition bst_nodes_ok (s : Settings) (nt : Network) : Prop :=
  forall n, In n (nodes nt) -> n_shape n = Diamond \/ bst_node_ok s n.

(** An edge of [create_network] is an edge from the centre to a discovered
    tumor type that has a table, or an edge from a tumor type to a gene that
    has a row in the table of that tumor type. *)
Definition tn_edge_ok (tumor_types : list string) (d : PyDict DataFrame)
  (e : Edge) : Prop :=
  (e_from e = "GCH1" /\ In (e_to e) tumor_types /\ dict_mem (e_to e) d = true)
  \/ appears_in (e_to e) (e_from e) d.

Definition tn_edges_ok (tumor_types : list string) (d : PyDict DataFrame)
  (st : TumorNetwork.BuildState) : Prop :=
  forall e, In e (edges (TumorNetwork.net st)) -> tn_edge_ok tumor_types d e.

(** Some edge of the network joins [a] and [b]. *)
Definition is_joined (a b : string) (nt : Network) : bool :=
  existsb (joins a b) (edges nt).

(** No edge is lost from [a] to [b]. *)
Definition keeps_edges (a b : TumorNetwork.BuildState) : Prop :=
  incl (edges (TumorNetwork.net a)) (edges (TumorNetwork.net b)).


(** [evaluate_as H e] adds the equation [H] between the closed term [e] and
    its value. *)
Ltac evaluate_as H e :=
  let v := eval vm_compute in e in assert (H : e = v) by reflexivity.

(** The warnings of [create_survival_tree]: one "no data" record for every
    empty table, in the order of the tables. *)
Definition empty_table_warnings (tumor_data : PyDict DataFrame) : list LogRecord :=
  map (fun item : string * DataFrame => LogWarningNoData (fst item))
      (filter (fun item : string * DataFrame => df_empty (snd item)) tumor_data).

(** The node with identifier [id] is drawn as a diamond. *)
Definition is_diamond (id : string) (nt : Network) : Prop :=
  exists n, get_node id nt = Some n /\ n_shape n = Diamond.

(** The number [create_network] counts for tumor type [t]: the rows of its
    tumor-specific genes and the cross-tumor genes that have a score for
    [t]. *)
Definition tn_expected_count (t : string) (df : DataFrame)
  (tumor_data : PyDict DataFrame) : nat :=
  let all_genes := TumorNetwork.collect_all_genes tumor_data in
  (List.length (filter_gene (TumorNetwork.is_tumor_specific all_genes) df)
   + List.length (filter (fun item : string * PyDict Q => dict_mem t (snd item))
                         (TumorNetwork.cross_tumor_genes all_genes)))%nat.

(** [gene_counts[t]] as far as the construction has got. *)
Definition tn_count (t : string) (st : TumorNetwork.BuildState) : option nat :=
  dict_get t (TumorNetwork.gene_counts st).

(** The risk levels in ascending order. *)
Definition risk_rank (r : BadSurvivalTree.RiskLevel) : nat :=
  match r with
  | BadSurvivalTree.LowRisk => 0
  | BadSurvivalTree.ModerateRisk => 1
  | BadSurvivalTree.HighRisk => 2
  end.

(** An edge of [run] goes back to the files: it joins the centre to a
    discovered tumor type whose file could be read, or it joins a discovered
    tumor type to the gene of a row of its file that passes the threshold. *)
Definition tn_edge_from_files (read_csv : string -> CsvFile) (s : Settings)
  (tumor_types : list string) (e : Edge) : Prop :=
  (e_from e = "GCH1" /\ In (e_to e) tumor_types
   /\ is_readable (read_csv (e_to e)) = true)
  \/ (In (e_from e) tumor_types
      /\ exists df row,
           read_csv (e_from e) = Readable df /\ In row df
           /\ gene_symbol row = e_to e /\ min_correlation s <= PCC row).

(** No two rows of the table have the same PCC (and no row is there
    twice): the order of the rows by descending PCC is then the same for
    every sorting algorithm. *)
Definition distinct_scores (df : DataFrame) : Prop :=
  NoDup df /\ forall a b, In a df -> In b df -> PCC a == PCC b -> a = b.

Definition tables_without_ties (tumor_data : PyDict DataFrame) : Prop :=
  forall t df, In (t, df) tumor_data -> distinct_scores df.

(** A way to put the rows of a table in descending order of PCC, whatever
    it does with rows of equal PCC: what [sort_values] and [nlargest] of
    pandas promise of their sorting algorithm. *)
Definition descending_sort (order : DataFrame -> DataFrame) : Prop :=
  forall df, Permutation (order df) df /\ StronglySorted pcc_desc (order df).

(** [branch_edges] with the top rows taken from the table as [order] sorts
    it. *)
Definition branch_edges_by (order : DataFrame -> DataFrame) (s : Settings)
  (item : string * DataFrame) : list Edge :=
  let (tumor_type, df) := item in
  if df_empty df then []
  else
    {| e_from := "Poor Prognosis"; e_to := tumor_type; e_width := 3 |}
    :: map (fun row =>
              {| e_from := tumor_type;
                 e_to := BadSurvivalTree.gene_node_id (gene_symbol row) tumor_type;
                 e_width :=
                   BadSurvivalTree.edge_width s
                     (interpolant (min_correlation s) 1 (PCC row)) |})
           (firstn (max_genes_per_tumor s) (order df)).

(** ** [load_all_data] as a whole: discovery, then the loop *)

(** What [load_all_data] logs: a "Discovered tumor type" line of
    [discover_tumor_types], or a record of the loop over the tumor types. *)
Inductive LoaderEvent : Type :=
| Discovered (tumor_type : string)
| Loading (record : LogRecord).

Record LoadResult : Type := mkLoadResult {
  found_types : list string;       (* [self.tumor_types] *)
  loaded : LoadState;              (* the mapping returned, [self.gene_counts] *)
  events : list LoaderEvent        (* everything logged, in order *)
}.

(** [load_all_data(data_dir)], where [data_files] is what [glob.glob] finds
    in the directory: [self.tumor_types = self.discover_tumor_types(data_dir)]
    first, which logs one line per file, then the loop. *)
Definition load_all_data_of_files (data_files : list string)
  (read_csv : string -> CsvFile) (s : Settings) (gene_counts : PyDict nat)
  : LoadResult :=
  let tumor_types := discover_tumor_types data_files in
  let state := load_all_data read_csv s tumor_types gene_counts in
  {| found_types := tumor_types;
     loaded := state;
     events := map Discovered tumor_types ++ map Loading (load_log state) |}.

(** A table whose only row is below the threshold 0.5. *)
Definition table_low : DataFrame := [ {| gene_symbol := "g4"; PCC := 1 # 10 |} ].

(** A data directory in which no row of the file of B passes the
    threshold. *)
Definition directory_with_low_scores (tumor_type : string) : CsvFile :=
  if String.eqb tumor_type "A" then Readable table_A
  else if String.eqb tumor_type "B" then Readable table_low
  else ReadFails.

(** * Properties *)

(** ** Dictionary lemmas *)

Section PyDictFacts.
Context {V : Type}.
Implicit Types (d : PyDict V) (k : string).

Lemma dict_get_set_same k v d : dict_get k (dict_set k v d) = Some v.
Proof.
  induction d as [|[k' v'] d IH]; simpl.
  - now rewrite String.eqb_refl.
  - destruct (String.eqb k k') eqn:E; simpl; rewrite ?String.eqb_refl, ?E; auto.
Qed.

Lemma dict_get_set_other k k' v d :
  k <> k' -> dict_get k' (dict_set k v d) = dict_get k' d.
Proof.
  intros Hne. induction d as [|[k0 v0] d IH]; simpl.
  - destruct (String.eqb_spec k' k); congruence.
  - destruct (String.eqb_spec k k0) as [->|Hk]; simpl.
    + destruct (String.eqb_spec k' k0); congruence.
    + now rewrite IH.
Qed.

Lemma dict_get_modify_same k f d :
  dict_get k (dict_modify k f d) = option_map f (dict_get k d).
Proof.
  induction d as [|[k' v'] d IH]; simpl; auto.
  destruct (String.eqb k k') eqn:E; simpl; rewrite E; auto.
Qed.

Lemma dict_get_modify_other k k' f d :
  k <> k' -> dict_get k' (dict_modify k f d) = dict_get k' d.
Proof.
  intros Hne. induction d as [|[k0 v0] d IH]; simpl; auto.
  destruct (String.eqb_spec k k0) as [->|Hk]; simpl.
  - destruct (String.eqb_spec k' k0); congruence.
  - now rewrite IH.
Qed.

Lemma dict_set_set k v1 v2 d :
  dict_set k v2 (dict_set k v1 d) = dict_set k v2 d.
Proof.
  induction d as [|[k' v'] d IH]; simpl.
  - now rewrite String.eqb_refl.
  - destruct (String.eqb k k') eqn:E; simpl; rewrite ?String.eqb_refl, ?E; congruence.
Qed.

Lemma dict_get_In k v d : dict_get k d = Some v -> In (k, v) d.
Proof.
  induction d as [|[k' v'] d IH]; simpl; try discriminate.
  destruct (String.eqb_spec k k') as [->|Hk].
  - intros [= ->]. now left.
  - intros H. right. auto.
Qed.

Lemma dict_get_None k d : dict_get k d = None <-> ~ In k (dict_keys d).
Proof.
  induction d as [|[k' v'] d IH]; simpl.
  - tauto.
  - destruct (String.eqb_spec k k') as [->|Hk].
    + split; [discriminate | intros H; exfalso; apply H; now left].
    + rewrite IH. split; intros H; [intros [E|E]; [congruence|auto] | tauto].
Qed.

Lemma dict_mem_In k d : dict_mem k d = true <-> In k (dict_keys d).
Proof.
  unfold dict_mem. destruct (dict_get k d) eqn:E.
  - split; auto. intros _. apply dict_get_In in E.
    apply (in_map fst) in E. exact E.
  - split; [discriminate|]. intros H. apply dict_get_None in E. contradiction.
Qed.

Lemma In_dict_get k v d : dict_wf d -> In (k, v) d -> dict_get k d = Some v.
Proof.
  unfold dict_wf. induction d as [|[k' v'] d IH]; simpl; [tauto|].
  intros Hnd [E|Hin].
  - injection E as -> ->. now rewrite String.eqb_refl.
  - inversion Hnd as [|? ? Hni Hnd']; subst.
    destruct (String.eqb_spec k k') as [->|Hk]; auto.
    exfalso. apply Hni. apply (in_map fst) in Hin. exact Hin.
Qed.

Lemma dict_set_fresh k v d :
  ~ In k (dict_keys d) -> dict_set k v d = d ++ [(k, v)].
Proof.
  induction d as [|[k' v'] d IH]; simpl; auto.
  intros Hni. destruct (String.eqb_spec k k') as [->|Hk].
  - exfalso. apply Hni. now left.
  - rewrite IH; auto.
Qed.

Lemma dict_keys_modify k f d : dict_keys (dict_modify k f d) = dict_keys d.
Proof.
  induction d as [|[k' v'] d IH]; simpl; auto.
  destruct (String.eqb k k'); simpl; congruence.
Qed.

Lemma dict_keys_set k v d :
  dict_keys (dict_set k v d) =
  if dict_mem k d then dict_keys d else dict_keys d ++ [k].
Proof.
  induction d as [|[k' v'] d IH]; simpl; auto.
  unfold dict_mem in *. simpl.
  destruct (String.eqb_spec k k') as [->|Hk]; simpl; auto.
  rewrite IH. destruct (dict_get k d); auto.
Qed.

Lemma dict_wf_set k v d : dict_wf d -> dict_wf (dict_set k v d).
Proof.
  unfold dict_wf. intros Hwf. rewrite dict_keys_set.
  destruct (dict_mem k d) eqn:E; auto.
  apply NoDup_app_remove_l with (l := []). simpl.
  apply Permutation_NoDup with (l := k :: dict_keys d).
  - apply Permutation_cons_append.
  - constructor; auto. intros Hin. apply dict_mem_In in Hin. congruence.
Qed.

Lemma dict_wf_modify k f d : dict_wf d -> dict_wf (dict_modify k f d).
Proof. unfold dict_wf. now rewrite dict_keys_modify. Qed.
End PyDictFacts.

(** ** Aggregation in tumor_network.py *)

Lemma last_pcc_has_gene g df : last_pcc g df = None <-> has_gene g df = false.
Proof.
  induction df as [|r df IH]; simpl; [tauto|].
  destruct (last_pcc g df) as [p|].
  - split; [discriminate|]. intros H. apply orb_false_elim in H.
    destruct H as [_ H]. apply IH in H. discriminate.
  - destruct IH as [IH _]. rewrite IH by reflexivity. rewrite orb_false_r.
    destruct (String.eqb (gene_symbol r) g); split; congruence.
Qed.

Lemma has_gene_In g df :
  has_gene g df = true <-> exists r, In r df /\ gene_symbol r = g.
Proof.
  unfold has_gene. rewrite existsb_exists.
  split; intros [r [Hin H]]; exists r; split; auto.
  - now apply String.eqb_eq.
  - now apply String.eqb_eq.
Qed.

Lemma has_gene_perm g df df' :
  Permutation df df' -> has_gene g df = has_gene g df'.
Proof.
  intros HP. destruct (has_gene g df') eqn:E.
  - apply has_gene_In. apply has_gene_In in E. destruct E as [r [Hin H]].
    exists r. split; auto. eapply Permutation_in; [symmetry; exact HP|exact Hin].
  - destruct (has_gene g df) eqn:E'; auto.
    apply has_gene_In in E'. destruct E' as [r [Hin H]].
    assert (has_gene g df' = true) as C.
    { apply has_gene_In. exists r. split; auto. eapply Permutation_in; eauto. }
    congruence.
Qed.

Lemma collect_row_get g t ag r :
  dict_get g (TumorNetwork.collect_row t ag r) =
  if String.eqb (gene_symbol r) g
  then Some (dict_set t (PCC r) (entry_of g ag))
  else dict_get g ag.
Proof.
  unfold TumorNetwork.collect_row, entry_of.
  destruct (String.eqb_spec (gene_symbol r) g) as [->|Hne].
  - rewrite dict_get_modify_same. unfold dict_mem.
    destruct (dict_get g ag) as [i|] eqn:E; simpl.
    + now rewrite E.
    + now rewrite dict_get_set_same.
  - rewrite dict_get_modify_other by assumption.
    destruct (negb (dict_mem (gene_symbol r) ag)); auto.
    now apply dict_get_set_other.
Qed.

Lemma collect_rows_get g t df : forall ag,
  dict_get g (fold_left (TumorNetwork.collect_row t) df ag) =
  match last_pcc g df with
  | Some p => Some (dict_set t p (entry_of g ag))
  | None => dict_get g ag
  end.
Proof.
  induction df as [|r df IH]; intros ag; simpl; auto.
  rewrite IH. unfold entry_of at 1. rewrite !collect_row_get.
  destruct (last_pcc g df) as [p|].
  - destruct (String.eqb (gene_symbol r) g); auto.
    now rewrite dict_set_set.
  - now destruct (String.eqb (gene_symbol r) g).
Qed.

Lemma collect_table_entry g ag item :
  entry_of g (TumorNetwork.collect_table ag item) =
  match last_pcc g (snd item) with
  | Some p => dict_set (fst item) p (entry_of g ag)
  | None => entry_of g ag
  end.
Proof.
  destruct item as [t df]. unfold TumorNetwork.collect_table. simpl.
  unfold entry_of at 1. rewrite collect_rows_get.
  now destruct (last_pcc g df).
Qed.

Lemma collect_table_mem g ag item :
  dict_mem g (TumorNetwork.collect_table ag item) =
  dict_mem g ag || has_gene g (snd item).
Proof.
  destruct item as [t df]. unfold TumorNetwork.collect_table. simpl.
  unfold dict_mem at 1. rewrite collect_rows_get.
  destruct (last_pcc g df) as [p|] eqn:E.
  - destruct (has_gene g df) eqn:H.
    + now rewrite orb_true_r.
    + apply last_pcc_has_gene in H. congruence.
  - apply last_pcc_has_gene in E. rewrite E, orb_false_r. reflexivity.
Qed.

Lemma collect_tables_entry g d : forall ag,
  entry_of g (fold_left TumorNetwork.collect_table d ag) =
  fold_left (fun acc (item : string * DataFrame) =>
               match last_pcc g (snd item) with
               | Some p => dict_set (fst item) p acc
               | None => acc
               end) d (entry_of g ag).
Proof.
  induction d as [|item d IH]; intros ag; simpl; auto.
  now rewrite IH, collect_table_entry.
Qed.

Lemma collect_tables_mem g d : forall ag,
  dict_mem g (fold_left TumorNetwork.collect_table d ag) =
  dict_mem g ag || existsb (fun item : string * DataFrame => has_gene g (snd item)) d.
Proof.
  induction d as [|item d IH]; intros ag; simpl.
  - now rewrite orb_false_r.
  - now rewrite IH, collect_table_mem, orb_assoc.
Qed.

Lemma memberships_fold g d : forall acc : PyDict Q,
  dict_wf d ->
  (forall t, In t (dict_keys acc) -> ~ In t (dict_keys d)) ->
  fold_left (fun acc (item : string * DataFrame) =>
               match last_pcc g (snd item) with
               | Some p => dict_set (fst item) p acc
               | None => acc
               end) d acc = acc ++ memberships g d.
Proof.
  unfold dict_wf.
  induction d as [|[t df] d IH]; intros acc Hwf Hdisj; simpl.
  - now rewrite app_nil_r.
  - simpl in Hwf. inversion Hwf as [|? ? Hni Hwf']; subst.
    destruct (last_pcc g df) as [p|].
    + rewrite dict_set_fresh.
      * rewrite IH; auto.
        -- now rewrite <- app_assoc.
        -- intros t'. unfold dict_keys. rewrite map_app, in_app_iff. simpl.
           intros [H|[<-|[]]]; auto.
           intros H'. apply (Hdisj t' H). now right.
      * intros H. apply (Hdisj t H). now left.
    + apply IH; auto. intros t' H H'. apply (Hdisj t' H). now right.
Qed.

(** The entry of a gene after the aggregation pass: its tumors in the order
    of the tables, each with the pcc of the gene's last row there. *)
Lemma collect_all_genes_get g d :
  dict_wf d ->
  dict_get g (TumorNetwork.collect_all_genes d) =
  if existsb (fun item : string * DataFrame => has_gene g (snd item)) d
  then Some (memberships g d) else None.
Proof.
  intros Hwf. unfold TumorNetwork.collect_all_genes, dict_items.
  pose proof (collect_tables_mem g d []) as Hm.
  pose proof (collect_tables_entry g d []) as He.
  rewrite memberships_fold in He; auto.
  unfold entry_of, dict_mem in *. simpl in *.
  destruct (dict_get g (fold_left TumorNetwork.collect_table d [])).
  - rewrite <- Hm. now subst.
  - now rewrite <- Hm.
Qed.

Lemma dict_get_filter {V : Type} (P : string * V -> bool) (d : PyDict V) k :
  dict_wf d ->
  dict_get k (filter P d) =
  match dict_get k d with
  | Some v => if P (k, v) then Some v else None
  | None => None
  end.
Proof.
  unfold dict_wf. induction d as [|[k' v'] d IH]; simpl; auto.
  intros Hwf. inversion Hwf as [|? ? Hni Hwf']; subst.
  destruct (String.eqb_spec k k') as [->|Hne].
  - destruct (P (k', v')) eqn:EP; simpl.
    + now rewrite String.eqb_refl.
    + apply dict_get_None. intros Hin. apply Hni.
      unfold dict_keys in Hin. apply in_map_iff in Hin.
      destruct Hin as [[k0 v0] [E Hin]]. simpl in E. subst k0.
      apply filter_In in Hin. destruct Hin as [Hin _].
      apply (in_map fst) in Hin. exact Hin.
  - destruct (P (k', v')); simpl; auto.
    destruct (String.eqb_spec k k'); [contradiction|auto].
Qed.

Lemma collect_row_wf t ag r : dict_wf ag -> dict_wf (TumorNetwork.collect_row t ag r).
Proof.
  intros H. unfold TumorNetwork.collect_row. apply dict_wf_modify.
  destruct (negb (dict_mem (gene_symbol r) ag)); auto using dict_wf_set.
Qed.

Lemma collect_all_genes_wf d : dict_wf (TumorNetwork.collect_all_genes d).
Proof.
  unfold TumorNetwork.collect_all_genes, dict_items.
  assert (forall ag, dict_wf ag -> dict_wf (fold_left TumorNetwork.collect_table d ag)) as H.
  { induction d as [|[t df] d IH]; intros ag Hag; simpl; auto.
    apply IH. clear IH. revert ag Hag.
    induction df as [|r df IHdf]; intros ag Hag; simpl; auto.
    apply IHdf. now apply collect_row_wf. }
  apply H. constructor.
Qed.

Lemma memberships_keys g d : dict_keys (memberships g d) = tumors_with g d.
Proof.
  unfold memberships, tumors_with, dict_keys.
  induction d as [|[t df] d IH]; simpl; auto.
  destruct (last_pcc g df) as [p|] eqn:E.
  - destruct (has_gene g df) eqn:H.
    + simpl. now rewrite IH.
    + apply last_pcc_has_gene in H. congruence.
  - apply last_pcc_has_gene in E. now rewrite E.
Qed.

Lemma memberships_length g d :
  dict_len (memberships g d) = List.length (tumors_with g d).
Proof.
  rewrite <- memberships_keys. unfold dict_len, dict_keys. now rewrite length_map.
Qed.

Lemma memberships_nil g d :
  existsb (fun item : string * DataFrame => has_gene g (snd item)) d = false ->
  memberships g d = [].
Proof.
  unfold memberships. induction d as [|[t df] d IH]; simpl; auto.
  intros H. apply orb_false_elim in H. destruct H as [H1 H2].
  apply last_pcc_has_gene in H1. rewrite H1. simpl. auto.
Qed.

(** The two classification tests of [create_network], read off the tables. *)
Lemma is_cross_tumor_length g d :
  dict_wf d ->
  TumorNetwork.is_cross_tumor (TumorNetwork.collect_all_genes d) g =
  (1 <? List.length (tumors_with g d))%nat.
Proof.
  intros Hwf. unfold TumorNetwork.is_cross_tumor, TumorNetwork.cross_tumor_genes,
    dict_mem, dict_items.
  rewrite dict_get_filter by apply collect_all_genes_wf.
  rewrite collect_all_genes_get by assumption. rewrite <- memberships_length.
  destruct (existsb _ d) eqn:E; simpl.
  - now destruct (1 <? dict_len (memberships g d))%nat.
  - now rewrite memberships_nil.
Qed.

Lemma is_tumor_specific_length g d :
  dict_wf d ->
  TumorNetwork.is_tumor_specific (TumorNetwork.collect_all_genes d) g =
  (List.length (tumors_with g d) =? 1)%nat.
Proof.
  intros Hwf. unfold TumorNetwork.is_tumor_specific.
  rewrite collect_all_genes_get by assumption. rewrite <- memberships_length.
  destruct (existsb _ d) eqn:E; simpl; auto.
  now rewrite memberships_nil.
Qed.

Lemma tumors_with_In g t d : In t (tumors_with g d) <-> appears_in g t d.
Proof.
  unfold tumors_with, appears_in. rewrite in_map_iff. split.
  - intros [[t' df] [E Hin]]. simpl in E. subst t'.
    apply filter_In in Hin. simpl in Hin. exists df. exact Hin.
  - intros [df [Hin H]]. exists (t, df). split; auto.
    apply filter_In. auto.
Qed.

Lemma tumors_with_NoDup g d : dict_wf d -> NoDup (tumors_with g d).
Proof.
  unfold dict_wf, dict_keys, tumors_with.
  induction d as [|[t df] d IH]; simpl; intros Hwf; [constructor|].
  inversion Hwf as [|? ? Hni Hwf']; subst.
  destruct (has_gene g df); simpl; auto.
  constructor; auto. intros Hin. apply Hni.
  apply in_map_iff in Hin. destruct Hin as [x [E Hin]].
  apply filter_In in Hin. destruct Hin as [Hin _].
  apply in_map_iff. eauto.
Qed.

Lemma several_length g d :
  dict_wf d ->
  ((1 < List.length (tumors_with g d))%nat <-> in_several_tumors g d).
Proof.
  intros Hwf. pose proof (tumors_with_NoDup g Hwf) as Hnd.
  unfold in_several_tumors. split.
  - intros Hlen.
    destruct (tumors_with g d) as [|t1 [|t2 l]] eqn:E; simpl in Hlen; try lia.
    exists t1, t2. split; [|split].
    + inversion Hnd as [|? ? Hni _]; subst. intros ->. apply Hni. now left.
    + apply tumors_with_In. rewrite E. now left.
    + apply tumors_with_In. rewrite E. right. now left.
  - intros [t1 [t2 [Hne [H1 H2]]]].
    apply tumors_with_In in H1, H2.
    destruct (tumors_with g d) as [|x [|y l]]; simpl in *; try lia; try tauto.
    destruct H1 as [<-|[]], H2 as [<-|[]]. congruence.
Qed.

Lemma tumors_with_rows_reordered g d d1 :
  rows_reordered d d1 -> tumors_with g d = tumors_with g d1.
Proof.
  unfold rows_reordered, tumors_with.
  induction 1 as [|[t df] [t1 df1] d d1 [Ht Hp] _ IH]; simpl in *; auto.
  subst t1. rewrite (has_gene_perm g Hp).
  destruct (has_gene g df1); simpl; congruence.
Qed.

Lemma filter_Permutation {A : Type} (f : A -> bool) (l l' : list A) :
  Permutation l l' -> Permutation (filter f l) (filter f l').
Proof.
  induction 1 as [|x l l' _ IH|x y l|l l' l'' _ IH1 _ IH2]; simpl; auto.
  - destruct (f x); auto.
  - destruct (f x), (f y); auto. constructor.
  - now transitivity (filter f l').
Qed.

Lemma tumors_with_reordered g d d' :
  reordered d d' -> Permutation (tumors_with g d) (tumors_with g d').
Proof.
  intros [d1 [Hr Hp]]. rewrite (tumors_with_rows_reordered g Hr).
  unfold tumors_with. apply Permutation_map. now apply filter_Permutation.
Qed.

Lemma reordered_wf d d' : reordered d d' -> dict_wf d -> dict_wf d'.
Proof.
  intros [d1 [Hr Hp]] Hwf. unfold dict_wf, dict_keys in *.
  apply Permutation_NoDup with (l := map fst d1).
  - now apply Permutation_map.
  - replace (map fst d1) with (map fst d); auto.
    clear Hp Hwf. induction Hr as [|x y d d1 [E _] _ IH]; simpl; congruence.
Qed.

(** In [create_network] a gene is a cross-tumor gene exactly when it has
    rows in the tables of two different tumor types. *)
Theorem tn_cross_tumor_iff (tumor_data : PyDict DataFrame) (g : string) :
  dict_wf tumor_data ->
  (TumorNetwork.is_cross_tumor (TumorNetwork.collect_all_genes tumor_data) g = true
   <-> in_several_tumors g tumor_data).
Proof.
  intros Hwf. rewrite is_cross_tumor_length by assumption.
  rewrite Nat.ltb_lt. now apply several_length.
Qed.

(** In [create_network] the classification of every gene is the same for
    every order of the tables and of the rows inside them. *)
Theorem tn_classification_order_independent (d d' : PyDict DataFrame) (g : string) :
  dict_wf d -> reordered d d' ->
  TumorNetwork.is_cross_tumor (TumorNetwork.collect_all_genes d) g =
  TumorNetwork.is_cross_tumor (TumorNetwork.collect_all_genes d') g
  /\ TumorNetwork.is_tumor_specific (TumorNetwork.collect_all_genes d) g =
     TumorNetwork.is_tumor_specific (TumorNetwork.collect_all_genes d') g.
Proof.
  intros Hwf Hr. pose proof (reordered_wf Hr Hwf) as Hwf'.
  rewrite !is_cross_tumor_length, !is_tumor_specific_length by assumption.
  now rewrite (Permutation_length (tumors_with_reordered g Hr)).
Qed.

(** ** From a score to a node size and an edge width *)

Lemma py_div_nonzero a b : ~ b == 0 -> py_div a b = Some (a / b).
Proof.
  intros H. unfold py_div. destruct (Qeq_bool b 0) eqn:E; auto.
  apply Qeq_bool_eq in E. contradiction.
Qed.

Lemma py_div_zero a b : b == 0 -> py_div a b = None.
Proof.
  intros H. unfold py_div. now rewrite (Qeq_eq_bool _ _ H).
Qed.

Lemma interpolant_unit lo score :
  lo < 1 -> lo <= score <= 1 ->
  0 <= interpolant lo 1 score <= 1.
Proof.
  intros Hlo [H1 H2]. unfold interpolant. split.
  - apply Qle_shift_div_l; lra.
  - apply Qle_shift_div_r; lra.
Qed.

Lemma clamp01_id t : 0 <= t <= 1 -> clamp01 t == t.
Proof.
  intros [H0 H1]. unfold clamp01.
  rewrite (Q.min_r 1 t) by assumption. now apply Q.max_r.
Qed.

Lemma lerp_bounds range t :
  fst range <= snd range -> 0 <= t <= 1 ->
  fst range <= lerp range t <= snd range.
Proof.
  intros Hr [H0 H1]. unfold lerp. split; nra.
Qed.

Lemma lerp_compat range t t' : t == t' -> lerp range t == lerp range t'.
Proof. intros H. unfold lerp. now rewrite H. Qed.

(** The two visualizers compute the same size: the linear interpolation at
    the interpolant of the score in [min_correlation .. 1]. *)
Lemma tn_node_size_lerp s score :
  ~ 1 - min_correlation s == 0 ->
  exists size, TumorNetwork.node_size s score = Some size
    /\ size == lerp (node_size_range s) (interpolant (min_correlation s) 1 score).
Proof.
  intros Hd. unfold TumorNetwork.node_size, lerp, interpolant.
  destruct (node_size_range s) as [size_min size_max]. simpl.
  rewrite py_div_nonzero by assumption.
  eexists. split; [reflexivity|]. field. exact Hd.
Qed.

Lemma bst_size_scale_interpolant s score :
  ~ 1 - min_correlation s == 0 ->
  BadSurvivalTree.size_scale s score = Some (interpolant (min_correlation s) 1 score).
Proof.
  intros Hd. unfold BadSurvivalTree.size_scale, interpolant.
  now apply py_div_nonzero.
Qed.

Lemma node_size_interpolation (s : Settings) (score : Q) :
  min_correlation s < 1 ->
  fst (node_size_range s) <= snd (node_size_range s) ->
  min_correlation s <= score <= 1 ->
  let t := interpolant (min_correlation s) 1 score in
  (exists size,
      TumorNetwork.node_size s score = Some size
      /\ size == lerp (node_size_range s) (clamp01 t)
      /\ fst (node_size_range s) <= size <= snd (node_size_range s))
  /\ (exists scale,
         BadSurvivalTree.size_scale s score = Some scale
         /\ scale == clamp01 t
         /\ BadSurvivalTree.node_size s scale == lerp (node_size_range s) (clamp01 t)
         /\ fst (node_size_range s) <= BadSurvivalTree.node_size s scale
            <= snd (node_size_range s)).
Proof.
  intros Hmin Hrange Hscore t.
  assert (~ 1 - min_correlation s == 0) as Hd by lra.
  pose proof (interpolant_unit Hmin Hscore) as Ht. fold t in Ht.
  pose proof (clamp01_id Ht) as Hc.
  pose proof (lerp_bounds (node_size_range s) Hrange Ht) as Hb.
  split.
  - destruct (tn_node_size_lerp s score Hd) as [size [Hs Hl]]. fold t in Hl.
    exists size. split; [exact Hs|]. split.
    + rewrite Hl. apply lerp_compat. now symmetry.
    + now rewrite Hl.
  - exists t. split; [now apply bst_size_scale_interpolant|].
    split; [now symmetry|]. split.
    + change (BadSurvivalTree.node_size s t) with (lerp (node_size_range s) t).
      apply lerp_compat. now symmetry.
    + exact Hb.
Qed.

(** C2, as stated, fails.  The settings have no [maxScore]: the upper end of
    the score range is the constant 1, and nothing is clamped.  With
    [min_correlation = 1] the score 1 lies in the range [1 .. 1], and no size
    is computed at all, in either visualizer.  And for scores that end at
    0.8 (minScore 0.5, maxScore 0.8) the score 0.8 has the interpolant 1 of
    the claim and the size [size_max = 10], where [create_network] computes
    7.2. *)
Lemma node_size_without_max_score :
  (min_correlation degenerate_settings <= 1 <= 1
   /\ ~ (exists size,
           TumorNetwork.node_size degenerate_settings 1 = Some size
           /\ fst (node_size_range degenerate_settings) <= size
              <= snd (node_size_range degenerate_settings))
   /\ ~ (exists scale, BadSurvivalTree.size_scale degenerate_settings 1 = Some scale))
  /\ (exists size,
        TumorNetwork.node_size TumorNetwork.default_settings (8 # 10) = Some size
        /\ size == 72 # 10
        /\ lerp (node_size_range TumorNetwork.default_settings)
                (clamp01 (interpolant (1 # 2) (8 # 10) (8 # 10))) == 10
        /\ ~ size == lerp (node_size_range TumorNetwork.default_settings)
                          (clamp01 (interpolant (1 # 2) (8 # 10) (8 # 10)))).
Proof.
  split.
  - split; [simpl; lra|]. split.
    + intros [size [H _]]. discriminate H.
    + intros [scale H]. discriminate H.
  - eexists. split; [reflexivity|]. split; [reflexivity|]. split; [reflexivity|].
    unfold Qeq. simpl. lia.
Qed.

(** C2, amended.  For a score between [min_correlation] and the upper end 1 of the
    score range, both visualizers compute the node size
    [size_min + t * (size_max - size_min)] with
    [t = (score - min_correlation) / (1 - min_correlation)], which is its own
    clamping to [0 .. 1], and the size lies between [size_min] and
    [size_max], provided that [min_correlation < 1] and
    [size_min <= size_max]. *)
Theorem node_size_within_range (s : Settings) (score : Q) :
  min_correlation s < 1 ->
  fst (node_size_range s) <= snd (node_size_range s) ->
  min_correlation s <= score <= 1 ->
  let t := interpolant (min_correlation s) 1 score in
  (exists size,
      TumorNetwork.node_size s score = Some size
      /\ size == lerp (node_size_range s) (clamp01 t)
      /\ fst (node_size_range s) <= size <= snd (node_size_range s))
  /\ (exists scale,
         BadSurvivalTree.size_scale s score = Some scale
         /\ scale == clamp01 t
         /\ BadSurvivalTree.node_size s scale == lerp (node_size_range s) (clamp01 t)
         /\ fst (node_size_range s) <= BadSurvivalTree.node_size s scale
            <= snd (node_size_range s)).
Proof. exact (@node_size_interpolation s score). Qed.

Lemma node_size_within_range_witness :
  exists size,
    TumorNetwork.node_size TumorNetwork.default_settings (3 # 4) = Some size
    /\ 3 <= size <= 10.
Proof.
  destruct (@node_size_within_range TumorNetwork.default_settings (3 # 4))
    as [[size [Hs [_ Hb]]] _].
  - reflexivity.
  - simpl. lra.
  - simpl. lra.
  - exists size. split; [exact Hs | exact Hb].
Defined.

(** With the values of [__init__]: sizes 3 .. 10 in the network, 8 .. 16 in
    the survival tree. *)
Lemma default_node_sizes score :
  1 # 2 <= score <= 1 ->
  (exists size, TumorNetwork.node_size TumorNetwork.default_settings score = Some size
                /\ 3 <= size <= 10)
  /\ (exists scale,
         BadSurvivalTree.size_scale BadSurvivalTree.default_settings score = Some scale
         /\ 8 <= BadSurvivalTree.node_size BadSurvivalTree.default_settings scale <= 16).
Proof.
  intros H. split.
  - destruct (@node_size_interpolation TumorNetwork.default_settings score)
      as [[size [Hs [_ Hb]]] _]; simpl; try lra. eauto.
  - destruct (@node_size_interpolation BadSurvivalTree.default_settings score)
      as [_ [scale [Hs [_ [_ Hb]]]]]; simpl; try lra.
    exists scale. split; [exact Hs | exact Hb].
Qed.

(** In the survival tree the edge width and the node size are the same
    interpolation, at the same [size_scale]. *)
Lemma bst_width_and_size_share_interpolant (s : Settings) (score : Q) :
  ~ 1 - min_correlation s == 0 ->
  exists t, BadSurvivalTree.size_scale s score = Some t
    /\ t = interpolant (min_correlation s) 1 score
    /\ BadSurvivalTree.node_size s t = lerp (node_size_range s) t
    /\ BadSurvivalTree.edge_width s t = lerp (edge_width_range s) t.
Proof.
  intros Hd. exists (interpolant (min_correlation s) 1 score).
  split; [now apply bst_size_scale_interpolant|]. repeat split.
Qed.

(** In the network the edge width interpolates at [score - min_correlation],
    the size interpolant multiplied by [1 - min_correlation]. *)
Lemma tn_edge_width_interpolant (s : Settings) (score : Q) :
  ~ 1 - min_correlation s == 0 ->
  TumorNetwork.edge_width s score ==
  lerp (edge_width_range s)
       ((1 - min_correlation s) * interpolant (min_correlation s) 1 score).
Proof.
  intros Hd. unfold TumorNetwork.edge_width, lerp, interpolant.
  destruct (edge_width_range s) as [width_min width_max]. simpl.
  field. exact Hd.
Qed.

(** C3.  [create_network] at a score of 1 with the values of [__init__]:
    the node size is the interpolation at [t = 1], the largest size 10, but
    the edge width is 0.9 and not the interpolation 1.5 at that [t]. *)
Theorem tn_edge_width_not_normalised :
  let s := TumorNetwork.default_settings in
  let t := interpolant (min_correlation s) 1 1 in
  t == 1
  /\ (exists size, TumorNetwork.node_size s 1 = Some size
                   /\ size == lerp (node_size_range s) t /\ size == 10)
  /\ lerp (edge_width_range s) t == 3 # 2
  /\ TumorNetwork.edge_width s 1 == 9 # 10
  /\ ~ TumorNetwork.edge_width s 1 == lerp (edge_width_range s) t.
Proof.
  cbv zeta. split; [reflexivity|]. split.
  - eexists. split; [reflexivity|]. split; reflexivity.
  - split; [reflexivity|]. split; [reflexivity|]. discriminate.
Qed.

(** C6, as stated, fails: with [min_correlation = 1] the size of a score of
    1 is a division by zero in both visualizers, not the largest size. *)
Lemma degenerate_range_divides_by_zero :
  min_correlation degenerate_settings == 1
  /\ TumorNetwork.node_size degenerate_settings 1 = None
  /\ BadSurvivalTree.size_scale degenerate_settings 1 = None
  /\ ~ (exists size, TumorNetwork.node_size degenerate_settings 1 = Some size
                     /\ size == snd (node_size_range degenerate_settings)).
Proof.
  split; [reflexivity|]. split; [reflexivity|]. split; [reflexivity|].
  intros [size [H _]]. discriminate H.
Qed.

(** C6, amended.  The score range is [min_correlation .. 1].  When it is
    degenerate ([min_correlation = 1]) every size computation divides by
    zero and yields no size.  Otherwise a score of 1 has [t = 1] and the
    largest size, and a score equal to [min_correlation] has [t = 0] and the
    smallest size. *)
Theorem degenerate_range_policy (s : Settings) (score : Q) :
  (min_correlation s == 1 ->
     TumorNetwork.node_size s score = None
     /\ BadSurvivalTree.size_scale s score = None)
  /\ (~ min_correlation s == 1 ->
        (exists size, TumorNetwork.node_size s 1 = Some size
                      /\ size == snd (node_size_range s))
        /\ (exists size, TumorNetwork.node_size s (min_correlation s) = Some size
                         /\ size == fst (node_size_range s))
        /\ (exists t, BadSurvivalTree.size_scale s 1 = Some t /\ t == 1
                      /\ BadSurvivalTree.node_size s t == snd (node_size_range s))
        /\ (exists t, BadSurvivalTree.size_scale s (min_correlation s) = Some t
                      /\ t == 0
                      /\ BadSurvivalTree.node_size s t == fst (node_size_range s))).
Proof.
  split.
  - intros H. assert (1 - min_correlation s == 0) as Hz by lra.
    unfold TumorNetwork.node_size, BadSurvivalTree.size_scale.
    destruct (node_size_range s). now rewrite !py_div_zero.
  - intros H. assert (~ 1 - min_correlation s == 0) as Hd by lra.
    repeat split.
    + destruct (tn_node_size_lerp s 1 Hd) as [size [Hs Hl]].
      exists size. split; [exact Hs|]. rewrite Hl. unfold lerp, interpolant.
      field. exact Hd.
    + destruct (tn_node_size_lerp s (min_correlation s) Hd) as [size [Hs Hl]].
      exists size. split; [exact Hs|]. rewrite Hl. unfold lerp, interpolant.
      field. exact Hd.
    + eexists. split; [now apply bst_size_scale_interpolant|].
      unfold BadSurvivalTree.node_size, interpolant. split; field; exact Hd.
    + eexists. split; [now apply bst_size_scale_interpolant|].
      unfold BadSurvivalTree.node_size, interpolant. split; field; exact Hd.
Qed.

Lemma degenerate_range_policy_witness :
  (TumorNetwork.node_size degenerate_settings 1 = None
   /\ BadSurvivalTree.size_scale degenerate_settings 1 = None)
  /\ (exists size,
         TumorNetwork.node_size TumorNetwork.default_settings (1 # 2) = Some size
         /\ size == 3).
Proof.
  split.
  - apply (proj1 (degenerate_range_policy degenerate_settings 1)). reflexivity.
  - apply (proj2 (degenerate_range_policy TumorNetwork.default_settings 1)).
    discriminate.
Defined.

(** The running example: g1 is in A and B, a cross-tumor gene, g2 and g3 are
    tumor-specific; the colour buckets of 0.9, 0.6 and 0.55. *)
Example documentation_example :
  TumorNetwork.collect_all_genes example_data
  = [ ("g1", [("A", 9 # 10); ("B", 7 # 10)]); ("g2", [("A", 6 # 10)]);
      ("g3", [("B", 55 # 100)]) ]
  /\ TumorNetwork.is_cross_tumor (TumorNetwork.collect_all_genes example_data) "g1" = true
  /\ TumorNetwork.main_tumor [("A", 9 # 10); ("B", 7 # 10)] = Some "A"
  /\ TumorNetwork.is_tumor_specific (TumorNetwork.collect_all_genes example_data) "g2" = true
  /\ TumorNetwork.is_tumor_specific (TumorNetwork.collect_all_genes example_data) "g3" = true
  /\ BadSurvivalTree.risk_level (9 # 10) = BadSurvivalTree.HighRisk
  /\ BadSurvivalTree.risk_level (6 # 10) = BadSurvivalTree.LowRisk
  /\ BadSurvivalTree.risk_level (55 # 100) = BadSurvivalTree.LowRisk.
Proof. repeat split. Qed.

(** ** Recurring rows and the representative tumor *)

Lemma last_pcc_spec g df p :
  last_pcc g df = Some p <->
  exists l1 r l2, df = l1 ++ r :: l2 /\ gene_symbol r = g /\ PCC r = p
                  /\ has_gene g l2 = false.
Proof.
  revert p. induction df as [|r df IH]; intros p; simpl.
  - split; [discriminate|]. intros [l1 [r [l2 [E _]]]]. now destruct l1.
  - destruct (last_pcc g df) as [q|] eqn:E.
    + split.
      * intros [= <-]. destruct (proj1 (IH q) eq_refl) as [l1 [r' [l2 [-> H]]]].
        exists (r :: l1), r', l2. auto.
      * intros [l1 [r' [l2 [Hdf [Hg [Hp Hl2]]]]]].
        destruct l1 as [|x l1]; simpl in Hdf; injection Hdf as -> ->.
        -- apply last_pcc_has_gene in Hl2. congruence.
        -- apply (proj2 (IH p)). exists l1, r', l2. auto.
    + apply last_pcc_has_gene in E. destruct (String.eqb_spec (gene_symbol r) g) as [Hg|Hg].
      * split.
        -- intros [= <-]. exists [], r, df. auto.
        -- intros [l1 [r' [l2 [Hdf [Hg' [Hp Hl2]]]]]].
           destruct l1 as [|x l1]; simpl in Hdf; injection Hdf as -> ->.
           ++ congruence.
           ++ unfold has_gene in E. rewrite existsb_app in E. simpl in E.
              rewrite Hg', String.eqb_refl in E. simpl in E.
              rewrite orb_true_r in E. discriminate.
      * split; [discriminate|].
        intros [l1 [r' [l2 [Hdf [Hg' [Hp Hl2]]]]]].
        destruct l1 as [|x l1]; simpl in Hdf; injection Hdf as -> ->.
        -- contradiction.
        -- unfold has_gene in E. rewrite existsb_app in E. simpl in E.
           rewrite Hg', String.eqb_refl in E. simpl in E.
           rewrite orb_true_r in E. discriminate.
Qed.

Lemma memberships_get g t d :
  dict_wf d ->
  dict_get t (memberships g d) =
  match dict_get t d with Some df => last_pcc g df | None => None end.
Proof.
  unfold dict_wf. induction d as [|[t0 df0] d IH]; intros Hwf; simpl; auto.
  inversion Hwf as [|? ? Hni Hwf']; subst.
  change (flat_map _ d) with (memberships g d).
  destruct (String.eqb_spec t t0) as [->|Hne].
  - destruct (last_pcc g df0) as [p|]; simpl.
    + now rewrite String.eqb_refl.
    + apply dict_get_None. rewrite memberships_keys. intros Hin.
      apply Hni. unfold tumors_with in Hin. apply in_map_iff in Hin.
      destruct Hin as [x [E Hin]]. apply filter_In in Hin.
      apply in_map_iff. exists x. tauto.
  - destruct (last_pcc g df0) as [p|]; simpl.
    + destruct (String.eqb_spec t t0); [contradiction|auto].
    + auto.
Qed.

(** C4, as stated, fails: when gene g1 recurs in table A with scores 0.9 and
    then 0.6, the stored score is 0.6 and not the maximum 0.9. *)
Lemma keep_higher_score_counterexample :
  stored_pcc (TumorNetwork.collect_all_genes [("A", table_recurring)]) "g1" "A"
  = Some (6 # 10)
  /\ max_pcc "g1" table_recurring = Some (9 # 10)
  /\ ~ 6 # 10 == 9 # 10.
Proof.
  split; [reflexivity|]. split; [reflexivity|]. discriminate.
Qed.

(** C4, amended.  When the same (gene, tumor type) pair recurs in a tumor's
    table, the aggregation keeps the score of the last of the recurring
    rows: [all_genes[g][t]] is the PCC of the last row of gene [g] in the
    table of [t] (and the key is missing when there is no such row). *)
Theorem tn_last_row_wins (tumor_data : PyDict DataFrame) (g t : string)
  (df : DataFrame) :
  dict_wf tumor_data ->
  dict_get t tumor_data = Some df ->
  stored_pcc (TumorNetwork.collect_all_genes tumor_data) g t = last_pcc g df.
Proof.
  intros Hwf Ht. unfold stored_pcc.
  rewrite collect_all_genes_get by assumption.
  destruct (existsb _ tumor_data) eqn:E.
  - rewrite memberships_get by assumption. now rewrite Ht.
  - symmetry. apply last_pcc_has_gene.
    destruct (has_gene g df) eqn:H; auto.
    assert (existsb (fun item : string * DataFrame => has_gene g (snd item))
                    tumor_data = true) as C.
    { apply existsb_exists. exists (t, df). split; auto.
      now apply dict_get_In. }
    congruence.
Qed.

Lemma tn_last_row_wins_witness :
  stored_pcc (TumorNetwork.collect_all_genes [("A", table_recurring)]) "g1" "A"
  = last_pcc "g1" table_recurring.
Proof.
  apply tn_last_row_wins.
  - repeat constructor. simpl. tauto.
  - reflexivity.
Defined.

Lemma Qlt_bool_true a b : Qlt_bool a b = true <-> a < b.
Proof.
  unfold Qlt_bool. rewrite negb_true_iff. split.
  - intros H. apply Qnot_le_lt. intros C. apply Qle_bool_iff in C. congruence.
  - intros H. destruct (Qle_bool b a) eqn:E; auto.
    apply Qle_bool_iff in E. exfalso. apply (Qlt_not_le _ _ H E).
Qed.

Lemma Qlt_bool_false a b : Qlt_bool a b = false <-> b <= a.
Proof.
  unfold Qlt_bool. rewrite negb_false_iff. apply Qle_bool_iff.
Qed.

(** [max] returns the first of the items with the largest key. *)
Lemma max_from_spec {A : Type} (key : A -> Q) (l : list A) :
  forall pre best post,
    (forall x, In x pre -> key x < key best) ->
    (forall x, In x post -> key x <= key best) ->
    exists l1 l2,
      pre ++ best :: post ++ l = l1 ++ max_from key best l :: l2
      /\ (forall x, In x l1 -> key x < key (max_from key best l))
      /\ (forall x, In x l2 -> key x <= key (max_from key best l)).
Proof.
  induction l as [|x l IH]; intros pre best post Hpre Hpost; simpl.
  - exists pre, post. rewrite app_nil_r. auto.
  - destruct (Qlt_bool (key best) (key x)) eqn:E.
    + apply Qlt_bool_true in E.
      destruct (IH (pre ++ best :: post) x []) as [l1 [l2 [Heq H]]].
      * intros y Hy. apply in_app_iff in Hy. destruct Hy as [Hy|[<-|Hy]]; auto.
        -- eapply Qlt_trans; eauto.
        -- eapply Qle_lt_trans; eauto.
      * intros y [].
      * exists l1, l2. split; auto. rewrite <- Heq. simpl.
        now rewrite <- app_assoc.
    + apply Qlt_bool_false in E.
      destruct (IH pre best (post ++ [x])) as [l1 [l2 [Heq H]]]; auto.
      * intros y Hy. apply in_app_iff in Hy. destruct Hy as [Hy|[<-|[]]]; auto.
      * exists l1, l2. split; auto. rewrite <- Heq. now rewrite <- app_assoc.
Qed.

Lemma py_max_spec {A : Type} (key : A -> Q) (l : list A) :
  l <> [] ->
  exists best l1 l2,
    py_max key l = Some best /\ l = l1 ++ best :: l2
    /\ (forall x, In x l1 -> key x < key best)
    /\ (forall x, In x l2 -> key x <= key best).
Proof.
  destruct l as [|x l]; [congruence|]. intros _.
  destruct (max_from_spec key l [] x []) as [l1 [l2 [Heq [H1 H2]]]];
    try (intros y []).
  exists (max_from key x l), l1, l2. simpl in *. auto.
Qed.

Lemma cross_tumor_genes_In d g tumor_pccs :
  dict_wf d ->
  In (g, tumor_pccs) (TumorNetwork.cross_tumor_genes (TumorNetwork.collect_all_genes d)) ->
  tumor_pccs = memberships g d /\ (1 < dict_len tumor_pccs)%nat.
Proof.
  intros Hwf Hin. unfold TumorNetwork.cross_tumor_genes, dict_items in Hin.
  apply filter_In in Hin. destruct Hin as [Hin Hlen]. simpl in Hlen.
  apply Nat.ltb_lt in Hlen. split; auto.
  apply In_dict_get in Hin; [|apply collect_all_genes_wf].
  rewrite collect_all_genes_get in Hin by assumption.
  destruct (existsb _ d); congruence.
Qed.

Lemma memberships_wf g d : dict_wf d -> dict_wf (memberships g d).
Proof.
  intros Hwf. unfold dict_wf. rewrite memberships_keys.
  now apply tumors_with_NoDup.
Qed.

Lemma cross_gene_main_tumor (tumor_data : PyDict DataFrame) (g : string)
  (tumor_pccs : PyDict Q) :
  dict_wf tumor_data ->
  In (g, tumor_pccs)
     (TumorNetwork.cross_tumor_genes (TumorNetwork.collect_all_genes tumor_data)) ->
  tumor_pccs = memberships g tumor_data
  /\ exists main main_pcc before after,
       TumorNetwork.main_tumor tumor_pccs = Some main
       /\ dict_get main tumor_pccs = Some main_pcc
       /\ dict_items tumor_pccs = before ++ (main, main_pcc) :: after
       /\ (forall t p, In (t, p) before -> p < main_pcc)
       /\ (forall t p, In (t, p) after -> p <= main_pcc).
Proof.
  intros Hwf Hin. destruct (@cross_tumor_genes_In _ _ _ Hwf Hin) as [Hm Hlen].
  split; auto.
  assert (dict_items tumor_pccs <> []) as Hne.
  { unfold dict_items. destruct tumor_pccs; simpl in Hlen; [lia|congruence]. }
  destruct (py_max_spec snd Hne) as [[main main_pcc] [l1 [l2 [Hmax [Heq [H1 H2]]]]]].
  exists main, main_pcc, l1, l2. unfold TumorNetwork.main_tumor.
  rewrite Hmax. simpl. repeat split; auto.
  - apply In_dict_get.
    + subst tumor_pccs. now apply memberships_wf.
    + unfold dict_items in Heq. rewrite Heq. apply in_elt.
  - intros t p Hp. apply (H1 (t, p) Hp).
  - intros t p Hp. apply (H2 (t, p) Hp).
Qed.

(** C5.  For a cross-tumor gene, [tumor_pccs] lists its tumors in the order
    of the tables (first seen first); the main tumor is the first entry with
    the largest PCC: no entry has a larger PCC, every entry before it has a
    strictly smaller one, and [main_pcc] is its PCC. *)
Theorem tn_main_tumor_first_argmax (tumor_data : PyDict DataFrame) (g : string)
  (tumor_pccs : PyDict Q) :
  dict_wf tumor_data ->
  In (g, tumor_pccs)
     (TumorNetwork.cross_tumor_genes (TumorNetwork.collect_all_genes tumor_data)) ->
  tumor_pccs = memberships g tumor_data
  /\ exists main main_pcc before after,
       TumorNetwork.main_tumor tumor_pccs = Some main
       /\ dict_get main tumor_pccs = Some main_pcc
       /\ dict_items tumor_pccs = before ++ (main, main_pcc) :: after
       /\ (forall t p, In (t, p) before -> p < main_pcc)
       /\ (forall t p, In (t, p) after -> p <= main_pcc).
Proof. exact (@cross_gene_main_tumor tumor_data g tumor_pccs). Qed.

Lemma tn_main_tumor_first_argmax_witness :
  exists main main_pcc before after,
    TumorNetwork.main_tumor [("A", 9 # 10); ("B", 7 # 10)] = Some main
    /\ dict_get main [("A", 9 # 10); ("B", 7 # 10)] = Some main_pcc
    /\ [("A", 9 # 10); ("B", 7 # 10)] = before ++ (main, main_pcc) :: after
    /\ (forall t p, In (t, p) before -> p < main_pcc)
    /\ (forall t p, In (t, p) after -> p <= main_pcc).
Proof.
  apply (@tn_main_tumor_first_argmax example_data "g1" [("A", 9 # 10); ("B", 7 # 10)]).
  - repeat constructor; simpl; intuition discriminate.
  - simpl. left. reflexivity.
Defined.

(** ** Loader *)

Section LoaderFacts.
Variable read_csv : string -> CsvFile.
Variable s : Settings.

Lemma load_one_get st x t :
  dict_get t (all_data (load_one read_csv s st x)) =
  match read_csv x with
  | Readable df =>
      if String.eqb x t then Some (filter_pcc_ge (min_correlation s) df)
      else dict_get t (all_data st)
  | _ => dict_get t (all_data st)
  end.
Proof.
  unfold load_one. destruct (read_csv x) as [| |df]; simpl; auto.
  destruct (String.eqb_spec x t) as [->|Hne].
  - apply dict_get_set_same.
  - now apply dict_get_set_other.
Qed.

Lemma load_fold_get l t : forall st,
  dict_get t (all_data (fold_left (load_one read_csv s) l st)) =
  match read_csv t with
  | Readable df =>
      if existsb (String.eqb t) l
      then Some (filter_pcc_ge (min_correlation s) df)
      else dict_get t (all_data st)
  | _ => dict_get t (all_data st)
  end.
Proof.
  induction l as [|x l IH]; intros st; simpl.
  - now destruct (read_csv t).
  - rewrite IH, load_one_get.
    destruct (String.eqb_spec t x) as [<-|Hne]; simpl.
    + rewrite String.eqb_refl. destruct (read_csv t); auto.
      now destruct (existsb (String.eqb t) l).
    + assert (String.eqb x t = false) as E by (apply String.eqb_neq; congruence).
      rewrite E. destruct (read_csv t); destruct (read_csv x); auto.
Qed.

Lemma load_one_log st x e :
  In e (load_log st) -> In e (load_log (load_one read_csv s st x)).
Proof.
  intros H. unfold load_one.
  destruct (read_csv x); simpl; apply in_or_app; auto.
Qed.

Lemma load_fold_log l e : forall st,
  In e (load_log st) -> In e (load_log (fold_left (load_one read_csv s) l st)).
Proof.
  induction l as [|x l IH]; intros st H; simpl; auto using load_one_log.
Qed.

Lemma load_fold_error l t : forall st,
  In t l ->
  (forall df, read_csv t <> Readable df) ->
  In (LogErrorLoading t) (load_log (fold_left (load_one read_csv s) l st)).
Proof.
  induction l as [|x l IH]; intros st Hin Hbad; simpl; [destruct Hin|].
  destruct Hin as [->|Hin]; auto.
  apply load_fold_log. unfold load_one.
  destruct (read_csv t) as [| |df] eqn:E; simpl.
  - apply in_or_app. right. now left.
  - apply in_or_app. right. now left.
  - exfalso. now apply (Hbad df).
Qed.

Lemma load_fold_wf l : forall st,
  dict_wf (all_data st) ->
  dict_wf (all_data (fold_left (load_one read_csv s) l st)).
Proof.
  induction l as [|x l IH]; intros st H; simpl; auto.
  apply IH. unfold load_one. destruct (read_csv x); simpl; auto using dict_wf_set.
Qed.

Lemma load_all_data_wf l counts :
  dict_wf (all_data (load_all_data read_csv s l counts)).
Proof. apply load_fold_wf. constructor. Qed.

Lemma load_all_data_get l counts t :
  dict_get t (all_data (load_all_data read_csv s l counts)) =
  match read_csv t with
  | Readable df =>
      if existsb (String.eqb t) l
      then Some (filter_pcc_ge (min_correlation s) df)
      else None
  | _ => None
  end.
Proof.
  unfold load_all_data. rewrite load_fold_get. simpl.
  now destruct (read_csv t).
Qed.

Lemma existsb_eqb_In t l : existsb (String.eqb t) l = true <-> In t l.
Proof.
  rewrite existsb_exists. split.
  - intros [x [Hin E]]. apply String.eqb_eq in E. now subst.
  - intros H. exists t. split; auto. apply String.eqb_refl.
Qed.

(** The tables of the result belong to discovered tumor types, and all
    their rows pass the threshold. *)
Lemma load_all_data_tables l counts t df :
  In (t, df) (all_data (load_all_data read_csv s l counts)) ->
  In t l /\ Forall (fun row => min_correlation s <= PCC row) df.
Proof.
  intros Hin. apply In_dict_get in Hin; [|apply load_all_data_wf].
  rewrite load_all_data_get in Hin.
  destruct (read_csv t) as [| |df0]; try discriminate.
  destruct (existsb (String.eqb t) l) eqn:E; try discriminate.
  injection Hin as <-. split.
  - now apply existsb_eqb_In.
  - apply Forall_forall. intros r Hr. unfold filter_pcc_ge in Hr.
    apply filter_In in Hr. now apply Qle_bool_iff.
Qed.

(** C7.  [load_all_data] always returns, and for each discovered tumor
    type: when its file cannot be read or has no PCC column, the error is
    logged and the tumor type is missing from the result; otherwise the
    result holds its table filtered by the threshold, whatever happened to
    the other tumor types. *)
Theorem load_all_data_partial_failure (tumor_types : list string)
  (counts : PyDict nat) (t : string) :
  In t tumor_types ->
  let loaded := load_all_data read_csv s tumor_types counts in
  match read_csv t with
  | Readable df =>
      dict_get t (all_data loaded) = Some (filter_pcc_ge (min_correlation s) df)
  | _ =>
      dict_get t (all_data loaded) = None
      /\ In (LogErrorLoading t) (load_log loaded)
  end.
Proof.
  intros Hin loaded. subst loaded. rewrite load_all_data_get.
  apply existsb_eqb_In in Hin as Hex. rewrite Hex.
  destruct (read_csv t) as [| |df] eqn:E; auto.
  - split; auto. apply load_fold_error; auto. intros df. congruence.
  - split; auto. apply load_fold_error; auto. intros df. congruence.
Qed.

End LoaderFacts.

Lemma load_all_data_partial_failure_witness :
  let loaded := load_all_data example_files TumorNetwork.default_settings ["B"; "A"] [] in
  (dict_get "B" (all_data loaded) = None
   /\ In (LogErrorLoading "B") (load_log loaded))
  /\ dict_get "A" (all_data loaded) = Some (filter_pcc_ge (1 # 2) table_A).
Proof.
  split.
  - apply (@load_all_data_partial_failure example_files TumorNetwork.default_settings
             ["B"; "A"] [] "B").
    simpl. auto.
  - apply (@load_all_data_partial_failure example_files TumorNetwork.default_settings
             ["B"; "A"] [] "A").
    simpl. auto.
Defined.

Lemma load_all_data_all_above read_csv s l counts :
  all_above (min_correlation s) (all_data (load_all_data read_csv s l counts)).
Proof.
  intros t df row Hin Hrow.
  destruct (@load_all_data_tables read_csv s l counts t df Hin) as [_ Hall].
  rewrite Forall_forall in Hall. auto.
Qed.

(** ** Loops that may raise *)

Lemma foldM_ext {S A : Type} (f g : S -> A -> option S) (l : list A) :
  (forall x st, In x l -> f st x = g st x) ->
  forall st, foldM f l st = foldM g l st.
Proof.
  induction l as [|x l IH]; intros H st; simpl; auto.
  rewrite (H x st) by now left.
  destruct (g st x); auto. apply IH. intros y st' Hy. apply H. now right.
Qed.

Lemma foldM_invariant {S A : Type} (P : S -> Prop) (f : S -> A -> option S)
  (l : list A) :
  (forall x st st', In x l -> P st -> f st x = Some st' -> P st') ->
  forall st st', P st -> foldM f l st = Some st' -> P st'.
Proof.
  induction l as [|x l IH]; intros H st st' HP Hf; simpl in Hf.
  - now injection Hf as <-.
  - destruct (f st x) as [st1|] eqn:E; [|discriminate].
    apply (IH (fun y a b Hy => H y a b (or_intror Hy)) st1 st'); auto.
    apply (H x st st1); auto. now left.
Qed.

Lemma foldM_total {S A : Type} (P : S -> Prop) (f : S -> A -> option S)
  (l : list A) :
  (forall x st, In x l -> P st -> exists st', f st x = Some st' /\ P st') ->
  forall st, P st -> exists st', foldM f l st = Some st' /\ P st'.
Proof.
  induction l as [|x l IH]; intros H st HP; simpl.
  - eauto.
  - destruct (H x st (or_introl eq_refl) HP) as [st1 [E HP1]]. rewrite E.
    apply IH; auto. intros y a Hy. apply H. now right.
Qed.

(** ** The threshold checks of the cross-tumor genes *)

Lemma memberships_In g d t p :
  In (t, p) (memberships g d) ->
  exists df row, In (t, df) d /\ In row df /\ gene_symbol row = g /\ PCC row = p.
Proof.
  unfold memberships. rewrite in_flat_map. intros [[t' df] [Hin Hp]]. simpl in Hp.
  destruct (last_pcc g df) as [q|] eqn:E; [|destruct Hp].
  destruct Hp as [Hp|[]]. injection Hp as -> ->.
  apply last_pcc_spec in E. destruct E as [l1 [r [l2 [-> [Hg [Hq _]]]]]].
  exists (l1 ++ r :: l2), r. repeat split; auto. apply in_elt.
Qed.

Lemma cross_scores_above s d g tumor_pccs t p :
  dict_wf d -> all_above (min_correlation s) d ->
  In (g, tumor_pccs) (TumorNetwork.cross_tumor_genes (TumorNetwork.collect_all_genes d)) ->
  In (t, p) tumor_pccs ->
  Qle_bool (min_correlation s) p = true.
Proof.
  intros Hwf Habove Hin Hp.
  destruct (@cross_tumor_genes_In _ _ _ Hwf Hin) as [-> _].
  destruct (@memberships_In g d t p Hp) as [df [row [Hd [Hr [_ <-]]]]].
  apply Qle_bool_iff. eapply Habove; eauto.
Qed.

Lemma add_cross_gene_unchecked_eq s d item st :
  dict_wf d -> all_above (min_correlation s) d ->
  In item (TumorNetwork.cross_tumor_genes (TumorNetwork.collect_all_genes d)) ->
  TumorNetwork.add_cross_gene s st item = add_cross_gene_unchecked s st item.
Proof.
  intros Hwf Habove Hin. destruct item as [g tumor_pccs].
  unfold TumorNetwork.add_cross_gene, add_cross_gene_unchecked.
  destruct (TumorNetwork.main_tumor tumor_pccs) as [main|]; auto.
  destruct (dict_get main tumor_pccs) as [main_pcc|] eqn:Em; auto.
  apply dict_get_In in Em.
  pose proof (@cross_scores_above s d g tumor_pccs main main_pcc Hwf Habove Hin Em) as Hge.
  unfold Qlt_bool. rewrite Hge. simpl.
  destruct (dict_get main (TumorNetwork.tumor_positions st)); auto.
  destruct (TumorNetwork.node_size s main_pcc); auto.
  apply foldM_ext. intros [t p] st' Hp. simpl.
  unfold dict_items in Hp.
  now rewrite (@cross_scores_above s d g tumor_pccs t p Hwf Habove Hin Hp).
Qed.

(** C10.  On the tables returned by [load_all_data], for every cross-tumor
    gene: the main tumor and its PCC exist, the check
    [main_pcc < min_correlation] is false, the check
    [pcc >= min_correlation] is true for every tumor of the gene, and the
    loop over the cross-tumor genes does what it would do without the two
    checks. *)
Theorem tn_threshold_checks_never_drop (read_csv : string -> CsvFile)
  (s : Settings) (tumor_types : list string) (counts : PyDict nat)
  (g : string) (tumor_pccs : PyDict Q) :
  let tumor_data := all_data (load_all_data read_csv s tumor_types counts) in
  let cross :=
    TumorNetwork.cross_tumor_genes (TumorNetwork.collect_all_genes tumor_data) in
  In (g, tumor_pccs) cross ->
  (exists main main_pcc,
      TumorNetwork.main_tumor tumor_pccs = Some main
      /\ dict_get main tumor_pccs = Some main_pcc
      /\ Qlt_bool main_pcc (min_correlation s) = false)
  /\ (forall t pcc, In (t, pcc) (dict_items tumor_pccs) ->
        Qle_bool (min_correlation s) pcc = true)
  /\ (forall st,
        foldM (TumorNetwork.add_cross_gene s) (dict_items cross) st =
        foldM (add_cross_gene_unchecked s) (dict_items cross) st).
Proof.
  intros tumor_data cross Hin.
  assert (dict_wf tumor_data) as Hwf by apply load_all_data_wf.
  assert (all_above (min_correlation s) tumor_data) as Habove
      by apply load_all_data_all_above.
  destruct (@cross_gene_main_tumor tumor_data g tumor_pccs Hwf Hin)
    as [_ [main [main_pcc [before [after [Hmain [Hget _]]]]]]].
  split; [|split].
  - exists main, main_pcc. repeat split; auto.
    unfold Qlt_bool.
    rewrite (@cross_scores_above s tumor_data g tumor_pccs main main_pcc Hwf Habove Hin
               (dict_get_In _ _ Hget)).
    reflexivity.
  - intros t pcc Hp.
    exact (@cross_scores_above s tumor_data g tumor_pccs t pcc Hwf Habove Hin Hp).
  - intros st. apply foldM_ext. intros item st' Hitem.
    now apply add_cross_gene_unchecked_eq with (d := tumor_data).
Qed.

Lemma tn_threshold_checks_never_drop_witness :
  let s := TumorNetwork.default_settings in
  let tumor_pccs := [("A", 9 # 10); ("B", 7 # 10)] in
  (exists main main_pcc,
      TumorNetwork.main_tumor tumor_pccs = Some main
      /\ dict_get main tumor_pccs = Some main_pcc
      /\ Qlt_bool main_pcc (min_correlation s) = false)
  /\ (forall t pcc, In (t, pcc) (dict_items tumor_pccs) ->
        Qle_bool (min_correlation s) pcc = true).
Proof.
  destruct (@tn_threshold_checks_never_drop example_directory
              TumorNetwork.default_settings ["A"; "B"] [] "g1"
              [("A", 9 # 10); ("B", 7 # 10)]) as [H1 [H2 _]].
  - simpl. left. reflexivity.
  - split; [exact H1 | exact H2].
Defined.

(** ** [sort_values] and [nlargest] *)

Lemma insert_desc_perm r l : Permutation (insert_desc r l) (r :: l).
Proof.
  induction l as [|x l IH]; simpl; auto.
  destruct (Qlt_bool (PCC r) (PCC x)); auto.
  rewrite IH. apply perm_swap.
Qed.

Lemma sort_values_desc_perm df : Permutation (sort_values_desc df) df.
Proof.
  induction df as [|r df IH]; simpl; auto.
  rewrite insert_desc_perm. now constructor.
Qed.

Lemma insert_desc_sorted r l :
  StronglySorted pcc_desc l -> StronglySorted pcc_desc (insert_desc r l).
Proof.
  induction 1 as [|x l Hs IH Hx]; simpl.
  - repeat constructor.
  - destruct (Qlt_bool (PCC r) (PCC x)) eqn:E.
    + constructor; auto. apply Qlt_bool_true in E.
      apply Forall_forall. intros y Hy.
      apply (Permutation_in _ (insert_desc_perm r l)) in Hy.
      destruct Hy as [<-|Hy].
      * now apply Qlt_le_weak.
      * rewrite Forall_forall in Hx. auto.
    + apply Qlt_bool_false in E.
      constructor; [now constructor|]. constructor; auto.
      apply Forall_forall. intros y Hy. rewrite Forall_forall in Hx.
      unfold pcc_desc in *. eapply Qle_trans; eauto.
Qed.

Lemma sort_values_desc_sorted df : StronglySorted pcc_desc (sort_values_desc df).
Proof.
  induction df as [|r df IH]; simpl; [constructor|].
  now apply insert_desc_sorted.
Qed.

Lemma sort_values_desc_In r df : In r (sort_values_desc df) <-> In r df.
Proof.
  split; apply Permutation_in;
    [apply sort_values_desc_perm | symmetry; apply sort_values_desc_perm].
Qed.

Lemma nlargest_In n r df : In r (nlargest n df) -> In r df.
Proof.
  unfold nlargest. intros H. apply sort_values_desc_In.
  rewrite <- (firstn_skipn n (sort_values_desc df)). apply in_or_app. now left.
Qed.

Lemma nlargest_length n df : List.length (nlargest n df) = Nat.min n (List.length df).
Proof.
  unfold nlargest. rewrite length_firstn.
  now rewrite (Permutation_length (sort_values_desc_perm df)).
Qed.

Lemma StronglySorted_app_le (l1 l2 : DataFrame) :
  StronglySorted pcc_desc (l1 ++ l2) ->
  forall x y, In x l1 -> In y l2 -> PCC y <= PCC x.
Proof.
  induction l1 as [|a l1 IH]; simpl; intros Hs x y Hx Hy; [destruct Hx|].
  inversion Hs as [|? ? Hs' Ha]; subst. destruct Hx as [<-|Hx].
  - rewrite Forall_forall in Ha. apply Ha. apply in_or_app. now right.
  - now apply IH.
Qed.

(** [nlargest] keeps rows of the table, as many as the cap allows, and no
    dropped row has a larger PCC than a kept one. *)
Lemma nlargest_top n df :
  exists dropped,
    Permutation (nlargest n df ++ dropped) df
    /\ List.length (nlargest n df) = Nat.min n (List.length df)
    /\ forall kept row, In kept (nlargest n df) -> In row dropped ->
                        PCC row <= PCC kept.
Proof.
  exists (skipn n (sort_values_desc df)). split; [|split].
  - unfold nlargest. rewrite firstn_skipn. apply sort_values_desc_perm.
  - apply nlargest_length.
  - apply StronglySorted_app_le. unfold nlargest. rewrite firstn_skipn.
    apply sort_values_desc_sorted.
Qed.

Lemma nlargest_all n df :
  (List.length df <= n)%nat -> nlargest n df = sort_values_desc df.
Proof.
  intros H. unfold nlargest. apply firstn_all2.
  now rewrite (Permutation_length (sort_values_desc_perm df)).
Qed.

Lemma insert_desc_same_pcc p r l :
  filter (fun x => Qeq_bool (PCC x) p) (insert_desc r l) =
  if Qeq_bool (PCC r) p then r :: filter (fun x => Qeq_bool (PCC x) p) l
  else filter (fun x => Qeq_bool (PCC x) p) l.
Proof.
  induction l as [|x l IH]; simpl; auto.
  destruct (Qlt_bool (PCC r) (PCC x)) eqn:E; simpl.
  - rewrite IH. destruct (Qeq_bool (PCC r) p) eqn:Er; auto.
    destruct (Qeq_bool (PCC x) p) eqn:Ex; auto.
    apply Qlt_bool_true in E. apply Qeq_bool_eq in Er, Ex.
    rewrite Er, Ex in E. exfalso. apply (Qlt_irrefl p E).
  - reflexivity.
Qed.

(** The sort is stable: rows of equal PCC keep their order. *)
Lemma sort_values_desc_stable p df :
  filter (fun x => Qeq_bool (PCC x) p) (sort_values_desc df) =
  filter (fun x => Qeq_bool (PCC x) p) df.
Proof.
  induction df as [|r df IH]; simpl; auto.
  rewrite insert_desc_same_pcc, IH. reflexivity.
Qed.

(** [keep='first']: of two rows with the same PCC the earlier one is kept. *)
Example nlargest_keeps_first :
  nlargest 1 [ {| gene_symbol := "a"; PCC := 9 # 10 |};
               {| gene_symbol := "b"; PCC := 9 # 10 |} ]
  = [ {| gene_symbol := "a"; PCC := 9 # 10 |} ].
Proof. reflexivity. Qed.

(** ** Aggregation in bad_survival_tree.py *)

Lemma foldM_fold_left {S A B : Type} (proj : S -> B) (step : B -> A -> B)
  (f : S -> A -> option S) (l : list A) :
  (forall x st st', f st x = Some st' -> proj st' = step (proj st) x) ->
  forall st st', foldM f l st = Some st' -> proj st' = fold_left step l (proj st).
Proof.
  intros H. induction l as [|x l IH]; intros st st' Hf; simpl in *.
  - now injection Hf as <-.
  - destruct (f st x) as [st1|] eqn:E; [|discriminate].
    rewrite (IH _ _ Hf). now rewrite (H _ _ _ E).
Qed.

Lemma fold_left_enumerate {A B : Type} (f : B -> A -> B) (l : list A) :
  forall (start : nat) (acc : B),
    fold_left (fun acc (x : nat * A) => f acc (snd x))
              (combine (seq start (List.length l)) l) acc
    = fold_left f l acc.
Proof.
  induction l as [|x l IH]; intros start acc; simpl; auto.
Qed.

Lemma track_gene_tumors_of g gene t tracked :
  tumors_of g (BadSurvivalTree.track_gene gene t tracked) =
  if String.eqb gene g then tumors_of g tracked ++ [t] else tumors_of g tracked.
Proof.
  unfold BadSurvivalTree.track_gene, tumors_of.
  destruct (String.eqb_spec gene g) as [->|Hne].
  - rewrite dict_get_modify_same. unfold dict_mem.
    destruct (dict_get g tracked) eqn:E; simpl.
    + now rewrite E.
    + now rewrite dict_get_set_same.
  - rewrite dict_get_modify_other by assumption.
    destruct (negb (dict_mem gene tracked)); auto.
    now rewrite dict_get_set_other.
Qed.

Lemma track_rows_tumors_of g t rows : forall tracked,
  tumors_of g (fold_left (fun acc row => BadSurvivalTree.track_gene (gene_symbol row) t acc)
                         rows tracked)
  = tumors_of g tracked ++ map (fun _ => t) (rows_of g rows).
Proof.
  induction rows as [|r rows IH]; intros tracked; simpl.
  - now rewrite app_nil_r.
  - rewrite IH, track_gene_tumors_of.
    destruct (String.eqb (gene_symbol r) g); simpl; auto.
    now rewrite <- app_assoc.
Qed.

(** What the loop over one tumor leaves in [gene_tumors]. *)
Lemma add_tumor_branch_tracked s st item st' :
  BadSurvivalTree.add_tumor_branch s st item = Some st' ->
  BadSurvivalTree.gene_tumors st' =
  fold_left (fun acc row =>
               BadSurvivalTree.track_gene (gene_symbol row) (fst (snd item)) acc)
            (nlargest (max_genes_per_tumor s) (snd (snd item)))
            (BadSurvivalTree.gene_tumors st).
Proof.
  destruct item as [idx [t df]]. unfold BadSurvivalTree.add_tumor_branch. simpl.
  destruct (df_empty df) eqn:E.
  - intros [= <-]. destruct df; [|discriminate].
    unfold nlargest. simpl. now rewrite firstn_nil.
  - destruct (add_edge _ _) as [net2|]; [|discriminate]. intros Hf.
    apply (foldM_fold_left BadSurvivalTree.gene_tumors
             (fun acc row => BadSurvivalTree.track_gene (gene_symbol row) t acc))
      in Hf; auto.
    clear. intros row st st'. unfold BadSurvivalTree.add_gene_node.
    destruct (BadSurvivalTree.size_scale s (PCC row)); [|discriminate].
    destruct (add_edge _ _); [|discriminate]. now intros [= <-].
Qed.

Lemma build_branches_tracked s counts d st g :
  BadSurvivalTree.build_branches s counts d = Some st ->
  tumors_of g (BadSurvivalTree.gene_tumors st) = tracked_tumors s g d.
Proof.
  unfold BadSurvivalTree.build_branches. intros Hf.
  pose (step := fun (acc : PyDict (list string)) (item : string * DataFrame) =>
                  fold_left (fun acc row =>
                     BadSurvivalTree.track_gene (gene_symbol row) (fst item) acc)
                     (nlargest (max_genes_per_tumor s) (snd item)) acc).
  apply (foldM_fold_left BadSurvivalTree.gene_tumors
           (fun acc (x : nat * (string * DataFrame)) => step acc (snd x))) in Hf.
  - rewrite Hf. unfold enumerate, dict_items. cbn [BadSurvivalTree.gene_tumors].
    rewrite (fold_left_enumerate step d 0 []). clear Hf.
    change (tracked_tumors s g d) with (tumors_of g [] ++ tracked_tumors s g d).
    generalize (@nil (string * list string)) as acc.
    induction d as [|[t df] d IH]; intros acc; simpl.
    + now rewrite app_nil_r.
    + rewrite IH. unfold step at 1. simpl.
      rewrite track_rows_tumors_of. now rewrite <- app_assoc.
  - intros x a b H. unfold step. now apply add_tumor_branch_tracked.
Qed.

(** In [create_survival_tree] the test [len(tumors) > 1] counts the rows of
    the gene among the top rows of all the tables. *)
Lemma bst_is_cross_tumor_rows s counts d st g :
  BadSurvivalTree.build_branches s counts d = Some st ->
  BadSurvivalTree.is_cross_tumor (BadSurvivalTree.gene_tumors st) g =
  (1 <? List.length (tracked_tumors s g d))%nat.
Proof.
  intros H. rewrite <- (@build_branches_tracked s counts d st g H).
  unfold BadSurvivalTree.is_cross_tumor, tumors_of.
  now destruct (dict_get g (BadSurvivalTree.gene_tumors st)).
Qed.

(** X1.  A tumor type is recorded for a gene exactly when the gene has a row
    among the top [max_genes_per_tumor] rows of that tumor's table. *)
Lemma bst_tracked_iff_in_top_rows s counts d st g t :
  BadSurvivalTree.build_branches s counts d = Some st ->
  (In t (tumors_of g (BadSurvivalTree.gene_tumors st)) <->
   exists df, In (t, df) d
              /\ has_gene g (nlargest (max_genes_per_tumor s) df) = true).
Proof.
  intros H. rewrite (@build_branches_tracked s counts d st g H). unfold tracked_tumors.
  rewrite in_flat_map. split.
  - intros [[t' df] [Hin Hm]]. simpl in Hm. apply in_map_iff in Hm.
    destruct Hm as [row [<- Hrow]]. exists df. split; auto.
    unfold rows_of in Hrow. apply filter_In in Hrow.
    apply has_gene_In. exists row. split; [tauto|].
    apply String.eqb_eq. tauto.
  - intros [df [Hin Hg]]. exists (t, df). split; auto. simpl.
    apply has_gene_In in Hg. destruct Hg as [row [Hrow Hg]].
    apply in_map_iff. exists row. split; auto.
    unfold rows_of. apply filter_In. split; auto. now apply String.eqb_eq.
Qed.

(** ** Classification and cap on concrete tables *)

Lemma recurring_gene_in_one_tumor : ~ in_several_tumors "g1" recurring_data.
Proof.
  intros [t1 [t2 [Hne [[df1 [H1 _]] [df2 [H2 _]]]]]].
  destruct H1 as [H1|[]], H2 as [H2|[]]. congruence.
Qed.

(** C1.  [create_survival_tree] on one table in which gene g1 has two rows,
    as loaded from a file with these two rows: the gene is in one tumor
    only, and [create_network] does not class it as a cross-tumor gene, but
    [gene_tumors["g1"]] is the list [A, A], the test [len(tumors) > 1]
    holds and the node of the gene is drawn as a diamond. *)
Theorem bst_recurring_gene_classed_cross_tumor :
  all_data (load_all_data (fun _ => Readable table_recurring)
                          BadSurvivalTree.default_settings ["A"] [])
  = recurring_data
  /\ ~ in_several_tumors "g1" recurring_data
  /\ TumorNetwork.is_cross_tumor (TumorNetwork.collect_all_genes recurring_data) "g1"
     = false
  /\ (exists st,
        BadSurvivalTree.build_branches BadSurvivalTree.default_settings [] recurring_data
        = Some st
        /\ BadSurvivalTree.gene_tumors st = [("g1", ["A"; "A"])]
        /\ BadSurvivalTree.is_cross_tumor (BadSurvivalTree.gene_tumors st) "g1" = true)
  /\ (exists nt counts log,
        BadSurvivalTree.create_survival_tree BadSurvivalTree.default_settings []
                                             recurring_data
        = Some (nt, counts, log)
        /\ option_map n_shape (get_node "g1_A" nt) = Some Diamond).
Proof.
  split; [reflexivity|].
  split; [exact recurring_gene_in_one_tumor|]. split; [reflexivity|]. split.
  - eexists. split; [reflexivity|]. split; reflexivity.
  - do 3 eexists. split; reflexivity.
Qed.

(** The example of the cap in the documentation: with a cap of 1 on the
    running example, [create_survival_tree] records g1 for A and for B and
    drops g2 and g3, while [create_network] keeps the membership of g2. *)
Lemma cap_of_one_example :
  option_map BadSurvivalTree.gene_tumors
    (BadSurvivalTree.build_branches (with_cap 1 BadSurvivalTree.default_settings) []
                                    example_data)
  = Some [("g1", ["A"; "B"])]
  /\ stored_pcc (TumorNetwork.collect_all_genes example_data) "g2" "A" = Some (6 # 10).
Proof. split; reflexivity. Qed.

(** [create_network] never reads [max_genes_per_tumor]. *)
Lemma tn_create_network_ignores_cap n s tumor_types counts tumor_data :
  TumorNetwork.create_network (with_cap n s) tumor_types counts tumor_data =
  TumorNetwork.create_network s tumor_types counts tumor_data.
Proof. reflexivity. Qed.

(** C8.  With the values of [__init__] (cap 1000) and one table of 1001
    genes whose last row g1000 has the smallest PCC: the top 1000 rows do
    not hold g1000, and [create_survival_tree] leaves it out and counts 1000
    genes, but [create_network] stores its membership, draws its node and
    counts 1001 genes. *)
Theorem tn_cap_not_applied :
  List.length table_1001 = 1001%nat
  /\ max_genes_per_tumor TumorNetwork.default_settings = 1000%nat
  /\ has_gene "g1000" (nlargest 1000 table_1001) = false
  /\ option_map
       (fun st => (dict_mem "g1000" (BadSurvivalTree.gene_tumors st),
                   dict_get "A" (BadSurvivalTree.gene_counts st)))
       (BadSurvivalTree.build_branches BadSurvivalTree.default_settings [] data_1001)
     = Some (false, Some 1000%nat)
  /\ stored_pcc (TumorNetwork.collect_all_genes data_1001) "g1000" "A" = Some (6 # 10)
  /\ option_map
       (fun r : Network * PyDict nat =>
          (has_node "g1000" (fst r), dict_get "A" (snd r)))
       (TumorNetwork.create_network TumorNetwork.default_settings ["A"] [] data_1001)
     = Some (true, Some 1001%nat).
Proof.
  split; [vm_compute; reflexivity|]. split; [reflexivity|].
  split; [vm_compute; reflexivity|]. split; [vm_compute; reflexivity|].
  split; vm_compute; reflexivity.
Qed.

(** ** The graph library *)

Lemma has_node_add_node id n nt :
  has_node id (add_node n nt) = has_node id nt || String.eqb (n_id n) id.
Proof.
  unfold add_node. destruct (has_node (n_id n) nt) eqn:E.
  - destruct (String.eqb_spec (n_id n) id) as [<-|Hne].
    + now rewrite E.
    + now rewrite orb_false_r.
  - unfold has_node. simpl. rewrite existsb_app. simpl. now rewrite orb_false_r.
Qed.

Lemma has_node_add_node_same n nt : has_node (n_id n) (add_node n nt) = true.
Proof. rewrite has_node_add_node, String.eqb_refl. apply orb_true_r. Qed.

Lemma has_node_add_node_mono id n nt :
  has_node id nt = true -> has_node id (add_node n nt) = true.
Proof. intros H. now rewrite has_node_add_node, H. Qed.

Lemma add_node_edges n nt : edges (add_node n nt) = edges nt.
Proof. unfold add_node. now destruct (has_node (n_id n) nt). Qed.

Lemma add_node_directed n nt : directed (add_node n nt) = directed nt.
Proof. unfold add_node. now destruct (has_node (n_id n) nt). Qed.

Lemma add_node_nodes n nt x :
  In x (nodes (add_node n nt)) -> In x (nodes nt) \/ x = n.
Proof.
  unfold add_node. destruct (has_node (n_id n) nt); simpl; auto.
  rewrite in_app_iff. simpl. intuition.
Qed.

Lemma add_edge_Some e nt :
  has_node (e_from e) nt = true -> has_node (e_to e) nt = true ->
  exists nt', add_edge e nt = Some nt'.
Proof.
  intros H1 H2. unfold add_edge. rewrite H1, H2. simpl.
  destruct (negb (directed nt) && existsb _ (edges nt)); eauto.
Qed.

Lemma add_edge_nodes e nt nt' : add_edge e nt = Some nt' -> nodes nt' = nodes nt.
Proof.
  unfold add_edge. destruct (has_node (e_from e) nt && has_node (e_to e) nt);
    [|discriminate].
  destruct (negb (directed nt) && existsb _ (edges nt)); now intros [= <-].
Qed.

Lemma add_edge_directed e nt nt' :
  add_edge e nt = Some nt' -> directed nt' = directed nt.
Proof.
  unfold add_edge. destruct (has_node (e_from e) nt && has_node (e_to e) nt);
    [|discriminate].
  destruct (negb (directed nt) && existsb _ (edges nt)); now intros [= <-].
Qed.

Lemma add_edge_has_node e nt nt' id :
  add_edge e nt = Some nt' -> has_node id nt' = has_node id nt.
Proof. intros H. unfold has_node. now rewrite (add_edge_nodes _ _ H). Qed.

Lemma add_edge_edges e nt nt' x :
  add_edge e nt = Some nt' -> In x (edges nt') -> In x (edges nt) \/ x = e.
Proof.
  unfold add_edge. destruct (has_node (e_from e) nt && has_node (e_to e) nt);
    [|discriminate].
  destruct (negb (directed nt) && existsb _ (edges nt)); intros [= <-]; simpl; auto.
  rewrite in_app_iff. simpl. intuition.
Qed.

Lemma has_node_In id nt : has_node id nt = true <-> exists n, In n (nodes nt) /\ n_id n = id.
Proof.
  unfold has_node. rewrite existsb_exists.
  split; intros [n [Hin H]]; exists n; split; auto; now apply String.eqb_eq.
Qed.

Lemma extends_refl c d nt : extends c d nt nt.
Proof. split; auto. Qed.

Lemma extends_trans c d n1 n2 n3 :
  extends c d n1 n2 -> extends c d n2 n3 -> extends c d n1 n3.
Proof. intros [A1 B1] [A2 B2]. split; auto. Qed.

Lemma extends_add_node c d n nt : extends c d nt (add_node n nt).
Proof.
  split.
  - intros id. apply has_node_add_node_mono.
  - unfold edges_from_tables. now rewrite add_node_edges.
Qed.

Lemma extends_add_edge c d e nt nt' :
  add_edge e nt = Some nt' ->
  e_from e = c \/ nonempty_table d (e_from e) ->
  extends c d nt nt'.
Proof.
  intros H Hfrom. split.
  - intros id. now rewrite (add_edge_has_node _ _ id H).
  - intros Hok x Hx. destruct (add_edge_edges _ _ _ H Hx) as [Hx'| ->]; auto.
Qed.

Lemma foldM_preorder {S A : Type} (R : S -> S -> Prop) (f : S -> A -> option S)
  (l : list A) :
  (forall st, R st st) ->
  (forall a b c, R a b -> R b c -> R a c) ->
  (forall x st st', In x l -> f st x = Some st' -> R st st') ->
  forall st st', foldM f l st = Some st' -> R st st'.
Proof.
  intros Hrefl Htrans. induction l as [|x l IH]; intros H st st' Hf; simpl in Hf.
  - injection Hf as <-. apply Hrefl.
  - destruct (f st x) as [st1|] eqn:E; [|discriminate].
    apply Htrans with st1.
    + apply (H x); auto. now left.
    + apply IH; auto. intros y a b Hy. apply H. now right.
Qed.

(** ** The network of [create_network] *)

Lemma tn_add_tumor_node_extends d st item st' :
  TumorNetwork.add_tumor_node d st item = Some st' ->
  extends "GCH1" d (TumorNetwork.net st) (TumorNetwork.net st')
  /\ (dict_mem (snd item) d = true ->
      has_node (snd item) (TumorNetwork.net st') = true).
Proof.
  destruct item as [idx t]. unfold TumorNetwork.add_tumor_node. simpl.
  destruct (dict_mem t d); simpl.
  - destruct (add_edge _ _) as [net2|] eqn:E; [|discriminate].
    intros [= <-]. simpl. split.
    + eapply extends_trans; [apply extends_add_node|].
      eapply extends_add_edge; [exact E|]. now left.
    + intros _. rewrite (add_edge_has_node _ _ t E).
      apply (has_node_add_node_same {| n_id := t; n_shape := Dot; n_size := 20 |}).
  - intros [= <-]. split; [apply extends_refl | discriminate].
Qed.

Lemma tn_add_tumor_nodes_extends d l : forall st st',
  foldM (TumorNetwork.add_tumor_node d) l st = Some st' ->
  extends "GCH1" d (TumorNetwork.net st) (TumorNetwork.net st')
  /\ (forall item, In item l -> dict_mem (snd item) d = true ->
                   has_node (snd item) (TumorNetwork.net st') = true).
Proof.
  induction l as [|x l IH]; intros st st' Hf; simpl in Hf.
  - injection Hf as <-. split; [apply extends_refl|]. intros item [].
  - destruct (TumorNetwork.add_tumor_node d st x) as [st1|] eqn:E; [|discriminate].
    destruct (tn_add_tumor_node_extends _ _ _ E) as [Hx1 Hx2].
    destruct (IH _ _ Hf) as [Hl1 Hl2]. split.
    + eapply extends_trans; eauto.
    + intros item [<-|Hin] Hm; auto. apply Hl1. auto.
Qed.

Lemma tn_add_specific_gene_extends s d t st row st' :
  nonempty_table d t ->
  TumorNetwork.add_specific_gene s t st row = Some st' ->
  extends "GCH1" d (TumorNetwork.net st) (TumorNetwork.net st').
Proof.
  intros Hne. unfold TumorNetwork.add_specific_gene.
  destruct (TumorNetwork.node_size s (PCC row)) as [size|]; [|discriminate].
  destruct (add_edge _ _) as [net2|] eqn:E; [|discriminate].
  destruct (dict_incr t (TumorNetwork.gene_counts st)); [|discriminate].
  intros [= <-]. simpl.
  eapply extends_trans; [apply extends_add_node|].
  eapply extends_add_edge; [exact E|]. now right.
Qed.

Lemma tn_add_specific_genes_extends s d all_genes st t st' :
  TumorNetwork.add_specific_genes s d all_genes st t = Some st' ->
  extends "GCH1" d (TumorNetwork.net st) (TumorNetwork.net st').
Proof.
  unfold TumorNetwork.add_specific_genes.
  destruct (dict_get t d) as [df|] eqn:Ed.
  - destruct (dict_get t (TumorNetwork.tumor_positions st)); [|discriminate].
    apply (foldM_preorder
             (fun a b => extends "GCH1" d (TumorNetwork.net a) (TumorNetwork.net b))).
    + intros a. apply extends_refl.
    + intros a b c. apply extends_trans.
    + intros row a b Hrow. apply tn_add_specific_gene_extends.
      exists df. split; [now apply dict_get_In|].
      assert (In row df) as Hin.
      { destruct (negb (df_empty _)) in Hrow.
        - apply (proj1 (sort_values_desc_In _ _)) in Hrow. unfold filter_gene in Hrow.
          apply filter_In in Hrow. tauto.
        - unfold filter_gene in Hrow. apply filter_In in Hrow. tauto. }
      intros ->. destruct Hin.
  - intros [= <-]. apply extends_refl.
Qed.

Lemma tn_add_cross_edge_extends s d g st item st' :
  nonempty_table d (fst item) ->
  TumorNetwork.add_cross_edge s g st item = Some st' ->
  extends "GCH1" d (TumorNetwork.net st) (TumorNetwork.net st').
Proof.
  destruct item as [t p]. simpl. intros Hne. unfold TumorNetwork.add_cross_edge.
  destruct (Qle_bool (min_correlation s) p).
  - destruct (add_edge _ _) as [net2|] eqn:E; [|discriminate].
    destruct (dict_incr t (TumorNetwork.gene_counts st)); [|discriminate].
    intros [= <-]. simpl. eapply extends_add_edge; [exact E|]. now right.
  - intros [= <-]. apply extends_refl.
Qed.

Lemma memberships_nonempty_table g d t p :
  In (t, p) (memberships g d) -> nonempty_table d t.
Proof.
  intros H. destruct (@memberships_In g d t p H) as [df [row [Hd [Hr _]]]].
  exists df. split; auto. intros ->. destruct Hr.
Qed.

Lemma tn_add_cross_gene_extends s d st item st' :
  dict_wf d ->
  In item (TumorNetwork.cross_tumor_genes (TumorNetwork.collect_all_genes d)) ->
  TumorNetwork.add_cross_gene s st item = Some st' ->
  extends "GCH1" d (TumorNetwork.net st) (TumorNetwork.net st').
Proof.
  intros Hwf Hin. destruct item as [g tumor_pccs].
  destruct (@cross_tumor_genes_In d g tumor_pccs Hwf Hin) as [-> _].
  unfold TumorNetwork.add_cross_gene.
  destruct (TumorNetwork.main_tumor _) as [main|]; [|discriminate].
  destruct (dict_get main _) as [main_pcc|]; [|discriminate].
  destruct (Qlt_bool main_pcc (min_correlation s)).
  - intros [= <-]. apply extends_refl.
  - destruct (dict_get main (TumorNetwork.tumor_positions st)); [|discriminate].
    destruct (TumorNetwork.node_size s main_pcc) as [size|]; [|discriminate].
    intros Hf.
    apply (foldM_preorder
             (fun a b => extends "GCH1" d (TumorNetwork.net a) (TumorNetwork.net b)))
      in Hf.
    + simpl in Hf. eapply extends_trans; [apply extends_add_node|exact Hf].
    + intros a. apply extends_refl.
    + intros a b c. apply extends_trans.
    + intros [t p] a b Hp. apply tn_add_cross_edge_extends. simpl.
      unfold dict_items in Hp. eapply memberships_nonempty_table; eauto.
Qed.

Lemma in_enumerate {A : Type} (x : A) (l : list A) :
  In x l -> exists i, In (i, x) (enumerate l).
Proof.
  unfold enumerate. generalize 0%nat.
  induction l as [|y l IH]; intros start; simpl; [tauto|].
  intros [->|Hin].
  - exists start. now left.
  - destruct (IH (S start) Hin) as [i Hi]. exists i. now right.
Qed.

(** The network returned by [create_network]: every discovered tumor type
    that has a table has a node, and every edge leaves GCH1 or a tumor type
    whose table has rows. *)
Lemma tn_create_network_shape s tumor_types counts d nt counts' :
  dict_wf d ->
  TumorNetwork.create_network s tumor_types counts d = Some (nt, counts') ->
  (forall t, In t tumor_types -> dict_mem t d = true -> has_node t nt = true)
  /\ edges_from_tables "GCH1" d nt.
Proof.
  intros Hwf. unfold TumorNetwork.create_network.
  destruct (foldM (TumorNetwork.add_tumor_node d) _ _) as [st1|] eqn:E1; [|discriminate].
  destruct (foldM (TumorNetwork.add_specific_genes s d _) _ _) as [st2|] eqn:E2;
    [|discriminate].
  destruct (foldM (TumorNetwork.add_cross_gene s) _ _) as [st3|] eqn:E3; [|discriminate].
  intros [= <- <-].
  destruct (tn_add_tumor_nodes_extends _ _ _ E1) as [[_ He1] Hn1]. simpl in He1.
  assert (extends "GCH1" d (TumorNetwork.net st1) (TumorNetwork.net st2)) as [Hg2 He2].
  { revert E2. apply (foldM_preorder
      (fun a b => extends "GCH1" d (TumorNetwork.net a) (TumorNetwork.net b))).
    - intros a. apply extends_refl.
    - intros a b c. apply extends_trans.
    - intros t a b _. apply tn_add_specific_genes_extends. }
  assert (extends "GCH1" d (TumorNetwork.net st2) (TumorNetwork.net st3)) as [Hg3 He3].
  { revert E3. apply (foldM_preorder
      (fun a b => extends "GCH1" d (TumorNetwork.net a) (TumorNetwork.net b))).
    - intros a. apply extends_refl.
    - intros a b c. apply extends_trans.
    - intros item a b Hitem. now apply tn_add_cross_gene_extends. }
  split.
  - intros t Ht Hm. apply Hg3, Hg2. destruct (in_enumerate _ _ Ht) as [i Hi].
    apply (Hn1 (i, t) Hi Hm).
  - apply He3, He2, He1. intros e He. rewrite add_node_edges in He. destruct He.
Qed.

(** ** The network of [create_survival_tree] *)

Lemma bst_add_gene_node_boxes s d t st row st' :
  BadSurvivalTree.add_gene_node s t st row = Some st' ->
  boxes_from_tables d (BadSurvivalTree.net st) ->
  boxes_from_tables d (BadSurvivalTree.net st')
  /\ BadSurvivalTree.log st' = BadSurvivalTree.log st.
Proof.
  unfold BadSurvivalTree.add_gene_node.
  destruct (BadSurvivalTree.size_scale s (PCC row)) as [scale|]; [|discriminate].
  destruct (add_edge _ _) as [net2|] eqn:E; [|discriminate].
  intros [= <-] Hb. simpl. split; auto.
  intros n Hn Hbox. rewrite (add_edge_nodes _ _ E) in Hn.
  apply add_node_nodes in Hn. destruct Hn as [Hn| ->]; auto. discriminate.
Qed.

Lemma bst_add_tumor_branch_boxes s d st item st' :
  In (snd item) d ->
  BadSurvivalTree.add_tumor_branch s st item = Some st' ->
  boxes_from_tables d (BadSurvivalTree.net st) ->
  boxes_from_tables d (BadSurvivalTree.net st')
  /\ (forall e, In e (BadSurvivalTree.log st) -> In e (BadSurvivalTree.log st'))
  /\ (snd (snd item) = [] ->
      In (LogWarningNoData (fst (snd item))) (BadSurvivalTree.log st')).
Proof.
  destruct item as [idx [t df]]. simpl. intros Hin.
  unfold BadSurvivalTree.add_tumor_branch.
  destruct df as [|r df]; simpl.
  - intros [= <-] Hb. simpl. split; auto. split.
    + intros e He. apply in_or_app. now left.
    + intros _. apply in_or_app. right. now left.
  - destruct (add_edge _ _) as [net2|] eqn:E; [|discriminate]. intros Hf Hb.
    assert (boxes_from_tables d net2) as Hb2.
    { intros n Hn Hbox. rewrite (add_edge_nodes _ _ E) in Hn.
      apply add_node_nodes in Hn. destruct Hn as [Hn| ->]; auto.
      simpl. exists (r :: df). split; auto. discriminate. }
    apply (foldM_invariant
             (fun a => boxes_from_tables d (BadSurvivalTree.net a)
                       /\ BadSurvivalTree.log a = BadSurvivalTree.log st)) in Hf.
    + destruct Hf as [H1 H2]. rewrite H2. split; auto. split; auto. discriminate.
    + intros row a b _ [Ha1 Ha2] Hstep.
      destruct (@bst_add_gene_node_boxes s d t a row b Hstep Ha1) as [H1 H2].
      split; [exact H1 | now rewrite H2].
    + simpl. auto.
Qed.

Lemma in_enumerate_snd {A : Type} (l : list A) (x : nat * A) :
  In x (enumerate l) -> In (snd x) l.
Proof.
  unfold enumerate. destruct x as [i a]. simpl. apply in_combine_r.
Qed.

Lemma bst_build_branches_boxes s d l : forall st st',
  (forall x, In x l -> In (snd x) d) ->
  foldM (BadSurvivalTree.add_tumor_branch s) l st = Some st' ->
  boxes_from_tables d (BadSurvivalTree.net st) ->
  boxes_from_tables d (BadSurvivalTree.net st')
  /\ (forall e, In e (BadSurvivalTree.log st) -> In e (BadSurvivalTree.log st'))
  /\ (forall x, In x l -> snd (snd x) = [] ->
                In (LogWarningNoData (fst (snd x))) (BadSurvivalTree.log st')).
Proof.
  induction l as [|x l IH]; intros st st' Hd Hf Hb; simpl in Hf.
  - injection Hf as <-. split; auto. split; auto. intros x [].
  - destruct (BadSurvivalTree.add_tumor_branch s st x) as [st1|] eqn:E; [|discriminate].
    destruct (@bst_add_tumor_branch_boxes s d st x st1 (Hd x (or_introl eq_refl)) E Hb)
      as [H1 [H2 H3]].
    destruct (IH st1 st' (fun y Hy => Hd y (or_intror Hy)) Hf H1) as [G1 [G2 G3]].
    split; auto. split; auto.
    intros y [<-|Hy] Hempty; auto.
Qed.

Lemma update_first_In id f l l' n' :
  update_first id f l = Some l' -> In n' l' ->
  In n' l \/ exists n, In n l /\ n' = f n.
Proof.
  revert l'. induction l as [|x l IH]; intros l'; simpl; [discriminate|].
  destruct (String.eqb (n_id x) id).
  - intros [= <-] [<-|Hin]; [right; exists x|]; auto.
  - destruct (update_first id f l) as [l''|]; [|discriminate].
    intros [= <-] [<-|Hin]; auto.
    destruct (IH l'' eq_refl Hin) as [H|[n [Hn ->]]]; auto.
    right. exists n. auto.
Qed.

Lemma bst_mark_cross_gene_boxes d nt item nt' :
  BadSurvivalTree.mark_cross_gene nt item = Some nt' ->
  boxes_from_tables d nt -> boxes_from_tables d nt'.
Proof.
  destruct item as [gene tumors]. unfold BadSurvivalTree.mark_cross_gene.
  destruct (1 <? List.length tumors)%nat; [|now intros [= <-]].
  intros Hf Hb. revert Hb Hf.
  apply (foldM_invariant (boxes_from_tables d)). intros t a b _ Ha.
  unfold BadSurvivalTree.mark_instance, update_node.
  destruct (update_first _ _ (nodes a)) as [ns|] eqn:E; [|discriminate].
  intros [= <-] n Hn Hbox. simpl in Hn.
  destruct (@update_first_In _ _ (nodes a) ns n E Hn) as [H|[n0 [_ ->]]]; auto.
  discriminate.
Qed.

(** The network returned by [create_survival_tree]: every box (tumor) node
    belongs to a tumor type whose table has rows, and every tumor type with
    an empty table has its warning in the log. *)
Lemma bst_create_survival_tree_shape s counts d nt counts' log :
  BadSurvivalTree.create_survival_tree s counts d = Some (nt, counts', log) ->
  boxes_from_tables d nt
  /\ (forall t, In (t, []) d -> In (LogWarningNoData t) log).
Proof.
  unfold BadSurvivalTree.create_survival_tree, BadSurvivalTree.build_branches.
  destruct (foldM (BadSurvivalTree.add_tumor_branch s) _ _) as [st|] eqn:E1;
    [|discriminate].
  destruct (foldM BadSurvivalTree.mark_cross_gene _ _) as [nt1|] eqn:E2; [|discriminate].
  intros [= <- <- <-].
  apply bst_build_branches_boxes with (d := d) in E1.
  - destruct E1 as [H1 [_ H3]]. split.
    + revert H1 E2. apply (foldM_invariant (boxes_from_tables d)).
      intros item a b _ Ha Hstep.
      eapply bst_mark_cross_gene_boxes; eauto.
    + intros t Ht. destruct (in_enumerate _ _ Ht) as [i Hi].
      apply (H3 (i, (t, [])) Hi eq_refl).
  - intros x. apply in_enumerate_snd.
  - simpl. intros n Hn. apply add_node_nodes in Hn. simpl in Hn.
    destruct Hn as [[]| ->]. discriminate.
Qed.

(** ** A tumor type whose table is empty *)

Lemma empty_table_not_nonempty (d : PyDict DataFrame) (t : string) :
  dict_wf d -> dict_get t d = Some [] -> ~ nonempty_table d t.
Proof.
  intros Hwf Hget [df [Hin Hne]].
  apply In_dict_get in Hin; [|exact Hwf].
  rewrite Hget in Hin. injection Hin as <-. now apply Hne.
Qed.

(** C9, as stated, fails: [create_survival_tree] on a tumor type A with an
    empty table and a tumor type B with rows creates no node for A (B has
    its node) and logs the warning for A. *)
Lemma empty_category_skipped_counterexample :
  dict_get "A" data_with_empty = Some []
  /\ option_map
       (fun r : Network * PyDict nat * list LogRecord =>
          (has_node "A" (fst (fst r)), has_node "B" (fst (fst r)), snd r))
       (BadSurvivalTree.create_survival_tree BadSurvivalTree.default_settings []
                                            data_with_empty)
     = Some (false, true, [LogWarningNoData "A"]).
Proof. split; reflexivity. Qed.

(** C9, amended.  A tumor type whose table is empty after filtering is no
    error in either visualizer.  [create_network] still includes it: its
    node is created and no edge leaves it towards a gene (an edge leaving it
    can only be one leaving the centre GCH1).  [create_survival_tree] skips
    it: the warning is logged and no box (tumor) node carries its name. *)
Theorem empty_category_policy (s : Settings) (tumor_data : PyDict DataFrame)
  (t : string) :
  dict_wf tumor_data ->
  dict_get t tumor_data = Some [] ->
  (forall tumor_types counts nt counts',
      In t tumor_types ->
      TumorNetwork.create_network s tumor_types counts tumor_data = Some (nt, counts') ->
      has_node t nt = true
      /\ (forall e, In e (edges nt) -> e_from e = t -> t = "GCH1"))
  /\ (forall counts nt counts' log,
         BadSurvivalTree.create_survival_tree s counts tumor_data
         = Some (nt, counts', log) ->
         In (LogWarningNoData t) log
         /\ (forall n, In n (nodes nt) -> n_id n = t -> n_shape n <> Box)).
Proof.
  intros Hwf Hget.
  pose proof (@empty_table_not_nonempty tumor_data t Hwf Hget) as Hempty.
  split.
  - intros tumor_types counts nt counts' Hin Hc.
    destruct (@tn_create_network_shape s tumor_types counts tumor_data nt counts'
                Hwf Hc) as [Hnodes Hedges].
    split.
    + apply Hnodes; auto. unfold dict_mem. now rewrite Hget.
    + intros e He Hfrom. destruct (Hedges e He) as [H|H]; [congruence|].
      rewrite Hfrom in H. contradiction.
  - intros counts nt counts' log Hc.
    destruct (@bst_create_survival_tree_shape s counts tumor_data nt counts' log Hc)
      as [Hboxes Hlog].
    split.
    + apply Hlog. now apply dict_get_In.
    + intros n Hn Hid Hbox. apply Hempty. rewrite <- Hid. now apply Hboxes.
Qed.

Lemma empty_category_policy_witness :
  (exists nt counts',
      TumorNetwork.create_network TumorNetwork.default_settings ["A"; "B"] []
                                  data_with_empty = Some (nt, counts')
      /\ has_node "A" nt = true)
  /\ (exists nt counts' log,
         BadSurvivalTree.create_survival_tree BadSurvivalTree.default_settings []
                                              data_with_empty
         = Some (nt, counts', log)
         /\ In (LogWarningNoData "A") log).
Proof.
  assert (dict_wf data_with_empty) as Hwf.
  { repeat constructor; simpl; intuition discriminate. }
  split.
  - destruct (@empty_category_policy TumorNetwork.default_settings data_with_empty "A"
                Hwf eq_refl) as [Hn _].
    do 2 eexists. split; [reflexivity|].
    apply (Hn ["A"; "B"] [] _ _ (or_introl eq_refl) eq_refl).
  - destruct (@empty_category_policy BadSurvivalTree.default_settings data_with_empty
                "A" Hwf eq_refl) as [_ Ht].
    do 3 eexists. split; [reflexivity|].
    apply (Ht [] _ _ _ eq_refl).
Defined.

(** ** [create_network] returns *)

Lemma dict_mem_set {V : Type} k k' (v : V) d :
  dict_mem k (dict_set k' v d) = dict_mem k d || String.eqb k' k.
Proof.
  unfold dict_mem. destruct (String.eqb_spec k' k) as [->|Hne].
  - rewrite dict_get_set_same. now rewrite orb_true_r.
  - rewrite dict_get_set_other by assumption. now rewrite orb_false_r.
Qed.

Lemma dict_incr_Some k counts :
  dict_mem k counts = true ->
  exists counts', dict_incr k counts = Some counts'
                  /\ forall t, dict_mem t counts = true -> dict_mem t counts' = true.
Proof.
  unfold dict_incr, dict_mem at 1. destruct (dict_get k counts) as [c|]; [|discriminate].
  intros _. eexists. split; [reflexivity|]. intros t Ht.
  now rewrite dict_mem_set, Ht.
Qed.

Lemma tn_add_tumor_nodes_total d l : forall st,
  has_node "GCH1" (TumorNetwork.net st) = true ->
  exists st',
    foldM (TumorNetwork.add_tumor_node d) l st = Some st'
    /\ (forall t, covers t st -> covers t st')
    /\ (forall item, In item l -> dict_mem (snd item) d = true -> covers (snd item) st').
Proof.
  induction l as [|[idx t] l IH]; intros st Hc; simpl.
  - exists st. split; auto. split; auto. intros item [].
  - unfold TumorNetwork.add_tumor_node at 1.
    destruct (dict_mem t d) eqn:Em; simpl.
    + destruct (add_edge_Some {| e_from := "GCH1"; e_to := t; e_width := 2 |}
                  (add_node {| n_id := t; n_shape := Dot; n_size := 20 |}
                            (TumorNetwork.net st))) as [net2 E].
      { simpl. now apply has_node_add_node_mono. }
      { simpl. apply (has_node_add_node_same {| n_id := t; n_shape := Dot; n_size := 20 |}). }
      rewrite E.
      assert (forall id, has_node id (TumorNetwork.net st) = true ->
                         has_node id net2 = true) as Hgrow.
      { intros id Hid. rewrite (add_edge_has_node _ _ id E).
        now apply has_node_add_node_mono. }
      match goal with |- context [foldM _ l ?x] => destruct (IH x) as [st' [Hf [Hm Hl]]] end.
      { simpl. auto. }
      exists st'. split; auto. split.
      * intros t' [H1 [H2 H3]]. apply Hm. split; [|split]; simpl; auto.
        -- now rewrite dict_mem_set, H2.
        -- now rewrite dict_mem_set, H3.
      * intros item [<-|Hin] Hmem; auto. simpl. apply Hm.
        split; [|split]; simpl.
        -- rewrite (add_edge_has_node _ _ t E).
           apply (has_node_add_node_same {| n_id := t; n_shape := Dot; n_size := 20 |}).
        -- rewrite dict_mem_set, String.eqb_refl. apply orb_true_r.
        -- rewrite dict_mem_set, String.eqb_refl. apply orb_true_r.
    + destruct (IH st Hc) as [st' [Hf [Hm Hl]]].
      exists st'. split; auto. split; auto.
      intros item [<-|Hin] Hmem; auto. simpl in Hmem. congruence.
Qed.

Lemma tn_add_specific_gene_total s types d t st row :
  ~ 1 - min_correlation s == 0 ->
  all_covered types d st -> covers t st ->
  exists st', TumorNetwork.add_specific_gene s t st row = Some st'
              /\ all_covered types d st' /\ covers t st'.
Proof.
  intros Hd Hall [H1 [H2 H3]]. unfold TumorNetwork.add_specific_gene.
  destruct (tn_node_size_lerp s (PCC row) Hd) as [size [Hs _]]. rewrite Hs.
  destruct (add_edge_Some
              {| e_from := t; e_to := gene_symbol row;
                 e_width := TumorNetwork.edge_width s (PCC row) |}
              (add_node {| n_id := gene_symbol row; n_shape := Dot; n_size := size |}
                        (TumorNetwork.net st))) as [net2 E].
  { simpl. now apply has_node_add_node_mono. }
  { simpl. apply (has_node_add_node_same
                    {| n_id := gene_symbol row; n_shape := Dot; n_size := size |}). }
  rewrite E. destruct (@dict_incr_Some t _ H3) as [counts' [Ec Hk]]. rewrite Ec.
  assert (forall id, has_node id (TumorNetwork.net st) = true ->
                     has_node id net2 = true) as Hgrow.
  { intros id Hid. rewrite (add_edge_has_node _ _ id E).
    now apply has_node_add_node_mono. }
  eexists. split; [reflexivity|]. split.
  - intros t' Ht' Hm. destruct (Hall t' Ht' Hm) as [G1 [G2 G3]].
    split; [|split]; simpl; auto.
  - split; [|split]; simpl; auto.
Qed.

Lemma tn_add_specific_genes_total s types d all_genes st t :
  ~ 1 - min_correlation s == 0 ->
  In t types -> all_covered types d st ->
  exists st', TumorNetwork.add_specific_genes s d all_genes st t = Some st'
              /\ all_covered types d st'.
Proof.
  intros Hd Ht Hall. unfold TumorNetwork.add_specific_genes.
  destruct (dict_get t d) as [df|] eqn:Ed; [|eauto].
  assert (covers t st) as Hc.
  { apply Hall; auto. unfold dict_mem. now rewrite Ed. }
  destruct Hc as [H1 [H2 H3]]. unfold dict_mem in H2.
  destruct (dict_get t (TumorNetwork.tumor_positions st)); [|discriminate].
  match goal with |- context [foldM _ ?l st] =>
    destruct (foldM_total (fun a => all_covered types d a /\ covers t a)
                (TumorNetwork.add_specific_gene s t) l) with (st := st)
      as [st' [Hf [Ha _]]]
  end.
  - intros row a _ [Ha Hc].
    destruct (@tn_add_specific_gene_total s types d t a row Hd Ha Hc) as [b [Hb Hb']].
    eauto.
  - split; auto. apply Hall; auto. unfold dict_mem. now rewrite Ed.
  - eauto.
Qed.

Lemma tn_add_cross_edge_total s types d g st item :
  has_node g (TumorNetwork.net st) = true ->
  all_covered types d st -> covers (fst item) st ->
  exists st', TumorNetwork.add_cross_edge s g st item = Some st'
              /\ has_node g (TumorNetwork.net st') = true
              /\ all_covered types d st'.
Proof.
  destruct item as [t p]. simpl. intros Hg Hall [H1 [H2 H3]].
  unfold TumorNetwork.add_cross_edge.
  destruct (Qle_bool (min_correlation s) p); [|eauto].
  destruct (add_edge_Some
              {| e_from := t; e_to := g; e_width := TumorNetwork.edge_width s p |}
              (TumorNetwork.net st)) as [net2 E]; auto.
  rewrite E. destruct (@dict_incr_Some t _ H3) as [counts' [Ec Hk]]. rewrite Ec.
  eexists. split; [reflexivity|]. simpl. split.
  - now rewrite (add_edge_has_node _ _ g E).
  - intros t' Ht' Hm. destruct (Hall t' Ht' Hm) as [G1 [G2 G3]].
    split; [|split]; simpl; auto. now rewrite (add_edge_has_node _ _ t' E).
Qed.

Lemma memberships_key_mem g d t p :
  In (t, p) (memberships g d) -> dict_mem t d = true.
Proof.
  intros H. destruct (@memberships_In g d t p H) as [df [_ [Hd _]]].
  apply dict_mem_In. apply (in_map fst) in Hd. exact Hd.
Qed.

Lemma tn_add_cross_gene_total s types d st item :
  ~ 1 - min_correlation s == 0 ->
  dict_wf d ->
  (forall t, dict_mem t d = true -> In t types) ->
  In item (TumorNetwork.cross_tumor_genes (TumorNetwork.collect_all_genes d)) ->
  all_covered types d st ->
  exists st', TumorNetwork.add_cross_gene s st item = Some st'
              /\ all_covered types d st'.
Proof.
  intros Hd Hwf Hkeys Hin Hall. destruct item as [g tumor_pccs].
  destruct (@cross_gene_main_tumor d g tumor_pccs Hwf Hin)
    as [Hm [main [main_pcc [before [after [Hmain [Hget _]]]]]]].
  assert (forall t p, In (t, p) tumor_pccs -> covers t st) as Hcov.
  { intros t p Hp. rewrite Hm in Hp.
    pose proof (@memberships_key_mem g d t p Hp) as Hmem. apply Hall; auto. }
  unfold TumorNetwork.add_cross_gene. rewrite Hmain, Hget.
  destruct (Qlt_bool main_pcc (min_correlation s)); [eauto|].
  destruct (Hcov main main_pcc (dict_get_In _ _ Hget)) as [_ [H2 _]].
  unfold dict_mem in H2.
  destruct (dict_get main (TumorNetwork.tumor_positions st)); [|discriminate].
  destruct (tn_node_size_lerp s main_pcc Hd) as [size [Hs _]]. rewrite Hs.
  match goal with |- context [foldM _ ?l ?x] =>
    destruct (foldM_total
                (fun a => has_node g (TumorNetwork.net a) = true
                          /\ all_covered types d a
                          /\ (forall t, covers t st -> covers t a))
                (TumorNetwork.add_cross_edge s g) l) with (st := x)
      as [st' [Hf [_ [Ha _]]]]
  end.
  - intros [t p] a Hp [Hg [Ha Hmono]].
    destruct (@tn_add_cross_edge_total s types d g a (t, p) Hg Ha) as [b [Hb [Hb1 Hb2]]].
    { simpl. apply Hmono. apply (Hcov t p). exact Hp. }
    exists b. split; auto. split; auto. split; auto.
    intros t' Ht'. destruct (Hmono t' Ht') as [G1 [G2 G3]].
    revert Hb. unfold TumorNetwork.add_cross_edge.
    destruct (Qle_bool (min_correlation s) p).
    + destruct (add_edge _ _) as [net2|] eqn:E; [|discriminate].
      destruct (@dict_incr_Some t' (TumorNetwork.gene_counts a) G3) as [c0 _].
      unfold dict_incr.
      destruct (dict_get t (TumorNetwork.gene_counts a)); [|discriminate].
      intros [= <-]. split; [|split]; simpl; auto.
      * now rewrite (add_edge_has_node _ _ t' E).
      * now rewrite dict_mem_set, G3.
    + intros [= <-]. split; auto.
  - simpl. split.
    + apply (has_node_add_node_same {| n_id := g; n_shape := Diamond; n_size := size + 2 |}).
    + split.
      * intros t Ht Hmem. destruct (Hall t Ht Hmem) as [G1 [G2 G3]].
        split; [|split]; simpl; auto. now apply has_node_add_node_mono.
      * intros t [G1 [G2 G3]]. split; [|split]; simpl; auto.
        now apply has_node_add_node_mono.
  - eauto.
Qed.

(** [create_network] raises nothing when the score range is not degenerate
    and every table belongs to a discovered tumor type. *)
Lemma tn_create_network_returns s tumor_types counts d :
  ~ min_correlation s == 1 ->
  dict_wf d ->
  (forall t, dict_mem t d = true -> In t tumor_types) ->
  exists nt counts', TumorNetwork.create_network s tumor_types counts d = Some (nt, counts').
Proof.
  intros Hmin Hwf Hkeys. assert (~ 1 - min_correlation s == 0) as Hd by lra.
  unfold TumorNetwork.create_network.
  match goal with |- context [foldM (TumorNetwork.add_tumor_node d) ?l ?x] =>
    destruct (@tn_add_tumor_nodes_total d l x) as [st1 [E1 [_ H1]]]
  end.
  { simpl. reflexivity. }
  rewrite E1.
  assert (all_covered tumor_types d st1) as Hall1.
  { intros t Ht Hm. destruct (in_enumerate _ _ Ht) as [i Hi]. apply (H1 (i, t) Hi Hm). }
  destruct (foldM_total (all_covered tumor_types d)
              (TumorNetwork.add_specific_genes s d (TumorNetwork.collect_all_genes d))
              tumor_types) with (st := st1) as [st2 [E2 Hall2]]; auto.
  { intros t a Ht Ha. now apply tn_add_specific_genes_total. }
  rewrite E2.
  destruct (foldM_total (all_covered tumor_types d) (TumorNetwork.add_cross_gene s)
              (dict_items (TumorNetwork.cross_tumor_genes
                             (TumorNetwork.collect_all_genes d))))
    with (st := st2) as [st3 [E3 _]]; auto.
  { intros item a Hitem Ha. now apply tn_add_cross_gene_total. }
  rewrite E3. eauto.
Qed.

(** [run] of the network visualizer builds a network for every data
    directory whose files, where they can be read, are well-formed tables,
    as long as [min_correlation] is not 1. *)
Lemma tn_run_returns s read_csv tumor_types :
  ~ min_correlation s == 1 ->
  exists nt counts', TumorNetwork.run s read_csv tumor_types = Some (nt, counts').
Proof.
  intros Hmin. unfold TumorNetwork.run. apply tn_create_network_returns; auto.
  - apply load_all_data_wf.
  - intros t Hm. apply dict_mem_In in Hm. unfold dict_keys in Hm.
    apply in_map_iff in Hm. destruct Hm as [[t' df] [E Hin]]. simpl in E. subst t'.
    now destruct (@load_all_data_tables read_csv s tumor_types [] t df Hin).
Qed.

(** ** [create_survival_tree] returns *)

Lemma track_gene_wf gene t tracked :
  dict_wf tracked -> dict_wf (BadSurvivalTree.track_gene gene t tracked).
Proof.
  intros H. unfold BadSurvivalTree.track_gene. apply dict_wf_modify.
  destruct (negb (dict_mem gene tracked)); auto using dict_wf_set.
Qed.

Lemma bst_add_gene_node_total s t st row :
  ~ 1 - min_correlation s == 0 ->
  has_node t (BadSurvivalTree.net st) = true ->
  instances_drawn st -> dict_wf (BadSurvivalTree.gene_tumors st) ->
  exists st', BadSurvivalTree.add_gene_node s t st row = Some st'
              /\ has_node t (BadSurvivalTree.net st') = true
              /\ instances_drawn st' /\ dict_wf (BadSurvivalTree.gene_tumors st').
Proof.
  intros Hd Ht [Hc Hi] Hwf. unfold BadSurvivalTree.add_gene_node.
  rewrite (bst_size_scale_interpolant s (PCC row) Hd).
  set (scale := interpolant (min_correlation s) 1 (PCC row)).
  set (n := {| n_id := BadSurvivalTree.gene_node_id (gene_symbol row) t;
               n_shape := Dot; n_size := BadSurvivalTree.node_size s scale |}).
  destruct (add_edge_Some
              {| e_from := t; e_to := BadSurvivalTree.gene_node_id (gene_symbol row) t;
                 e_width := BadSurvivalTree.edge_width s scale |}
              (add_node n (BadSurvivalTree.net st))) as [net2 E].
  { simpl. now apply has_node_add_node_mono. }
  { simpl. apply (has_node_add_node_same n). }
  rewrite E. eexists. split; [reflexivity|]. simpl.
  assert (forall id, has_node id (BadSurvivalTree.net st) = true ->
                     has_node id net2 = true) as Hgrow.
  { intros id Hid. rewrite (add_edge_has_node _ _ id E).
    now apply has_node_add_node_mono. }
  split; auto. split; [|now apply track_gene_wf].
  split; simpl; auto.
  intros g t'. rewrite track_gene_tumors_of.
  destruct (String.eqb_spec (gene_symbol row) g) as [<-|Hne]; auto.
  rewrite in_app_iff. intros [H|[<-|[]]]; auto.
  rewrite (add_edge_has_node _ _ _ E). apply (has_node_add_node_same n).
Qed.

Lemma bst_add_tumor_branch_total s st item :
  ~ 1 - min_correlation s == 0 ->
  instances_drawn st -> dict_wf (BadSurvivalTree.gene_tumors st) ->
  exists st', BadSurvivalTree.add_tumor_branch s st item = Some st'
              /\ instances_drawn st' /\ dict_wf (BadSurvivalTree.gene_tumors st').
Proof.
  intros Hd [Hc Hi] Hwf. destruct item as [idx [t df]].
  unfold BadSurvivalTree.add_tumor_branch.
  destruct (df_empty df).
  - eexists. split; [reflexivity|]. split; auto. split; auto.
  - set (n := {| n_id := t; n_shape := Box; n_size := BadSurvivalTree.tumor_node_size |}).
    destruct (add_edge_Some
                {| e_from := "Poor Prognosis"; e_to := t; e_width := 3 |}
                (add_node n (BadSurvivalTree.net st))) as [net2 E].
    { simpl. now apply has_node_add_node_mono. }
    { simpl. apply (has_node_add_node_same n). }
    rewrite E.
    assert (forall id, has_node id (BadSurvivalTree.net st) = true ->
                       has_node id net2 = true) as Hgrow.
    { intros id Hid. rewrite (add_edge_has_node _ _ id E).
      now apply has_node_add_node_mono. }
    match goal with |- context [foldM _ ?l ?x] =>
      destruct (foldM_total
                  (fun a => has_node t (BadSurvivalTree.net a) = true
                            /\ instances_drawn a
                            /\ dict_wf (BadSurvivalTree.gene_tumors a))
                  (BadSurvivalTree.add_gene_node s t) l) with (st := x)
        as [st' [Hf [_ [Ha Hb]]]]
    end.
    + intros row a _ [H1 [H2 H3]].
      destruct (@bst_add_gene_node_total s t a row Hd H1 H2 H3) as [b [Hb Hb']].
      eauto.
    + simpl. split; [|split]; auto.
      * rewrite (add_edge_has_node _ _ t E). apply (has_node_add_node_same n).
      * split; simpl; auto.
    + eauto.
Qed.

Lemma update_first_Some id f l :
  (forall n, n_id (f n) = n_id n) ->
  existsb (fun n => String.eqb (n_id n) id) l = true ->
  exists l', update_first id f l = Some l' /\ map n_id l' = map n_id l.
Proof.
  intros Hf. induction l as [|x l IH]; simpl; [discriminate|].
  destruct (String.eqb (n_id x) id); simpl.
  - intros _. eexists. split; [reflexivity|]. simpl. now rewrite Hf.
  - intros H. destruct (IH H) as [l' [E Hm]]. rewrite E.
    eexists. split; [reflexivity|]. simpl. now rewrite Hm.
Qed.

Lemma has_node_ids id nt nt' :
  map n_id (nodes nt') = map n_id (nodes nt) -> has_node id nt' = has_node id nt.
Proof.
  unfold has_node. intros H.
  assert (forall l, existsb (fun n => String.eqb (n_id n) id) l
                    = existsb (fun i => String.eqb i id) (map n_id l)) as E.
  { induction l as [|x l IH]; simpl; congruence. }
  now rewrite !E, H.
Qed.

Lemma bst_mark_instance_total gene nt t :
  has_node (BadSurvivalTree.gene_node_id gene t) nt = true ->
  exists nt', BadSurvivalTree.mark_instance gene nt t = Some nt'
              /\ forall id, has_node id nt' = has_node id nt.
Proof.
  intros H. unfold BadSurvivalTree.mark_instance, update_node.
  destruct (@update_first_Some (BadSurvivalTree.gene_node_id gene t)
              (fun n => {| n_id := n_id n; n_shape := Diamond;
                           n_size := n_size n * (3 # 2) |}) (nodes nt))
    as [l' [E Hm]]; auto.
  rewrite E. eexists. split; [reflexivity|].
  intros id. now apply has_node_ids.
Qed.

Lemma bst_mark_cross_gene_total st nt item :
  instances_drawn st -> dict_wf (BadSurvivalTree.gene_tumors st) ->
  In item (dict_items (BadSurvivalTree.gene_tumors st)) ->
  (forall id, has_node id nt = has_node id (BadSurvivalTree.net st)) ->
  exists nt', BadSurvivalTree.mark_cross_gene nt item = Some nt'
              /\ forall id, has_node id nt' = has_node id (BadSurvivalTree.net st).
Proof.
  intros [_ Hi] Hwf Hin Hsame. destruct item as [gene tumors].
  unfold BadSurvivalTree.mark_cross_gene.
  destruct (1 <? List.length tumors)%nat; [|eauto].
  assert (tumors_of gene (BadSurvivalTree.gene_tumors st) = tumors) as Ht.
  { unfold tumors_of. unfold dict_items in Hin.
    now rewrite (In_dict_get _ _ Hwf Hin). }
  apply (foldM_total
           (fun a => forall id, has_node id a = has_node id (BadSurvivalTree.net st))
           (BadSurvivalTree.mark_instance gene) tumors); auto.
  intros t a Hin' Ha.
  destruct (@bst_mark_instance_total gene a t) as [b [Hb Hb']].
  - rewrite Ha. apply Hi. now rewrite Ht.
  - exists b. split; auto. intros id. now rewrite Hb'.
Qed.

(** [create_survival_tree] raises nothing when the score range is not
    degenerate. *)
Lemma bst_create_survival_tree_returns s counts d :
  ~ min_correlation s == 1 ->
  exists nt counts' log,
    BadSurvivalTree.create_survival_tree s counts d = Some (nt, counts', log).
Proof.
  intros Hmin. assert (~ 1 - min_correlation s == 0) as Hd by lra.
  unfold BadSurvivalTree.create_survival_tree, BadSurvivalTree.build_branches.
  match goal with |- context [foldM (BadSurvivalTree.add_tumor_branch s) ?l ?x] =>
    destruct (foldM_total
                (fun a => instances_drawn a /\ dict_wf (BadSurvivalTree.gene_tumors a))
                (BadSurvivalTree.add_tumor_branch s) l) with (st := x)
      as [st [E1 [Hi Hwf]]]
  end.
  - intros item a _ [H1 H2]. now apply bst_add_tumor_branch_total.
  - split; [|constructor]. split; [reflexivity|]. intros g t [].
  - rewrite E1.
    destruct (foldM_total
                (fun a => forall id, has_node id a = has_node id (BadSurvivalTree.net st))
                BadSurvivalTree.mark_cross_gene
                (dict_items (BadSurvivalTree.gene_tumors st)))
      with (st := BadSurvivalTree.net st) as [nt [E2 _]]; auto.
    + intros item a Hitem Ha. now apply bst_mark_cross_gene_total.
    + rewrite E2. eauto.
Qed.

(** [run] of the survival-tree visualizer builds a network for every data
    directory whose files, where they can be read, are well-formed tables,
    as long as [min_correlation] is not 1. *)
Lemma bst_run_returns s read_csv tumor_types :
  ~ min_correlation s == 1 ->
  exists nt counts' log,
    BadSurvivalTree.run s read_csv tumor_types = Some (nt, counts', log).
Proof.
  intros Hmin. unfold BadSurvivalTree.run.
  now apply bst_create_survival_tree_returns.
Qed.

(** ** The survival tree on tables without recurring genes *)

Lemma rows_of_NoDup g l :
  NoDup (map gene_symbol l) ->
  List.length (rows_of g l) = if has_gene g l then 1%nat else 0%nat.
Proof.
  unfold rows_of, has_gene. induction l as [|r l IH]; simpl; auto.
  intros Hnd. inversion Hnd as [|? ? Hni Hnd']; subst.
  destruct (String.eqb_spec (gene_symbol r) g) as [Hg|Hg]; simpl; auto.
  rewrite (IH Hnd').
  destruct (existsb (fun row => String.eqb (gene_symbol row) g) l) eqn:E; auto.
  exfalso. apply Hni. apply existsb_exists in E. destruct E as [x [Hx Hxg]].
  apply String.eqb_eq in Hxg. apply in_map_iff. exists x. split; congruence.
Qed.

Lemma nlargest_NoDup n df :
  NoDup (map gene_symbol df) -> NoDup (map gene_symbol (nlargest n df)).
Proof.
  intros H. unfold nlargest.
  assert (NoDup (map gene_symbol (sort_values_desc df))) as Hs.
  { apply Permutation_NoDup with (l := map gene_symbol df); auto.
    apply Permutation_map. symmetry. apply sort_values_desc_perm. }
  rewrite <- (firstn_skipn n (sort_values_desc df)) in Hs.
  rewrite map_app in Hs. now apply NoDup_app_remove_r in Hs.
Qed.

Lemma tracked_tumors_capped s g d :
  no_recurrence d -> tracked_tumors s g d = tumors_with g (capped s d).
Proof.
  unfold tracked_tumors, tumors_with, capped, no_recurrence.
  induction d as [|[t df] d IH]; intros H; simpl; auto.
  rewrite IH by (intros t' df' Hin; apply (H t' df'); now right).
  pose proof (@rows_of_NoDup g (nlargest (max_genes_per_tumor s) df)
                (@nlargest_NoDup (max_genes_per_tumor s) df
                   (H t df (or_introl eq_refl)))) as Hlen.
  destruct (has_gene g (nlargest (max_genes_per_tumor s) df)); simpl.
  - destruct (rows_of g (nlargest (max_genes_per_tumor s) df)) as [|r [|r' l]];
      simpl in *; try discriminate. reflexivity.
  - destruct (rows_of g (nlargest (max_genes_per_tumor s) df)); simpl in *;
      [reflexivity|discriminate].
Qed.

Lemma capped_wf s d : dict_wf d -> dict_wf (capped s d).
Proof.
  unfold dict_wf, dict_keys, capped. rewrite map_map. simpl. auto.
Qed.

(** X4.  When no gene recurs inside a table, [create_survival_tree] classes a
    gene as cross-tumor exactly when it is among the top rows of the tables
    of two different tumor types. *)
Theorem bst_cross_tumor_iff_without_recurrence s counts d st g :
  dict_wf d -> no_recurrence d ->
  BadSurvivalTree.build_branches s counts d = Some st ->
  (BadSurvivalTree.is_cross_tumor (BadSurvivalTree.gene_tumors st) g = true
   <-> in_several_tumors g (capped s d)).
Proof.
  intros Hwf Hrec Hb. rewrite (@bst_is_cross_tumor_rows s counts d st g Hb).
  rewrite tracked_tumors_capped by assumption. rewrite Nat.ltb_lt.
  apply several_length. now apply capped_wf.
Qed.


(** * Further properties of the two visualizers *)

(** ** Concrete dictionaries are well formed *)

Lemma example_data_wf : dict_wf example_data.
Proof. repeat constructor; simpl; intuition discriminate. Qed.

Lemma recurring_data_wf : dict_wf recurring_data.
Proof. repeat constructor; simpl; intuition discriminate. Qed.

Lemma data_with_empty_wf : dict_wf data_with_empty.
Proof. repeat constructor; simpl; intuition discriminate. Qed.

(** ** The two constructions raise nothing on well-formed tables *)

(** X2.  [create_network] raises nothing: on every mapping of discovered
    tumor types to tables (rows of a text gene symbol and a numeric PCC, the
    tables of the model), whatever the scores and the counters, it returns a
    network, as long as [min_correlation] is not 1. *)
Theorem tn_create_network_raises_nothing (s : Settings) (tumor_types : list string)
  (counts : PyDict nat) (tumor_data : PyDict DataFrame) :
  ~ min_correlation s == 1 ->
  dict_wf tumor_data ->
  (forall t, dict_mem t tumor_data = true -> In t tumor_types) ->
  exists nt counts',
    TumorNetwork.create_network s tumor_types counts tumor_data = Some (nt, counts').
Proof.
  intros Hmin Hwf Hkeys.
  exact (@tn_create_network_returns s tumor_types counts tumor_data Hmin Hwf Hkeys).
Qed.

Lemma tn_create_network_raises_nothing_witness :
  exists nt counts',
    TumorNetwork.create_network TumorNetwork.default_settings ["A"; "B"; "C"] []
                                recurring_data = Some (nt, counts').
Proof.
  apply tn_create_network_raises_nothing.
  - simpl. discriminate.
  - exact recurring_data_wf.
  - intros t Hm. apply dict_mem_In in Hm. simpl in Hm.
    destruct Hm as [<-|[]]. simpl. auto.
Defined.



Lemma bst_tracked_iff_in_top_rows_witness :
  exists st,
    BadSurvivalTree.build_branches (with_cap 1 BadSurvivalTree.default_settings) []
                                   example_data = Some st
    /\ (In "A" (tumors_of "g2" (BadSurvivalTree.gene_tumors st)) <->
        exists df, In ("A", df) example_data
                   /\ has_gene "g2" (nlargest 1 df) = true).
Proof.
  evaluate_as E (BadSurvivalTree.build_branches
                   (with_cap 1 BadSurvivalTree.default_settings) [] example_data).
  eexists. split; [exact E|].
  exact (@bst_tracked_iff_in_top_rows (with_cap 1 BadSurvivalTree.default_settings)
           [] example_data _ "g2" "A" E).
Defined.

Lemma example_data_no_recurrence : no_recurrence example_data.
Proof.
  intros t df [H|[H|[]]]; injection H as <- <-; simpl;
    repeat constructor; simpl; intuition discriminate.
Qed.

Lemma bst_cross_tumor_iff_without_recurrence_witness :
  exists st,
    BadSurvivalTree.build_branches BadSurvivalTree.default_settings [] example_data
    = Some st
    /\ (BadSurvivalTree.is_cross_tumor (BadSurvivalTree.gene_tumors st) "g1" = true
        <-> in_several_tumors "g1" (capped BadSurvivalTree.default_settings example_data)).
Proof.
  evaluate_as E (BadSurvivalTree.build_branches BadSurvivalTree.default_settings []
                   example_data).
  eexists. split; [exact E|].
  exact (@bst_cross_tumor_iff_without_recurrence BadSurvivalTree.default_settings
           [] example_data _ "g1" example_data_wf example_data_no_recurrence E).
Defined.

(** ** More on [load_all_data] *)

(** X5.  The returned mapping holds nothing but filtered tables of discovered
    tumor types whose file could be read, and each of their rows passes the
    threshold. *)
Theorem load_all_data_only_readable (read_csv : string -> CsvFile) (s : Settings)
  (tumor_types : list string) (counts : PyDict nat) (t : string) (df : DataFrame) :
  In (t, df) (all_data (load_all_data read_csv s tumor_types counts)) ->
  In t tumor_types
  /\ (exists df0, read_csv t = Readable df0
                  /\ df = filter_pcc_ge (min_correlation s) df0)
  /\ Forall (fun row => min_correlation s <= PCC row) df.
Proof.
  intros Hin.
  destruct (@load_all_data_tables read_csv s tumor_types counts t df Hin) as [Ht Hall].
  split; auto. split; auto.
  apply In_dict_get in Hin; [|apply load_all_data_wf].
  rewrite load_all_data_get in Hin.
  destruct (read_csv t) as [| |df0]; try discriminate.
  destruct (existsb (String.eqb t) tumor_types); try discriminate.
  injection Hin as <-. eauto.
Qed.

Lemma load_all_data_only_readable_witness :
  In "A" ["B"; "A"]
  /\ (exists df0, example_files "A" = Readable df0
                  /\ table_A = filter_pcc_ge (1 # 2) df0)
  /\ Forall (fun row => 1 # 2 <= PCC row) table_A.
Proof.
  apply (@load_all_data_only_readable example_files TumorNetwork.default_settings
           ["B"; "A"] [] "A" table_A).
  simpl. left. reflexivity.
Defined.

Lemma load_fold_keys read_csv s l : forall st,
  NoDup l ->
  (forall t, In t l -> ~ In t (dict_keys (all_data st))) ->
  dict_keys (all_data (fold_left (load_one read_csv s) l st)) =
  dict_keys (all_data st) ++ filter (fun t => is_readable (read_csv t)) l.
Proof.
  induction l as [|x l IH]; intros st Hnd Hfresh; simpl.
  - now rewrite app_nil_r.
  - inversion Hnd as [|? ? Hni Hnd']; subst.
    assert (dict_keys (all_data (load_one read_csv s st x)) =
            dict_keys (all_data st)
            ++ (if is_readable (read_csv x) then [x] else [])) as Hx.
    { unfold load_one. destruct (read_csv x) as [| |df]; simpl;
        try now rewrite app_nil_r.
      rewrite dict_keys_set.
      destruct (dict_mem x (all_data st)) eqn:E; auto.
      apply dict_mem_In in E. exfalso. apply (Hfresh x); auto. now left. }
    rewrite IH; auto.
    + rewrite Hx. rewrite <- app_assoc. now destruct (is_readable (read_csv x)).
    + intros t Ht. rewrite Hx, in_app_iff. intros [H|H].
      * apply (Hfresh t); auto. now right.
      * destruct (is_readable (read_csv x)); [|destruct H].
        destruct H as [<-|[]]. contradiction.
Qed.

(** X6.  When the discovered tumor types are distinct, the returned mapping
    lists the readable ones in the order of discovery. *)
Theorem load_all_data_keys_in_discovery_order (read_csv : string -> CsvFile)
  (s : Settings) (tumor_types : list string) (counts : PyDict nat) :
  NoDup tumor_types ->
  dict_keys (all_data (load_all_data read_csv s tumor_types counts)) =
  filter (fun t => is_readable (read_csv t)) tumor_types.
Proof.
  intros Hnd. unfold load_all_data. rewrite load_fold_keys; auto.
Qed.

Lemma load_all_data_keys_in_discovery_order_witness :
  dict_keys (all_data (load_all_data example_directory TumorNetwork.default_settings
                                     ["B"; "C"; "A"] []))
  = filter (fun t => is_readable (example_directory t)) ["B"; "C"; "A"].
Proof.
  apply load_all_data_keys_in_discovery_order.
  repeat constructor; simpl; intuition discriminate.
Defined.

Lemma filter_pcc_ge_compose a b df :
  a <= b -> filter_pcc_ge b (filter_pcc_ge a df) = filter_pcc_ge b df.
Proof.
  intros Hab. unfold filter_pcc_ge. induction df as [|r df IH]; simpl; auto.
  destruct (Qle_bool a (PCC r)) eqn:Ea; simpl.
  - now rewrite IH.
  - rewrite IH. destruct (Qle_bool b (PCC r)) eqn:Eb; auto.
    apply Qle_bool_iff in Eb.
    assert (Qle_bool a (PCC r) = true) as C.
    { apply Qle_bool_iff. eapply Qle_trans; eauto. }
    congruence.
Qed.

(** X7.  Raising the threshold afterwards gives the tables of a load with the
    higher threshold: filtering the tables loaded with [min_correlation = a]
    by [b >= a] yields the tables loaded with [min_correlation = b]. *)
Theorem load_all_data_threshold_composes (read_csv : string -> CsvFile)
  (sa sb : Settings) (tumor_types : list string) (counts : PyDict nat) (t : string) :
  min_correlation sa <= min_correlation sb ->
  dict_get t (all_data (load_all_data read_csv sb tumor_types counts)) =
  option_map (filter_pcc_ge (min_correlation sb))
             (dict_get t (all_data (load_all_data read_csv sa tumor_types counts))).
Proof.
  intros Hab. rewrite !load_all_data_get.
  destruct (read_csv t) as [| |df]; auto.
  destruct (existsb (String.eqb t) tumor_types); simpl; auto.
  now rewrite filter_pcc_ge_compose.
Qed.

Lemma load_all_data_threshold_composes_witness :
  dict_get "A" (all_data (load_all_data example_directory
                            (mkSettings (7 # 10) 1000 (3, 10) (3 # 10, 3 # 2))
                            ["A"; "B"] []))
  = option_map (filter_pcc_ge (7 # 10))
      (dict_get "A" (all_data (load_all_data example_directory
                                 TumorNetwork.default_settings ["A"; "B"] []))).
Proof.
  apply (@load_all_data_threshold_composes example_directory
           TumorNetwork.default_settings
           (mkSettings (7 # 10) 1000 (3, 10) (3 # 10, 3 # 2)) ["A"; "B"] [] "A").
  simpl. discriminate.
Defined.

Lemma load_fold_log_exact read_csv s l : forall st,
  load_log (fold_left (load_one read_csv s) l st) =
  load_log st ++ map (load_record read_csv s) l.
Proof.
  induction l as [|x l IH]; intros st; simpl.
  - now rewrite app_nil_r.
  - rewrite IH. unfold load_one, load_record.
    destruct (read_csv x); simpl; now rewrite <- app_assoc.
Qed.

Lemma load_fold_counts read_csv s t l : forall st,
  dict_get t (load_counts (fold_left (load_one read_csv s) l st)) =
  match read_csv t with
  | ReadFails => dict_get t (load_counts st)
  | _ => if existsb (String.eqb t) l then Some 0%nat
         else dict_get t (load_counts st)
  end.
Proof.
  induction l as [|x l IH]; intros st; simpl.
  - now destruct (read_csv t).
  - rewrite IH.
    destruct (String.eqb_spec t x) as [<-|Hne]; simpl.
    + unfold load_one. destruct (read_csv t) eqn:E; simpl; auto;
        rewrite dict_get_set_same; now destruct (existsb (String.eqb t) l).
    + assert (dict_get t (load_counts (load_one read_csv s st x))
              = dict_get t (load_counts st)) as Hx.
      { unfold load_one. destruct (read_csv x); simpl; auto;
          apply dict_get_set_other; congruence. }
      rewrite Hx. reflexivity.
Qed.

(** ** Discovery of the tumor types *)

Lemma discover_tumor_types_map data_files :
  discover_tumor_types data_files = map tumor_name data_files.
Proof.
  unfold discover_tumor_types.
  assert (forall acc, fold_left (fun tumor_types file_path =>
                                   tumor_types ++ [tumor_name file_path])
                                data_files acc
                      = acc ++ map tumor_name data_files) as H.
  { induction data_files as [|p l IH]; intros acc; simpl.
    - now rewrite app_nil_r.
    - rewrite IH. now rewrite <- app_assoc. }
  apply H.
Qed.

Lemma prefix_cons a b s1 s2 :
  String.prefix (String a s1) (String b s2) = Ascii.eqb a b && String.prefix s1 s2.
Proof.
  cbn [String.prefix]. destruct (Ascii.ascii_dec a b) as [->|Hne].
  - now rewrite Ascii.eqb_refl.
  - apply Ascii.eqb_neq in Hne. now rewrite Hne.
Qed.

Lemma prefix_nil_r a s1 : String.prefix (String a s1) EmptyString = false.
Proof. reflexivity. Qed.

Lemma prefix_csv_app name :
  name <> EmptyString ->
  String.prefix ".csv" (name ++ ".csv") = String.prefix ".csv" name.
Proof.
  destruct name as [|c1 [|c2 [|c3 [|c4 r]]]]; intros Hne;
    cbn [String.append]; try congruence;
    rewrite ?prefix_cons, ?prefix_nil_r;
    repeat match goal with
           | |- context [Ascii.eqb ?a ?b] =>
               is_var b; destruct (Ascii.eqb_spec a b); subst
           end; cbn [String.prefix andb]; try reflexivity.
  now destruct r.
Qed.

Lemma replace_csv_plain name :
  str_contains ".csv" name = false ->
  str_replace ".csv" "" (name ++ ".csv") = name.
Proof.
  unfold str_replace. induction name as [|c name IH]; intros H.
  - reflexivity.
  - cbn [str_contains] in H. apply orb_false_elim in H. destruct H as [Hp Hc].
    change ((String c name ++ ".csv")%string) with (String c (name ++ ".csv")).
    cbn [replace_from].
    change (String c (name ++ ".csv")) with ((String c name ++ ".csv")%string).
    rewrite prefix_csv_app by discriminate. rewrite Hp. now rewrite IH.
Qed.

Lemma str_contains_char_app c a b :
  str_contains_char c (a ++ b) = str_contains_char c a || str_contains_char c b.
Proof.
  induction a as [|x a IH]; simpl; auto. now rewrite IH, orb_assoc.
Qed.

Lemma basename_app_slash a b :
  str_contains_char "/" b = false -> basename (a ++ "/" ++ b) = b.
Proof.
  intros Hb. induction a as [|c a IH].
  - cbn [String.append basename]. rewrite Hb. reflexivity.
  - cbn [String.append basename].
    change (str_contains_char "/" (a ++ String "/" b))
      with (str_contains_char "/" (a ++ "/" ++ b)).
    rewrite str_contains_char_app. cbn [String.append str_contains_char].
    rewrite Ascii.eqb_refl. cbn [orb]. rewrite orb_true_r. exact IH.
Qed.

Lemma basename_no_slash b : str_contains_char "/" b = false -> basename b = b.
Proof.
  destruct b as [|c b]; auto. cbn [str_contains_char basename].
  intros H. apply orb_false_elim in H. destruct H as [Hc Hb].
  now rewrite Hb, Hc.
Qed.

Lemma ends_with_slash_app a :
  ends_with_slash a = true -> exists a', a = (a' ++ "/")%string.
Proof.
  induction a as [|c a IH]; [discriminate|].
  destruct a as [|c' a].
  - cbn [ends_with_slash]. intros H. apply Ascii.eqb_eq in H. subst.
    now exists EmptyString.
  - intros H. destruct (IH H) as [a' E]. exists (String c a').
    cbn [String.append]. now rewrite <- E.
Qed.

Lemma string_app_assoc (a b c : string) : ((a ++ b) ++ c = a ++ (b ++ c))%string.
Proof. induction a as [|x a IH]; simpl; congruence. Qed.

Lemma string_app_length (a b : string) :
  String.length (a ++ b) = (String.length a + String.length b)%nat.
Proof. induction a as [|x a IH]; simpl; congruence. Qed.

Lemma no_leading_slash name :
  str_contains_char "/" name = false -> String.prefix "/" (name ++ ".csv") = false.
Proof.
  destruct name as [|c r]; cbn [String.append str_contains_char]; intros H.
  - reflexivity.
  - apply orb_false_elim in H. destruct H as [Hc _].
    rewrite prefix_cons. rewrite Ascii.eqb_sym, Hc. reflexivity.
Qed.

(** The base name of the file that [load_all_data] reads. *)
Lemma basename_csv_path data_dir name :
  str_contains_char "/" name = false ->
  basename (csv_path data_dir name) = (name ++ ".csv")%string.
Proof.
  intros H. unfold csv_path, os_path_join. rewrite (no_leading_slash name H).
  assert (str_contains_char "/" (name ++ ".csv") = false) as Hb.
  { rewrite str_contains_char_app, H. reflexivity. }
  destruct (String.length data_dir =? 0)%nat eqn:E0; cbn [orb].
  - apply Nat.eqb_eq in E0. destruct data_dir; [|discriminate].
    now apply basename_no_slash.
  - destruct (ends_with_slash data_dir) eqn:Es.
    + destruct (ends_with_slash_app _ Es) as [a' ->].
      rewrite string_app_assoc. now apply basename_app_slash.
    + now apply basename_app_slash.
Qed.

(** X9.  Discovery and loading agree on plainly named files.  For file names
    without a slash and without ".csv" inside, the tumor types discovered
    from the files [<data_dir>/<name>.csv] are these names, in order, so
    [load_all_data] reads back exactly the discovered files. *)
Theorem discover_plain_names (data_dir : string) (names : list string) :
  Forall plain_name names ->
  discover_tumor_types (map (csv_path data_dir) names) = names
  /\ map (csv_path data_dir) (discover_tumor_types (map (csv_path data_dir) names))
     = map (csv_path data_dir) names.
Proof.
  intros H.
  assert (discover_tumor_types (map (csv_path data_dir) names) = names) as E.
  { rewrite discover_tumor_types_map, map_map.
    induction H as [|name names [Hs Hc] _ IH]; simpl; auto.
    rewrite IH. unfold tumor_name. rewrite basename_csv_path by assumption.
    now rewrite replace_csv_plain. }
  split; auto. now rewrite E.
Qed.

Lemma discover_plain_names_witness :
  discover_tumor_types (map (csv_path "data") ["ACC Tumor"; "BRCA Tumor"])
  = ["ACC Tumor"; "BRCA Tumor"]
  /\ map (csv_path "data")
         (discover_tumor_types (map (csv_path "data") ["ACC Tumor"; "BRCA Tumor"]))
     = map (csv_path "data") ["ACC Tumor"; "BRCA Tumor"].
Proof.
  apply discover_plain_names.
  repeat constructor.
Defined.

Lemma prefix_csv_inv s :
  String.prefix ".csv" s = true -> exists r, s = (".csv" ++ r)%string.
Proof.
  destruct s as [|c1 [|c2 [|c3 [|c4 r]]]];
    rewrite ?prefix_cons, ?prefix_nil_r;
    repeat match goal with
           | |- context [Ascii.eqb ?a ?b] =>
               is_var b; destruct (Ascii.eqb_spec a b); subst
           end; cbn [andb]; try discriminate.
  intros _. now exists r.
Qed.

Lemma replace_csv_length n : forall name,
  (String.length name <= n)%nat ->
  (String.length (str_replace ".csv" "" (name ++ ".csv")) <= String.length name)%nat
  /\ (str_contains ".csv" name = true ->
      (String.length (str_replace ".csv" "" (name ++ ".csv")) + 4
       <= String.length name)%nat).
Proof.
  unfold str_replace. induction n as [|n IH]; intros name Hn.
  - destruct name; [|simpl in Hn; lia]. split; [simpl; lia | discriminate].
  - destruct name as [|c rest]; [split; [simpl; lia | discriminate]|].
    change ((String c rest ++ ".csv")%string) with (String c (rest ++ ".csv")).
    cbn [replace_from str_contains].
    change (String c (rest ++ ".csv")) with ((String c rest ++ ".csv")%string).
    rewrite prefix_csv_app by discriminate.
    destruct (String.prefix ".csv" (String c rest)) eqn:Ep.
    + destruct (prefix_csv_inv _ Ep) as [r Er]. injection Er as -> ->.
      cbn [String.length String.append Nat.sub replace_from].
      destruct (IH r) as [H1 _]; [simpl in Hn; lia|].
      split; [|intros _]; simpl; lia.
    + destruct (IH rest) as [H1 H2]; [simpl in Hn; lia|].
      cbn [orb String.length]. split; [lia|]. intros Hc. specialize (H2 Hc). lia.
Qed.

Lemma replace_from_no_new_char c old s : forall k,
  str_contains_char c (replace_from k old "" s) = true ->
  str_contains_char c s = true.
Proof.
  induction s as [|x s IH]; intros k; cbn [replace_from str_contains_char]; auto.
  destruct k as [|k].
  - destruct (String.prefix old (String x s)).
    + cbn [String.append]. intros H. apply IH in H. rewrite H. apply orb_true_r.
    + cbn [str_contains_char]. intros H. apply orb_prop in H.
      destruct H as [H|H]; [now rewrite H|].
      apply IH in H. rewrite H. apply orb_true_r.
  - intros H. apply IH in H. rewrite H. apply orb_true_r.
Qed.

Lemma csv_path_length data_dir name :
  str_contains_char "/" name = false ->
  String.length (csv_path data_dir name) =
  (String.length (os_path_join data_dir "") + String.length name + 4)%nat.
Proof.
  intros H. unfold csv_path, os_path_join. rewrite (no_leading_slash name H).
  replace (String.prefix "/" "") with false by reflexivity.
  destruct ((String.length data_dir =? 0)%nat || ends_with_slash data_dir);
    rewrite !string_app_length; simpl; lia.
Qed.

(** X10.  A file whose name holds ".csv" before its extension is discovered
    under a shorter name, because [replace] removes every ".csv"; the file
    that [load_all_data] then reads is another one. *)
Theorem discover_name_with_inner_extension (data_dir name : string) :
  str_contains_char "/" name = false ->
  str_contains ".csv" name = true ->
  let discovered := tumor_name (csv_path data_dir name) in
  (String.length discovered + 4 <= String.length name)%nat
  /\ csv_path data_dir discovered <> csv_path data_dir name.
Proof.
  intros Hs Hc discovered. subst discovered. unfold tumor_name.
  rewrite basename_csv_path by assumption.
  destruct (replace_csv_length (n := String.length name) name (Nat.le_refl _))
    as [_ Hlen].
  specialize (Hlen Hc). split; auto.
  intros E. apply (f_equal String.length) in E.
  rewrite !csv_path_length in E; auto; [lia|].
  destruct (str_contains_char "/" (str_replace ".csv" "" (name ++ ".csv"))) eqn:Ex; auto.
  unfold str_replace in Ex. apply replace_from_no_new_char in Ex.
  rewrite str_contains_char_app, Hs in Ex. discriminate Ex.
Qed.

Lemma discover_name_with_inner_extension_witness :
  (String.length (tumor_name (csv_path "data" "ACC.csv.old")) + 4
   <= String.length "ACC.csv.old")%nat
  /\ csv_path "data" (tumor_name (csv_path "data" "ACC.csv.old"))
     <> csv_path "data" "ACC.csv.old".
Proof.
  apply (@discover_name_with_inner_extension "data" "ACC.csv.old"); reflexivity.
Defined.

(** ** [load_all_data] as a whole *)

(** X8.  [load_all_data] first discovers the tumor types, logging one line
    per file found, in the order of the files; its loop then reports every
    discovered tumor type exactly once and in the same order: the number of
    rows kept for a readable file, an error otherwise; and afterwards the
    counter of a tumor type is 0 unless its file could not be read at all or
    it was not discovered, in which case it is left as it was. *)
Theorem load_all_data_report (data_files : list string)
  (read_csv : string -> CsvFile) (s : Settings) (counts : PyDict nat) (t : string) :
  let result := load_all_data_of_files data_files read_csv s counts in
  let tumor_types := map tumor_name data_files in
  found_types result = tumor_types
  /\ events result =
     map Discovered tumor_types
     ++ map (fun tumor_type => Loading (load_record read_csv s tumor_type)) tumor_types
  /\ dict_get t (load_counts (loaded result)) =
     match read_csv t with
     | ReadFails => dict_get t counts
     | _ => if existsb (String.eqb t) tumor_types then Some 0%nat
            else dict_get t counts
     end.
Proof.
  intros result tumor_types. subst result tumor_types.
  unfold load_all_data_of_files. cbn [found_types events loaded].
  rewrite discover_tumor_types_map. split; [reflexivity|]. split.
  - f_equal. unfold load_all_data. rewrite load_fold_log_exact. simpl.
    now rewrite map_map.
  - unfold load_all_data. now rewrite load_fold_counts.
Qed.

(** ** More on the classification of [create_network] *)

Lemma length_one_iff (l : list string) :
  NoDup l ->
  (List.length l = 1%nat <-> exists t, In t l /\ forall t', In t' l -> t' = t).
Proof.
  intros Hnd. split.
  - destruct l as [|t [|t2 l]]; simpl; try discriminate.
    intros _. exists t. split; auto. intros t' [H|[]]; auto.
  - intros [t [Hin Hall]]. destruct l as [|a [|b l]]; simpl in *; auto.
    + destruct Hin.
    + exfalso. inversion Hnd as [|? ? Hni _]; subst.
      assert (a = t) as Ea by (apply Hall; now left).
      assert (b = t) as Eb by (apply Hall; right; now left).
      apply Hni. rewrite Ea, Eb. now left.
Qed.

(** X11.  Every gene is classed by the tables alone.  A gene is tumor-specific
    exactly when one tumor type, and no other, has a row for it; it is never
    both tumor-specific and cross-tumor; and it is one of the two exactly
    when some table has a row for it. *)
Theorem tn_classification_partition (tumor_data : PyDict DataFrame) (g : string) :
  dict_wf tumor_data ->
  let all_genes := TumorNetwork.collect_all_genes tumor_data in
  (TumorNetwork.is_tumor_specific all_genes g = true <->
   exists t, appears_in g t tumor_data
             /\ forall t', appears_in g t' tumor_data -> t' = t)
  /\ TumorNetwork.is_tumor_specific all_genes g
     && TumorNetwork.is_cross_tumor all_genes g = false
  /\ (TumorNetwork.is_tumor_specific all_genes g
      || TumorNetwork.is_cross_tumor all_genes g = true
      <-> exists t, appears_in g t tumor_data).
Proof.
  intros Hwf all_genes. subst all_genes.
  rewrite is_tumor_specific_length, is_cross_tumor_length by assumption.
  pose proof (tumors_with_NoDup g Hwf) as Hnd.
  split; [|split].
  - rewrite Nat.eqb_eq, (length_one_iff Hnd). split.
    + intros [t [Hin Hall]]. exists t. split; [now apply tumors_with_In|].
      intros t' Ht'. apply Hall. now apply tumors_with_In.
    + intros [t [Hin Hall]]. exists t. split; [now apply tumors_with_In|].
      intros t' Ht'. apply Hall. now apply tumors_with_In.
  - destruct (List.length (tumors_with g tumor_data)) as [|[|n]]; reflexivity.
  - split.
    + intros H. destruct (tumors_with g tumor_data) as [|t l] eqn:E;
        [discriminate|].
      exists t. apply tumors_with_In. rewrite E. now left.
    + intros [t Ht]. apply tumors_with_In in Ht.
      destruct (tumors_with g tumor_data) as [|a [|b l]]; [destruct Ht| |];
        reflexivity.
Qed.

Lemma tn_classification_partition_witness :
  let all_genes := TumorNetwork.collect_all_genes example_data in
  (TumorNetwork.is_tumor_specific all_genes "g2" = true <->
   exists t, appears_in "g2" t example_data
             /\ forall t', appears_in "g2" t' example_data -> t' = t)
  /\ TumorNetwork.is_tumor_specific all_genes "g2"
     && TumorNetwork.is_cross_tumor all_genes "g2" = false
  /\ (TumorNetwork.is_tumor_specific all_genes "g2"
      || TumorNetwork.is_cross_tumor all_genes "g2" = true
      <-> exists t, appears_in "g2" t example_data).
Proof. apply tn_classification_partition. exact example_data_wf. Defined.

(** ** Counters and edges of [create_survival_tree] *)

Lemma foldM_fold_left_inv {S A B : Type} (I : S -> Prop) (proj : S -> B)
  (step : B -> A -> B) (f : S -> A -> option S) (l : list A) :
  (forall x st st', I st -> f st x = Some st' ->
                    I st' /\ proj st' = step (proj st) x) ->
  forall st st', I st -> foldM f l st = Some st' ->
                 I st' /\ proj st' = fold_left step l (proj st).
Proof.
  intros H. induction l as [|x l IH]; intros st st' Hi Hf; simpl in *.
  - injection Hf as <-. auto.
  - destruct (f st x) as [st1|] eqn:E; [|discriminate].
    destruct (H _ _ _ Hi E) as [Hi1 Hp1].
    destruct (IH _ _ Hi1 Hf) as [Hi' Hp']. split; auto. now rewrite Hp', Hp1.
Qed.

Lemma bst_add_gene_node_counts s t st row st' :
  BadSurvivalTree.add_gene_node s t st row = Some st' ->
  BadSurvivalTree.gene_counts st' = BadSurvivalTree.gene_counts st.
Proof.
  unfold BadSurvivalTree.add_gene_node.
  destruct (BadSurvivalTree.size_scale s (PCC row)); [|discriminate].
  destruct (add_edge _ _); [|discriminate]. now intros [= <-].
Qed.

Lemma bst_add_tumor_branch_counts s st item st' :
  BadSurvivalTree.add_tumor_branch s st item = Some st' ->
  BadSurvivalTree.gene_counts st' =
  if df_empty (snd (snd item)) then BadSurvivalTree.gene_counts st
  else dict_set (fst (snd item))
         (List.length (nlargest (max_genes_per_tumor s) (snd (snd item))))
         (BadSurvivalTree.gene_counts st).
Proof.
  destruct item as [idx [t df]]. unfold BadSurvivalTree.add_tumor_branch. simpl.
  destruct (df_empty df).
  - now intros [= <-].
  - destruct (add_edge _ _) as [net2|]; [|discriminate]. intros Hf.
    apply (foldM_fold_left BadSurvivalTree.gene_counts (fun c (_ : Row) => c)) in Hf.
    + rewrite Hf. simpl. clear Hf.
      generalize (dict_set t (List.length (nlargest (max_genes_per_tumor s) df))
                    (BadSurvivalTree.gene_counts st)).
      induction (nlargest (max_genes_per_tumor s) df); simpl; auto.
    + intros row a b. apply bst_add_gene_node_counts.
Qed.

Lemma branch_counts_other (cap : nat) t (d : PyDict DataFrame) : forall counts,
  ~ In t (dict_keys d) ->
  dict_get t
    (fold_left (fun c (item : string * DataFrame) =>
                  if df_empty (snd item) then c
                  else dict_set (fst item) (List.length (nlargest cap (snd item))) c)
               d counts)
  = dict_get t counts.
Proof.
  induction d as [|[t0 df0] d IH]; intros counts Hni; simpl; auto.
  rewrite IH by (intros H; apply Hni; now right).
  destruct (df_empty df0); auto. simpl.
  apply dict_get_set_other. intros ->. apply Hni. now left.
Qed.

Lemma branch_counts_get (cap : nat) t df (d : PyDict DataFrame) : forall counts,
  dict_wf d -> In (t, df) d ->
  dict_get t
    (fold_left (fun c (item : string * DataFrame) =>
                  if df_empty (snd item) then c
                  else dict_set (fst item) (List.length (nlargest cap (snd item))) c)
               d counts)
  = if df_empty df then dict_get t counts
    else Some (List.length (nlargest cap df)).
Proof.
  unfold dict_wf. induction d as [|[t0 df0] d IH]; intros counts Hwf Hin;
    [destruct Hin|].
  simpl in Hwf. inversion Hwf as [|? ? Hni Hwf']; subst.
  destruct Hin as [E|Hin].
  - injection E as -> ->. simpl. rewrite branch_counts_other by assumption.
    destruct (df_empty df); auto. apply dict_get_set_same.
  - simpl. rewrite IH by assumption.
    destruct (df_empty df); auto. destruct (df_empty df0); auto. simpl.
    apply dict_get_set_other. intros ->. apply Hni.
    apply (in_map fst) in Hin. exact Hin.
Qed.

Lemma bst_gene_counts_general (s : Settings) (counts : PyDict nat)
  (tumor_data : PyDict DataFrame) (nt : Network) (counts' : PyDict nat)
  (log : list LogRecord) (t : string) (df : DataFrame) :
  dict_wf tumor_data ->
  In (t, df) tumor_data ->
  BadSurvivalTree.create_survival_tree s counts tumor_data = Some (nt, counts', log) ->
  dict_get t counts' =
  if df_empty df then dict_get t counts
  else Some (Nat.min (max_genes_per_tumor s) (List.length df)).
Proof.
  intros Hwf Hin. unfold BadSurvivalTree.create_survival_tree,
    BadSurvivalTree.build_branches.
  destruct (foldM (BadSurvivalTree.add_tumor_branch s) _ _) as [st|] eqn:E1;
    [|discriminate].
  destruct (foldM BadSurvivalTree.mark_cross_gene _ _); [|discriminate].
  intros [= _ <- _].
  pose (step := fun (c : PyDict nat) (item : string * DataFrame) =>
                  if df_empty (snd item) then c
                  else dict_set (fst item)
                         (List.length (nlargest (max_genes_per_tumor s) (snd item))) c).
  apply (foldM_fold_left BadSurvivalTree.gene_counts
           (fun c (x : nat * (string * DataFrame)) => step c (snd x))) in E1.
  - rewrite E1. unfold enumerate, dict_items. cbn [BadSurvivalTree.gene_counts].
    rewrite (fold_left_enumerate step tumor_data 0 counts). unfold step.
    rewrite (@branch_counts_get (max_genes_per_tumor s) t df tumor_data counts Hwf Hin).
    now rewrite nlargest_length.
  - intros x a b H. unfold step. now apply bst_add_tumor_branch_counts.
Qed.

(** X12.  The counters of the survival tree.  For a tumor type with rows,
    [gene_counts] ends as the number of its rows, capped by
    [max_genes_per_tumor]; for a tumor type with an empty table the counter
    is left as it was. *)
Theorem bst_gene_counts (s : Settings) (counts : PyDict nat)
  (tumor_data : PyDict DataFrame) (nt : Network) (counts' : PyDict nat)
  (log : list LogRecord) (t : string) (df : DataFrame) :
  dict_wf tumor_data ->
  In (t, df) tumor_data ->
  BadSurvivalTree.create_survival_tree s counts tumor_data = Some (nt, counts', log) ->
  dict_get t counts' =
  if df_empty df then dict_get t counts
  else Some (Nat.min (max_genes_per_tumor s) (List.length df)).
Proof.
  intros Hwf Hin Hc.
  exact (@bst_gene_counts_general s counts tumor_data nt counts' log t df Hwf Hin Hc).
Qed.

Lemma bst_gene_counts_witness :
  exists nt counts' log,
    BadSurvivalTree.create_survival_tree (with_cap 1 BadSurvivalTree.default_settings)
                                         [] example_data = Some (nt, counts', log)
    /\ dict_get "A" counts' = Some 1%nat.
Proof.
  evaluate_as E (BadSurvivalTree.create_survival_tree
                   (with_cap 1 BadSurvivalTree.default_settings) [] example_data).
  do 3 eexists. split; [exact E|].
  eapply (@bst_gene_counts (with_cap 1 BadSurvivalTree.default_settings) []
            example_data _ _ _ "A" table_A).
  - exact example_data_wf.
  - left. reflexivity.
  - exact E.
Defined.

Lemma add_edge_directed_append e nt nt' :
  directed nt = true -> add_edge e nt = Some nt' ->
  directed nt' = true /\ edges nt' = edges nt ++ [e].
Proof.
  intros Hd. unfold add_edge.
  destruct (has_node (e_from e) nt && has_node (e_to e) nt); [|discriminate].
  rewrite Hd. simpl. intros [= <-]. simpl. auto.
Qed.

Lemma py_div_Some a b q : py_div a b = Some q -> q = a / b.
Proof. unfold py_div. destruct (Qeq_bool b 0); [discriminate|]. now intros [= <-]. Qed.

Lemma fold_left_snoc_map {A B : Type} (f : A -> B) (l : list A) : forall acc,
  fold_left (fun es x => es ++ [f x]) l acc = acc ++ map f l.
Proof.
  induction l as [|x l IH]; intros acc; simpl.
  - now rewrite app_nil_r.
  - rewrite IH. now rewrite <- app_assoc.
Qed.

Lemma fold_left_app_flat_map {A B : Type} (f : A -> list B) (l : list A) : forall acc,
  fold_left (fun es x => es ++ f x) l acc = acc ++ flat_map f l.
Proof.
  induction l as [|x l IH]; intros acc; simpl.
  - now rewrite app_nil_r.
  - rewrite IH. now rewrite <- app_assoc.
Qed.

Lemma bst_add_gene_node_edges s t st row st' :
  directed (BadSurvivalTree.net st) = true ->
  BadSurvivalTree.add_gene_node s t st row = Some st' ->
  directed (BadSurvivalTree.net st') = true
  /\ edges (BadSurvivalTree.net st') =
     edges (BadSurvivalTree.net st)
     ++ [ {| e_from := t;
             e_to := BadSurvivalTree.gene_node_id (gene_symbol row) t;
             e_width := BadSurvivalTree.edge_width s
                          (interpolant (min_correlation s) 1 (PCC row)) |} ].
Proof.
  intros Hd. unfold BadSurvivalTree.add_gene_node.
  destruct (BadSurvivalTree.size_scale s (PCC row)) as [scale|] eqn:Es; [|discriminate].
  apply py_div_Some in Es. change (scale = interpolant (min_correlation s) 1 (PCC row)) in Es.
  subst scale.
  destruct (add_edge _ _) as [net2|] eqn:E; [|discriminate].
  intros [= <-]. simpl.
  apply add_edge_directed_append in E; [|now rewrite add_node_directed].
  now rewrite add_node_edges in E.
Qed.

Lemma bst_add_tumor_branch_edges s st item st' :
  directed (BadSurvivalTree.net st) = true ->
  BadSurvivalTree.add_tumor_branch s st item = Some st' ->
  directed (BadSurvivalTree.net st') = true
  /\ edges (BadSurvivalTree.net st') =
     edges (BadSurvivalTree.net st) ++ branch_edges s (snd item).
Proof.
  destruct item as [idx [t df]]. intros Hd.
  unfold BadSurvivalTree.add_tumor_branch, branch_edges. simpl.
  destruct (df_empty df).
  - intros [= <-]. simpl. now rewrite app_nil_r.
  - destruct (add_edge _ _) as [net2|] eqn:E; [|discriminate]. intros Hf.
    apply add_edge_directed_append in E; [|now rewrite add_node_directed].
    destruct E as [Hd2 He2]. rewrite add_node_edges in He2.
    apply (foldM_fold_left_inv
             (fun a => directed (BadSurvivalTree.net a) = true)
             (fun a => edges (BadSurvivalTree.net a))
             (fun es row =>
                es ++ [ {| e_from := t;
                           e_to := BadSurvivalTree.gene_node_id (gene_symbol row) t;
                           e_width := BadSurvivalTree.edge_width s
                                        (interpolant (min_correlation s) 1 (PCC row)) |} ]))
      in Hf; auto.
    + destruct Hf as [Hd' He']. split; auto. rewrite He'. simpl.
      rewrite fold_left_snoc_map, He2. now rewrite <- app_assoc.
    + intros row a b Ha Hstep. now apply bst_add_gene_node_edges.
Qed.

Lemma bst_mark_cross_gene_edges nt item nt' :
  BadSurvivalTree.mark_cross_gene nt item = Some nt' -> edges nt' = edges nt.
Proof.
  destruct item as [gene tumors]. unfold BadSurvivalTree.mark_cross_gene.
  destruct (1 <? List.length tumors)%nat; [|now intros [= <-]].
  intros Hf. revert Hf.
  apply (foldM_preorder (fun a b : Network => edges b = edges a)); auto.
  - intros a b c H1 H2. congruence.
  - intros t a b _. unfold BadSurvivalTree.mark_instance, update_node.
    destruct (update_first _ _ (nodes a)); [|discriminate]. now intros [= <-].
Qed.

(** The edges of the survival tree in the model, where [nlargest] keeps rows
    of equal PCC in table order. *)
Lemma bst_edges_by_nlargest (s : Settings) (counts : PyDict nat)
  (tumor_data : PyDict DataFrame) (nt : Network) (counts' : PyDict nat)
  (log : list LogRecord) :
  BadSurvivalTree.create_survival_tree s counts tumor_data = Some (nt, counts', log) ->
  edges nt = flat_map (branch_edges s) tumor_data.
Proof.
  unfold BadSurvivalTree.create_survival_tree, BadSurvivalTree.build_branches.
  destruct (foldM (BadSurvivalTree.add_tumor_branch s) _ _) as [st|] eqn:E1;
    [|discriminate].
  destruct (foldM BadSurvivalTree.mark_cross_gene _ _) as [nt1|] eqn:E2; [|discriminate].
  intros [= <- _ _].
  assert (edges nt1 = edges (BadSurvivalTree.net st)) as Hm.
  { revert E2. apply (foldM_preorder (fun a b : Network => edges b = edges a)); auto.
    - intros a b c H1 H2. congruence.
    - intros item a b _. apply bst_mark_cross_gene_edges. }
  rewrite Hm.
  apply (foldM_fold_left_inv
           (fun a => directed (BadSurvivalTree.net a) = true)
           (fun a => edges (BadSurvivalTree.net a))
           (fun es (x : nat * (string * DataFrame)) =>
              (fun es item => es ++ branch_edges s item) es (snd x))) in E1.
  - destruct E1 as [_ He]. rewrite He. unfold enumerate, dict_items.
    rewrite (fold_left_enumerate (fun es item => es ++ branch_edges s item)
               tumor_data 0).
    rewrite fold_left_app_flat_map. reflexivity.
  - intros x a b Ha Hstep. now apply bst_add_tumor_branch_edges.
  - reflexivity.
Qed.

(** ** Tables without equal scores *)

Lemma distinct_scores_perm df df' :
  Permutation df df' -> distinct_scores df -> distinct_scores df'.
Proof.
  intros Hp [Hnd Hd]. split.
  - now apply (Permutation_NoDup Hp).
  - intros a b Ha Hb. apply Hd; now apply (Permutation_in _ (Permutation_sym Hp)).
Qed.

Lemma distinct_scores_tail a df : distinct_scores (a :: df) -> distinct_scores df.
Proof.
  intros [Hnd Hd]. split.
  - now inversion Hnd.
  - intros x y Hx Hy. apply Hd; now right.
Qed.

Lemma descending_order_unique : forall l1 l2 : DataFrame,
  Permutation l1 l2 ->
  StronglySorted pcc_desc l1 -> StronglySorted pcc_desc l2 ->
  distinct_scores l1 ->
  l1 = l2.
Proof.
  induction l1 as [|a l1 IH]; intros l2 Hp H1 H2 Hd.
  - now apply Permutation_nil in Hp.
  - destruct l2 as [|b l2].
    { apply Permutation_sym, Permutation_nil in Hp. discriminate. }
    apply StronglySorted_inv in H1. destruct H1 as [H1 Ha].
    apply StronglySorted_inv in H2. destruct H2 as [H2 Hb].
    rewrite Forall_forall in Ha, Hb.
    assert (a = b) as <-.
    { assert (In a (b :: l2)) as Hin by (apply (Permutation_in _ Hp); now left).
      assert (In b (a :: l1)) as Hin'
        by (apply (Permutation_in _ (Permutation_sym Hp)); now left).
      destruct Hin as [->|Hin]; [reflexivity|].
      destruct Hin' as [->|Hin']; [reflexivity|].
      destruct Hd as [_ Hd]. apply Hd; [now left | now right |].
      pose proof (Ha b Hin') as Hba. pose proof (Hb a Hin) as Hab.
      unfold pcc_desc in Hba, Hab. lra. }
    f_equal. apply IH; auto.
    + now apply Permutation_cons_inv in Hp.
    + now apply distinct_scores_tail in Hd.
Qed.

(** On a table without equal scores the top rows do not depend on the
    sorting algorithm. *)
Lemma nlargest_by_any_sort (order : DataFrame -> DataFrame) n df :
  descending_sort order -> distinct_scores df ->
  firstn n (order df) = nlargest n df.
Proof.
  intros Ho Hd. destruct (Ho df) as [Hp Hs]. unfold nlargest. f_equal.
  apply descending_order_unique; auto.
  - rewrite Hp. symmetry. apply sort_values_desc_perm.
  - apply sort_values_desc_sorted.
  - apply (distinct_scores_perm (Permutation_sym Hp) Hd).
Qed.

Lemma sort_values_desc_descending : descending_sort sort_values_desc.
Proof.
  intros df. split; [apply sort_values_desc_perm | apply sort_values_desc_sorted].
Qed.

Lemma branch_edges_by_any_sort (order : DataFrame -> DataFrame) s
  (d : PyDict DataFrame) :
  descending_sort order -> tables_without_ties d ->
  flat_map (branch_edges_by order s) d = flat_map (branch_edges s) d.
Proof.
  intros Ho. induction d as [|[t df] d IH]; intros Ht; simpl; [reflexivity|].
  rewrite IH by (intros t' df' H; apply (Ht t' df'); now right).
  f_equal. destruct (df_empty df); [reflexivity|].
  rewrite (@nlargest_by_any_sort order (max_genes_per_tumor s) df Ho); auto.
  apply (Ht t df). now left.
Qed.

(** X13.  The edges of the survival tree, exactly.  On tables in which no
    two rows have the same PCC, whenever [create_survival_tree] returns, its
    edge list is, tumor type by tumor type in the order of [tumor_data],
    nothing for an empty table and otherwise the edge from the centre
    followed by one edge per top row, in descending order of PCC, with the
    interpolated width, whatever sorting algorithm puts the rows in
    descending order; marking the cross-tumor genes changes no edge. *)
Theorem bst_edges_exact (order : DataFrame -> DataFrame) (s : Settings)
  (counts : PyDict nat) (tumor_data : PyDict DataFrame) (nt : Network)
  (counts' : PyDict nat) (log : list LogRecord) :
  descending_sort order ->
  tables_without_ties tumor_data ->
  BadSurvivalTree.create_survival_tree s counts tumor_data = Some (nt, counts', log) ->
  edges nt = flat_map (branch_edges_by order s) tumor_data.
Proof.
  intros Ho Ht Hc.
  rewrite (@branch_edges_by_any_sort order s tumor_data Ho Ht).
  exact (@bst_edges_by_nlargest s counts tumor_data nt counts' log Hc).
Qed.

Lemma data_with_empty_without_ties : tables_without_ties data_with_empty.
Proof.
  intros t df [[= <- <-]|[[= <- <-]|[]]]; split.
  - constructor.
  - intros a b [].
  - repeat constructor; simpl; intuition discriminate.
  - intros a b [<-|[<-|[]]] [<-|[<-|[]]]; simpl; intros H; try reflexivity;
      exfalso; revert H; unfold Qeq; simpl; lia.
Qed.

Lemma bst_edges_exact_witness :
  exists nt counts' log,
    BadSurvivalTree.create_survival_tree BadSurvivalTree.default_settings []
                                         data_with_empty = Some (nt, counts', log)
    /\ edges nt = flat_map (branch_edges_by sort_values_desc
                                            BadSurvivalTree.default_settings)
                           data_with_empty.
Proof.
  evaluate_as E (BadSurvivalTree.create_survival_tree BadSurvivalTree.default_settings
                   [] data_with_empty).
  do 3 eexists. split; [exact E|].
  eapply (@bst_edges_exact sort_values_desc BadSurvivalTree.default_settings []
            data_with_empty).
  - exact sort_values_desc_descending.
  - exact data_with_empty_without_ties.
  - exact E.
Defined.

(** ** [create_network] without discovered tumor types *)

Lemma main_tumor_of_nonempty (tumor_pccs : PyDict Q) :
  (0 < dict_len tumor_pccs)%nat ->
  exists main main_pcc,
    TumorNetwork.main_tumor tumor_pccs = Some main
    /\ dict_get main tumor_pccs = Some main_pcc.
Proof.
  intros Hlen.
  assert (dict_items tumor_pccs <> []) as Hne.
  { unfold dict_items. destruct tumor_pccs; simpl in Hlen; [lia|discriminate]. }
  destruct (py_max_spec snd Hne) as [[main p] [l1 [l2 [Hmax [Heq _]]]]].
  unfold TumorNetwork.main_tumor. rewrite Hmax. simpl.
  destruct (dict_get main tumor_pccs) as [q|] eqn:E; [eauto|].
  exfalso. apply dict_get_None in E. apply E. unfold dict_items in Heq.
  rewrite Heq. unfold dict_keys. rewrite map_app. apply in_or_app.
  right. now left.
Qed.

Lemma tn_cross_loop_without_positions s (l : list (string * PyDict Q)) :
  forall st,
    TumorNetwork.tumor_positions st = [] ->
    (forall item, In item l -> (1 < dict_len (snd item))%nat) ->
    foldM (TumorNetwork.add_cross_gene s) l st =
    if existsb (reaches_threshold s) l then None else Some st.
Proof.
  induction l as [|[g tumor_pccs] l IH]; intros st Hpos Hlen; simpl; auto.
  destruct (@main_tumor_of_nonempty tumor_pccs) as [main [main_pcc [Hm Hg]]].
  { specialize (Hlen (g, tumor_pccs) (or_introl eq_refl)). simpl in Hlen. lia. }
  unfold reaches_threshold at 1. simpl. rewrite Hm, Hg.
  destruct (Qlt_bool main_pcc (min_correlation s)); simpl.
  - apply IH; auto. intros item Hitem. apply Hlen. now right.
  - now rewrite Hpos.
Qed.

(** X14.  [create_network] needs the tumor types discovered by
    [load_all_data].  With [self.tumor_types] empty, every table is passed
    over, and the call raises ([KeyError] on the position of the main tumor)
    as soon as one cross-tumor gene passes the threshold check; otherwise it
    returns the network of the centre node alone and leaves the counters as
    they were. *)
Theorem tn_create_network_without_discovery (s : Settings) (counts : PyDict nat)
  (tumor_data : PyDict DataFrame) :
  TumorNetwork.create_network s [] counts tumor_data =
  if existsb (reaches_threshold s)
       (TumorNetwork.cross_tumor_genes (TumorNetwork.collect_all_genes tumor_data))
  then None
  else Some (add_node TumorNetwork.central_node (empty_network false), counts).
Proof.
  unfold TumorNetwork.create_network. simpl.
  rewrite tn_cross_loop_without_positions; auto.
  - unfold dict_items. now destruct (existsb _ _).
  - intros item Hin. unfold dict_items, TumorNetwork.cross_tumor_genes in Hin.
    apply filter_In in Hin. destruct Hin as [_ H]. now apply Nat.ltb_lt in H.
Qed.

Lemma foldM_None {S A : Type} (I : S -> Prop) (f : S -> A -> option S)
  (l : list A) (x : A) :
  In x l ->
  (forall st, I st -> f st x = None) ->
  (forall y st st', I st -> f st y = Some st' -> I st') ->
  forall st, I st -> foldM f l st = None.
Proof.
  intros Hin Hx Hpres. induction l as [|y l IH]; intros st Hi; [destruct Hin|].
  simpl. destruct (f st y) as [st1|] eqn:E; auto.
  destruct Hin as [->|Hin].
  - rewrite (Hx st Hi) in E. discriminate.
  - apply IH; auto. eapply Hpres; eauto.
Qed.

Lemma tn_add_tumor_node_positions types d st item st' :
  In (snd item) types ->
  TumorNetwork.add_tumor_node d st item = Some st' ->
  positions_within types st -> positions_within types st'.
Proof.
  destruct item as [idx t]. simpl. intros Ht. unfold TumorNetwork.add_tumor_node.
  destruct (negb (dict_mem t d)); [now intros [= <-]|].
  destruct (add_edge _ _); [|discriminate]. intros [= <-] Hp t'. simpl.
  rewrite dict_mem_set. intros H. apply orb_prop in H. destruct H as [H|H]; auto.
  apply String.eqb_eq in H. now subst.
Qed.

Lemma tn_add_specific_genes_positions s d all_genes st t st' :
  TumorNetwork.add_specific_genes s d all_genes st t = Some st' ->
  TumorNetwork.tumor_positions st' = TumorNetwork.tumor_positions st.
Proof.
  unfold TumorNetwork.add_specific_genes.
  destruct (dict_get t d); [|now intros [= <-]].
  destruct (dict_get t (TumorNetwork.tumor_positions st)); [|discriminate].
  apply (foldM_preorder
           (fun a b => TumorNetwork.tumor_positions b = TumorNetwork.tumor_positions a));
    auto.
  - intros a b c H1 H2. congruence.
  - intros row a b _. unfold TumorNetwork.add_specific_gene.
    destruct (TumorNetwork.node_size s (PCC row)); [|discriminate].
    destruct (add_edge _ _); [|discriminate].
    destruct (dict_incr _ _); [|discriminate]. now intros [= <-].
Qed.

Lemma tn_add_cross_gene_positions s st item st' :
  TumorNetwork.add_cross_gene s st item = Some st' ->
  TumorNetwork.tumor_positions st' = TumorNetwork.tumor_positions st.
Proof.
  destruct item as [g tumor_pccs]. unfold TumorNetwork.add_cross_gene.
  destruct (TumorNetwork.main_tumor tumor_pccs) as [main|]; [|discriminate].
  destruct (dict_get main tumor_pccs) as [main_pcc|]; [|discriminate].
  destruct (Qlt_bool main_pcc (min_correlation s)); [now intros [= <-]|].
  destruct (dict_get main (TumorNetwork.tumor_positions st)); [|discriminate].
  destruct (TumorNetwork.node_size s main_pcc); [|discriminate].
  intros Hf.
  apply (foldM_preorder
           (fun a b => TumorNetwork.tumor_positions b = TumorNetwork.tumor_positions a))
    in Hf; auto.
  - intros a b c H1 H2. congruence.
  - intros [t p] a b _. unfold TumorNetwork.add_cross_edge.
    destruct (Qle_bool (min_correlation s) p); [|now intros [= <-]].
    destruct (add_edge _ _); [|discriminate].
    destruct (dict_incr _ _); [|discriminate]. now intros [= <-].
Qed.

(** X15.  [create_network] draws a cross-tumor gene at its main tumor, which
    must be a discovered tumor type.  If some cross-tumor gene passes the
    threshold check and its main tumor is not in [self.tumor_types], the call
    raises (at the latest with the [KeyError] on the position of that tumor),
    whatever the other tables hold. *)
Theorem tn_create_network_unknown_main_tumor (s : Settings)
  (tumor_types : list string) (counts : PyDict nat) (tumor_data : PyDict DataFrame)
  (g : string) (tumor_pccs : PyDict Q) (main : string) (main_pcc : Q) :
  In (g, tumor_pccs)
     (TumorNetwork.cross_tumor_genes (TumorNetwork.collect_all_genes tumor_data)) ->
  TumorNetwork.main_tumor tumor_pccs = Some main ->
  dict_get main tumor_pccs = Some main_pcc ->
  min_correlation s <= main_pcc ->
  ~ In main tumor_types ->
  TumorNetwork.create_network s tumor_types counts tumor_data = None.
Proof.
  intros Hin Hmain Hget Hge Hni. unfold TumorNetwork.create_network.
  destruct (foldM (TumorNetwork.add_tumor_node tumor_data) _ _) as [st1|] eqn:E1; auto.
  destruct (foldM (TumorNetwork.add_specific_genes s tumor_data _) _ _)
    as [st2|] eqn:E2; auto.
  assert (positions_within tumor_types st1) as H1.
  { revert E1. intros E1.
    apply (foldM_invariant (positions_within tumor_types)) in E1; auto.
    - intros item a b Hitem Ha Hstep.
      eapply tn_add_tumor_node_positions; eauto.
      now apply in_enumerate_snd.
    - intros t. simpl. discriminate. }
  assert (positions_within tumor_types st2) as H2.
  { apply (foldM_preorder
             (fun a b => TumorNetwork.tumor_positions b = TumorNetwork.tumor_positions a))
      in E2.
    - intros t. rewrite E2. apply H1.
    - auto.
    - intros a b c Ha Hb. congruence.
    - intros t a b _. apply tn_add_specific_genes_positions. }
  rewrite (@foldM_None _ _ (positions_within tumor_types)
             (TumorNetwork.add_cross_gene s) _ (g, tumor_pccs)); auto.
  - intros st Hst. unfold TumorNetwork.add_cross_gene. rewrite Hmain, Hget.
    assert (Qlt_bool main_pcc (min_correlation s) = false) as Hg
        by now apply Qlt_bool_false.
    rewrite Hg.
    destruct (dict_get main (TumorNetwork.tumor_positions st)) eqn:Ep; auto.
    exfalso. apply Hni. apply Hst. unfold dict_mem. now rewrite Ep.
  - intros item a b Ha Hstep t. rewrite (tn_add_cross_gene_positions _ _ _ Hstep).
    apply Ha.
Qed.

Lemma tn_create_network_unknown_main_tumor_witness :
  TumorNetwork.create_network TumorNetwork.default_settings ["B"] [] example_data = None.
Proof.
  apply (@tn_create_network_unknown_main_tumor TumorNetwork.default_settings ["B"] []
           example_data "g1" [("A", 9 # 10); ("B", 7 # 10)] "A" (9 # 10)).
  - simpl. left. reflexivity.
  - reflexivity.
  - reflexivity.
  - simpl. discriminate.
  - simpl. intuition discriminate.
Defined.

(** ** Node sizes of the two networks *)

Lemma tn_node_size_bounds s pcc size :
  min_correlation s < 1 ->
  fst (node_size_range s) <= snd (node_size_range s) ->
  min_correlation s <= pcc <= 1 ->
  TumorNetwork.node_size s pcc = Some size ->
  fst (node_size_range s) <= size <= snd (node_size_range s).
Proof.
  intros Hmin Hr Hp Hs.
  destruct (@node_size_interpolation s pcc Hmin Hr Hp) as [[size' [Hs' [_ Hb]]] _].
  congruence.
Qed.

Lemma nodes_all_add_node (P : Node -> Prop) n nt :
  P n -> (forall x, In x (nodes nt) -> P x) ->
  forall x, In x (nodes (add_node n nt)) -> P x.
Proof.
  intros Hn Hall x Hx. apply add_node_nodes in Hx. destruct Hx as [Hx| ->]; auto.
Qed.

Lemma nodes_all_add_edge (P : Node -> Prop) e nt nt' :
  add_edge e nt = Some nt' -> (forall x, In x (nodes nt) -> P x) ->
  forall x, In x (nodes nt') -> P x.
Proof. intros E Hall x Hx. rewrite (add_edge_nodes _ _ E) in Hx. auto. Qed.

Section NetworkNodeSizes.
Variable s : Settings.
Variable d : PyDict DataFrame.
Hypothesis Hmin : min_correlation s < 1.
Hypothesis Hrange : fst (node_size_range s) <= snd (node_size_range s).
Hypothesis Hwf : dict_wf d.
Hypothesis Hlow : all_above (min_correlation s) d.
Hypothesis Hhigh : all_at_most 1 d.

Lemma tn_add_tumor_node_sizes st item st' :
  TumorNetwork.add_tumor_node d st item = Some st' ->
  tn_nodes_ok s st -> tn_nodes_ok s st'.
Proof.
  destruct item as [idx t]. unfold TumorNetwork.add_tumor_node.
  destruct (negb (dict_mem t d)); [now intros [= <-]|].
  destruct (add_edge _ _) as [net2|] eqn:E; [|discriminate].
  intros [= <-] Hok. unfold tn_nodes_ok. simpl.
  apply (nodes_all_add_edge _ _ _ E). apply nodes_all_add_node; auto.
  left. simpl. auto.
Qed.

Lemma tn_add_specific_genes_sizes all_genes st t st' :
  TumorNetwork.add_specific_genes s d all_genes st t = Some st' ->
  tn_nodes_ok s st -> tn_nodes_ok s st'.
Proof.
  unfold TumorNetwork.add_specific_genes.
  destruct (dict_get t d) as [df|] eqn:Ed; [|now intros [= <-]].
  destruct (dict_get t (TumorNetwork.tumor_positions st)); [|discriminate].
  intros Hf Hok. revert Hok Hf. apply (foldM_invariant (tn_nodes_ok s)).
  intros row a b Hrow Ha. unfold TumorNetwork.add_specific_gene.
  destruct (TumorNetwork.node_size s (PCC row)) as [size|] eqn:Es; [|discriminate].
  destruct (add_edge _ _) as [net2|] eqn:E; [|discriminate].
  destruct (dict_incr _ _); [|discriminate]. intros [= <-].
  unfold tn_nodes_ok. simpl.
  apply (nodes_all_add_edge _ _ _ E). apply nodes_all_add_node; auto.
  right. left. simpl. split; auto.
  assert (In row df) as Hin.
  { destruct (negb (df_empty _)) in Hrow.
    - apply (proj1 (sort_values_desc_In _ _)) in Hrow. unfold filter_gene in Hrow.
      apply filter_In in Hrow. tauto.
    - unfold filter_gene in Hrow. apply filter_In in Hrow. tauto. }
  apply dict_get_In in Ed.
  apply (@tn_node_size_bounds s (PCC row) size Hmin Hrange); auto.
  split; [eapply Hlow | eapply Hhigh]; eauto.
Qed.

Lemma tn_add_cross_gene_sizes st item st' :
  In item (TumorNetwork.cross_tumor_genes (TumorNetwork.collect_all_genes d)) ->
  TumorNetwork.add_cross_gene s st item = Some st' ->
  tn_nodes_ok s st -> tn_nodes_ok s st'.
Proof.
  intros Hin. destruct item as [g tumor_pccs].
  destruct (@cross_tumor_genes_In d g tumor_pccs Hwf Hin) as [Hm _].
  unfold TumorNetwork.add_cross_gene.
  destruct (TumorNetwork.main_tumor tumor_pccs) as [main|]; [|discriminate].
  destruct (dict_get main tumor_pccs) as [main_pcc|] eqn:Eg; [|discriminate].
  destruct (Qlt_bool main_pcc (min_correlation s)); [now intros [= <-]|].
  destruct (dict_get main (TumorNetwork.tumor_positions st)); [|discriminate].
  destruct (TumorNetwork.node_size s main_pcc) as [size|] eqn:Es; [|discriminate].
  intros Hf Hok. revert Hf. apply (foldM_invariant (tn_nodes_ok s)).
  - intros [t p] a b _ Ha. unfold TumorNetwork.add_cross_edge.
    destruct (Qle_bool (min_correlation s) p); [|now intros [= <-]].
    destruct (add_edge _ _) as [net2|] eqn:E; [|discriminate].
    destruct (dict_incr _ _); [|discriminate]. intros [= <-].
    unfold tn_nodes_ok. simpl. now apply (nodes_all_add_edge _ _ _ E).
  - unfold tn_nodes_ok. simpl. apply nodes_all_add_node; auto.
    right. right. simpl. split; auto.
    apply dict_get_In in Eg. rewrite Hm in Eg.
    destruct (@memberships_In g d main main_pcc Eg) as [df [row [Hd [Hr [_ Hp]]]]].
    assert (fst (node_size_range s) <= size <= snd (node_size_range s)) as [B1 B2].
    { apply (@tn_node_size_bounds s main_pcc size Hmin Hrange); auto.
      rewrite <- Hp. split; [eapply Hlow | eapply Hhigh]; eauto. }
    split; lra.
Qed.

Lemma tn_node_sizes_general tumor_types counts nt counts' :
  TumorNetwork.create_network s tumor_types counts d = Some (nt, counts') ->
  forall n, In n (nodes nt) -> tn_node_ok s n.
Proof.
  unfold TumorNetwork.create_network.
  destruct (foldM (TumorNetwork.add_tumor_node d) _ _) as [st1|] eqn:E1; [|discriminate].
  destruct (foldM (TumorNetwork.add_specific_genes s d _) _ _) as [st2|] eqn:E2;
    [|discriminate].
  destruct (foldM (TumorNetwork.add_cross_gene s) _ _) as [st3|] eqn:E3; [|discriminate].
  intros [= <- <-].
  apply (foldM_invariant (tn_nodes_ok s)) in E1.
  - apply (foldM_invariant (tn_nodes_ok s)) in E2; auto.
    + apply (foldM_invariant (tn_nodes_ok s)) in E3; auto.
      intros item a b Hitem Ha Hstep. eapply tn_add_cross_gene_sizes; eauto.
    + intros t a b _ Ha Hstep. eapply tn_add_specific_genes_sizes; eauto.
  - intros item a b _ Ha Hstep. eapply tn_add_tumor_node_sizes; eauto.
  - unfold tn_nodes_ok. simpl. intros n [<-|[]]. left. simpl. auto.
Qed.

End NetworkNodeSizes.

(** X16.  The node sizes of the network.  When the scores lie between
    [min_correlation] (below 1) and 1, every node of the network returned by
    [create_network] is a dot of size 30 or 20 (centre, tumor types), a dot
    whose size is within the configured range (tumor-specific gene) or a
    diamond whose size is within the range moved up by 2 (cross-tumor
    gene). *)
Theorem tn_node_sizes (s : Settings) (tumor_types : list string)
  (counts : PyDict nat) (tumor_data : PyDict DataFrame) (nt : Network)
  (counts' : PyDict nat) (n : Node) :
  min_correlation s < 1 ->
  fst (node_size_range s) <= snd (node_size_range s) ->
  dict_wf tumor_data ->
  all_above (min_correlation s) tumor_data ->
  all_at_most 1 tumor_data ->
  TumorNetwork.create_network s tumor_types counts tumor_data = Some (nt, counts') ->
  In n (nodes nt) ->
  tn_node_ok s n.
Proof.
  intros H1 H2 H3 H4 H5 H6 H7.
  exact (@tn_node_sizes_general s tumor_data H1 H2 H3 H4 H5 tumor_types counts nt
           counts' H6 n H7).
Qed.

Lemma example_data_above : all_above (1 # 2) example_data.
Proof.
  intros t df row [H|[H|[]]] Hrow; injection H as <- <-;
    simpl in Hrow; destruct Hrow as [<-|[<-|[]]]; simpl; discriminate.
Qed.

Lemma example_data_at_most : all_at_most 1 example_data.
Proof.
  intros t df row [H|[H|[]]] Hrow; injection H as <- <-;
    simpl in Hrow; destruct Hrow as [<-|[<-|[]]]; simpl; discriminate.
Qed.

Lemma tn_node_sizes_witness :
  tn_node_ok TumorNetwork.default_settings
             {| n_id := "g1"; n_shape := Diamond; n_size := 212 # 20 |}.
Proof.
  evaluate_as E (TumorNetwork.create_network TumorNetwork.default_settings ["A"; "B"]
                   [] example_data).
  eapply (@tn_node_sizes TumorNetwork.default_settings ["A"; "B"] [] example_data).
  - reflexivity.
  - simpl. discriminate.
  - exact example_data_wf.
  - exact example_data_above.
  - exact example_data_at_most.
  - exact E.
  - simpl. do 5 right. left. reflexivity.
Defined.

Section TreeNodeSizes.
Variable s : Settings.
Variable d : PyDict DataFrame.
Hypothesis Hmin : min_correlation s < 1.
Hypothesis Hrange : fst (node_size_range s) <= snd (node_size_range s).
Hypothesis Hlow : all_above (min_correlation s) d.
Hypothesis Hhigh : all_at_most 1 d.

Lemma bst_add_gene_node_sizes t df st row st' :
  In (t, df) d -> In row df ->
  BadSurvivalTree.add_gene_node s t st row = Some st' ->
  bst_nodes_ok s (BadSurvivalTree.net st) -> bst_nodes_ok s (BadSurvivalTree.net st').
Proof.
  intros Hd Hrow. unfold BadSurvivalTree.add_gene_node.
  destruct (BadSurvivalTree.size_scale s (PCC row)) as [scale|] eqn:Es; [|discriminate].
  destruct (add_edge _ _) as [net2|] eqn:E; [|discriminate].
  intros [= <-] Hok. unfold bst_nodes_ok. simpl.
  apply (nodes_all_add_edge _ _ _ E). apply nodes_all_add_node; auto.
  right. right. right. simpl. split; auto.
  destruct (@node_size_interpolation s (PCC row) Hmin Hrange)
    as [_ [scale' [Hs' [_ [_ Hb]]]]].
  - split; [eapply Hlow | eapply Hhigh]; eauto.
  - congruence.
Qed.

Lemma bst_add_tumor_branch_sizes st item st' :
  In (snd item) d ->
  BadSurvivalTree.add_tumor_branch s st item = Some st' ->
  bst_nodes_ok s (BadSurvivalTree.net st) -> bst_nodes_ok s (BadSurvivalTree.net st').
Proof.
  destruct item as [idx [t df]]. simpl. intros Hd.
  unfold BadSurvivalTree.add_tumor_branch.
  destruct (df_empty df); [now intros [= <-]|].
  destruct (add_edge _ _) as [net2|] eqn:E; [|discriminate]. intros Hf Hok.
  revert Hf.
  apply (foldM_invariant (fun a => bst_nodes_ok s (BadSurvivalTree.net a))).
  - intros row a b Hrow Ha Hstep.
    eapply bst_add_gene_node_sizes; eauto. eapply nlargest_In; eauto.
  - unfold bst_nodes_ok. simpl.
    apply (nodes_all_add_edge _ _ _ E). apply nodes_all_add_node; auto.
    right. right. left. simpl. auto.
Qed.

Lemma bst_mark_cross_gene_sizes nt item nt' :
  BadSurvivalTree.mark_cross_gene nt item = Some nt' ->
  bst_nodes_ok s nt -> bst_nodes_ok s nt'.
Proof.
  destruct item as [gene tumors]. unfold BadSurvivalTree.mark_cross_gene.
  destruct (1 <? List.length tumors)%nat; [|now intros [= <-]].
  intros Hf Hok. revert Hok Hf. apply (foldM_invariant (bst_nodes_ok s)).
  intros t a b _ Ha. unfold BadSurvivalTree.mark_instance, update_node.
  destruct (update_first _ _ (nodes a)) as [ns|] eqn:E; [|discriminate].
  intros [= <-] n Hn. simpl in Hn.
  destruct (@update_first_In _ _ (nodes a) ns n E Hn) as [H|[n0 [_ ->]]]; auto.
Qed.

Lemma bst_node_sizes_general counts nt counts' log :
  BadSurvivalTree.create_survival_tree s counts d = Some (nt, counts', log) ->
  bst_nodes_ok s nt.
Proof.
  unfold BadSurvivalTree.create_survival_tree, BadSurvivalTree.build_branches.
  destruct (foldM (BadSurvivalTree.add_tumor_branch s) _ _) as [st|] eqn:E1;
    [|discriminate].
  destruct (foldM BadSurvivalTree.mark_cross_gene _ _) as [nt1|] eqn:E2; [|discriminate].
  intros [= <- _ _].
  apply (foldM_invariant (fun a => bst_nodes_ok s (BadSurvivalTree.net a))) in E1.
  - revert E1 E2. apply (foldM_invariant (bst_nodes_ok s)).
    intros item a b _ Ha Hstep. eapply bst_mark_cross_gene_sizes; eauto.
  - intros item a b Hitem Ha Hstep. eapply bst_add_tumor_branch_sizes; eauto.
    now apply in_enumerate_snd.
  - unfold bst_nodes_ok. simpl. intros n [<-|[]]. right. left. simpl. auto.
Qed.

End TreeNodeSizes.

(** X17.  The node sizes of the survival tree.  When the scores lie between
    [min_correlation] (below 1) and 1, every node of the network returned by
    [create_survival_tree] that is not a diamond (a marked cross-tumor gene)
    is the centre (ellipse, 45), a tumor type (box, 30) or a gene drawn as
    a dot whose size is within the configured range. *)
Theorem bst_node_sizes (s : Settings) (counts : PyDict nat)
  (tumor_data : PyDict DataFrame) (nt : Network) (counts' : PyDict nat)
  (log : list LogRecord) (n : Node) :
  min_correlation s < 1 ->
  fst (node_size_range s) <= snd (node_size_range s) ->
  all_above (min_correlation s) tumor_data ->
  all_at_most 1 tumor_data ->
  BadSurvivalTree.create_survival_tree s counts tumor_data = Some (nt, counts', log) ->
  In n (nodes nt) ->
  n_shape n = Diamond \/ bst_node_ok s n.
Proof.
  intros H1 H2 H3 H4 H5 H6.
  exact (@bst_node_sizes_general s tumor_data H1 H2 H3 H4 counts nt counts' log H5 n H6).
Qed.

Lemma bst_node_sizes_witness :
  bst_node_ok BadSurvivalTree.default_settings
              {| n_id := "g2_A"; n_shape := Dot; n_size := 192 # 20 |}.
Proof.
  evaluate_as E (BadSurvivalTree.create_survival_tree BadSurvivalTree.default_settings
                   [] example_data).
  assert (Dot = Diamond
          \/ bst_node_ok BadSurvivalTree.default_settings
                         {| n_id := "g2_A"; n_shape := Dot; n_size := 192 # 20 |})
    as [H|H].
  { eapply (@bst_node_sizes BadSurvivalTree.default_settings [] example_data _ _ _
              {| n_id := "g2_A"; n_shape := Dot; n_size := 192 # 20 |}).
    - reflexivity.
    - simpl. discriminate.
    - exact example_data_above.
    - exact example_data_at_most.
    - exact E.
    - simpl. do 3 right. left. reflexivity. }
  - discriminate H.
  - exact H.
Defined.

(** ** The edges of [create_network] *)

Lemma appears_in_row g t d df row :
  In (t, df) d -> In row df -> gene_symbol row = g -> appears_in g t d.
Proof.
  intros Hd Hr Hg. exists df. split; auto. apply has_gene_In. eauto.
Qed.

Lemma tn_edges_ok_add_edge types d e nt nt' :
  add_edge e nt = Some nt' ->
  tn_edge_ok types d e ->
  (forall x, In x (edges nt) -> tn_edge_ok types d x) ->
  forall x, In x (edges nt') -> tn_edge_ok types d x.
Proof.
  intros E He Hall x Hx. destruct (add_edge_edges _ _ _ E Hx) as [H| ->]; auto.
Qed.

Lemma specific_rows_In all_genes df row :
  In row (if negb (df_empty (filter_gene (TumorNetwork.is_tumor_specific all_genes) df))
          then sort_values_desc (filter_gene (TumorNetwork.is_tumor_specific all_genes) df)
          else filter_gene (TumorNetwork.is_tumor_specific all_genes) df)
  <-> In row df /\ TumorNetwork.is_tumor_specific all_genes (gene_symbol row) = true.
Proof.
  destruct (negb (df_empty _)); rewrite ?sort_values_desc_In;
    unfold filter_gene; apply filter_In.
Qed.

Section NetworkEdges.
Variable s : Settings.
Variable types : list string.
Variable d : PyDict DataFrame.
Hypothesis Hwf : dict_wf d.

Lemma tn_add_tumor_node_edges_ok st item st' :
  In (snd item) types ->
  TumorNetwork.add_tumor_node d st item = Some st' ->
  tn_edges_ok types d st -> tn_edges_ok types d st'.
Proof.
  destruct item as [idx t]. simpl. intros Ht. unfold TumorNetwork.add_tumor_node.
  destruct (dict_mem t d) eqn:Em; simpl; [|now intros [= <-]].
  destruct (add_edge _ _) as [net2|] eqn:E; [|discriminate].
  intros [= <-] Hok. unfold tn_edges_ok. simpl.
  apply (tn_edges_ok_add_edge _ E).
  - left. simpl. auto.
  - now rewrite add_node_edges.
Qed.

Lemma tn_add_specific_genes_edges_ok all_genes st t st' :
  TumorNetwork.add_specific_genes s d all_genes st t = Some st' ->
  tn_edges_ok types d st -> tn_edges_ok types d st'.
Proof.
  unfold TumorNetwork.add_specific_genes.
  destruct (dict_get t d) as [df|] eqn:Ed; [|now intros [= <-]].
  destruct (dict_get t (TumorNetwork.tumor_positions st)); [|discriminate].
  intros Hf Hok. revert Hok Hf. apply (foldM_invariant (tn_edges_ok types d)).
  intros row a b Hrow Ha. unfold TumorNetwork.add_specific_gene.
  destruct (TumorNetwork.node_size s (PCC row)) as [size|]; [|discriminate].
  destruct (add_edge _ _) as [net2|] eqn:E; [|discriminate].
  destruct (dict_incr _ _); [|discriminate]. intros [= <-].
  unfold tn_edges_ok. simpl. apply (tn_edges_ok_add_edge _ E).
  - right. simpl. apply specific_rows_In in Hrow. destruct Hrow as [Hrow _].
    eapply appears_in_row; eauto. now apply dict_get_In.
  - now rewrite add_node_edges.
Qed.

Lemma tn_add_cross_gene_edges_ok st item st' :
  In item (TumorNetwork.cross_tumor_genes (TumorNetwork.collect_all_genes d)) ->
  TumorNetwork.add_cross_gene s st item = Some st' ->
  tn_edges_ok types d st -> tn_edges_ok types d st'.
Proof.
  intros Hin. destruct item as [g tumor_pccs].
  destruct (@cross_tumor_genes_In d g tumor_pccs Hwf Hin) as [Hm _].
  unfold TumorNetwork.add_cross_gene.
  destruct (TumorNetwork.main_tumor tumor_pccs) as [main|]; [|discriminate].
  destruct (dict_get main tumor_pccs) as [main_pcc|]; [|discriminate].
  destruct (Qlt_bool main_pcc (min_correlation s)); [now intros [= <-]|].
  destruct (dict_get main (TumorNetwork.tumor_positions st)); [|discriminate].
  destruct (TumorNetwork.node_size s main_pcc) as [size|]; [|discriminate].
  intros Hf Hok. revert Hf. apply (foldM_invariant (tn_edges_ok types d)).
  - intros [t p] a b Hp Ha. unfold TumorNetwork.add_cross_edge.
    destruct (Qle_bool (min_correlation s) p); [|now intros [= <-]].
    destruct (add_edge _ _) as [net2|] eqn:E; [|discriminate].
    destruct (dict_incr _ _); [|discriminate]. intros [= <-].
    unfold tn_edges_ok. simpl. apply (tn_edges_ok_add_edge _ E); auto.
    right. simpl. unfold dict_items in Hp. rewrite Hm in Hp.
    apply tumors_with_In. rewrite <- memberships_keys.
    apply (in_map fst) in Hp. exact Hp.
  - unfold tn_edges_ok. simpl. now rewrite add_node_edges.
Qed.

Lemma tn_edges_sound_general counts nt counts' :
  TumorNetwork.create_network s types counts d = Some (nt, counts') ->
  forall e, In e (edges nt) -> tn_edge_ok types d e.
Proof.
  unfold TumorNetwork.create_network.
  destruct (foldM (TumorNetwork.add_tumor_node d) _ _) as [st1|] eqn:E1; [|discriminate].
  destruct (foldM (TumorNetwork.add_specific_genes s d _) _ _) as [st2|] eqn:E2;
    [|discriminate].
  destruct (foldM (TumorNetwork.add_cross_gene s) _ _) as [st3|] eqn:E3; [|discriminate].
  intros [= <- <-].
  apply (foldM_invariant (tn_edges_ok types d)) in E1.
  - apply (foldM_invariant (tn_edges_ok types d)) in E2; auto.
    + apply (foldM_invariant (tn_edges_ok types d)) in E3; auto.
      intros item a b Hitem Ha Hstep. eapply tn_add_cross_gene_edges_ok; eauto.
    + intros t a b _ Ha Hstep. eapply tn_add_specific_genes_edges_ok; eauto.
  - intros item a b Hitem Ha Hstep. eapply tn_add_tumor_node_edges_ok; eauto.
    now apply in_enumerate_snd.
  - unfold tn_edges_ok. simpl. intros e He. destruct He.
Qed.

End NetworkEdges.

(** X18.  The edges of the network are sound.  Every edge of the network
    returned by [create_network] either goes from the centre GCH1 to a
    discovered tumor type that has a table, or goes from a tumor type to a
    gene that has a row in the table of that tumor type. *)
Theorem tn_edges_sound (s : Settings) (tumor_types : list string)
  (counts : PyDict nat) (tumor_data : PyDict DataFrame) (nt : Network)
  (counts' : PyDict nat) (e : Edge) :
  dict_wf tumor_data ->
  TumorNetwork.create_network s tumor_types counts tumor_data = Some (nt, counts') ->
  In e (edges nt) ->
  tn_edge_ok tumor_types tumor_data e.
Proof.
  intros Hwf Hc He.
  exact (@tn_edges_sound_general s tumor_types tumor_data Hwf counts nt counts' Hc e He).
Qed.

Lemma tn_edges_sound_witness :
  tn_edge_ok ["A"; "B"] example_data
             {| e_from := "B"; e_to := "g1"; e_width := 2160 # 4000 |}.
Proof.
  evaluate_as E (TumorNetwork.create_network TumorNetwork.default_settings ["A"; "B"]
                   [] example_data).
  eapply (@tn_edges_sound TumorNetwork.default_settings ["A"; "B"] [] example_data).
  - exact example_data_wf.
  - exact E.
  - simpl. do 5 right. left. reflexivity.
Defined.

Lemma foldM_reaches {S A : Type} (Q : S -> Prop) (f : S -> A -> option S)
  (l : list A) (x : A) :
  In x l ->
  (forall st st', f st x = Some st' -> Q st') ->
  (forall y st st', Q st -> f st y = Some st' -> Q st') ->
  forall st st', foldM f l st = Some st' -> Q st'.
Proof.
  intros Hin Hx Hmono. induction l as [|y l IH]; intros st st' Hf; [destruct Hin|].
  simpl in Hf. destruct (f st y) as [st1|] eqn:E; [|discriminate].
  destruct Hin as [->|Hin].
  - revert Hf. apply (foldM_invariant Q); eauto.
  - eapply IH; eauto.
Qed.

Lemma is_joined_incl a b nt nt' :
  incl (edges nt) (edges nt') -> is_joined a b nt = true -> is_joined a b nt' = true.
Proof.
  unfold is_joined. intros Hi H. apply existsb_exists in H.
  destruct H as [e [He Hj]]. apply existsb_exists. exists e. split; auto.
Qed.

Lemma add_edge_incl e nt nt' : add_edge e nt = Some nt' -> incl (edges nt) (edges nt').
Proof.
  unfold add_edge.
  destruct (has_node (e_from e) nt && has_node (e_to e) nt); [|discriminate].
  destruct (negb (directed nt) && existsb _ (edges nt)); intros [= <-]; simpl.
  - apply incl_refl.
  - apply incl_appl, incl_refl.
Qed.

Lemma add_edge_joined e nt nt' :
  add_edge e nt = Some nt' -> is_joined (e_from e) (e_to e) nt' = true.
Proof.
  unfold add_edge, is_joined.
  destruct (has_node (e_from e) nt && has_node (e_to e) nt); [|discriminate].
  destruct (negb (directed nt) && existsb _ (edges nt)) eqn:E; intros [= <-]; simpl.
  - apply andb_prop in E. tauto.
  - rewrite existsb_app. simpl. unfold joins at 2.
    rewrite !String.eqb_refl. simpl. now rewrite !orb_true_r.
Qed.

Lemma keeps_edges_refl a : keeps_edges a a.
Proof. apply incl_refl. Qed.

Lemma keeps_edges_trans a b c : keeps_edges a b -> keeps_edges b c -> keeps_edges a c.
Proof. unfold keeps_edges. intros H1 H2. eapply incl_tran; eauto. Qed.

Lemma tn_add_tumor_node_keeps d st item st' :
  TumorNetwork.add_tumor_node d st item = Some st' -> keeps_edges st st'.
Proof.
  destruct item as [idx t]. unfold TumorNetwork.add_tumor_node.
  destruct (negb (dict_mem t d)); [intros [= <-]; apply keeps_edges_refl|].
  destruct (add_edge _ _) as [net2|] eqn:E; [|discriminate].
  intros [= <-]. unfold keeps_edges. simpl.
  apply add_edge_incl in E. now rewrite add_node_edges in E.
Qed.

Lemma tn_add_specific_gene_keeps s t st row st' :
  TumorNetwork.add_specific_gene s t st row = Some st' ->
  keeps_edges st st'
  /\ is_joined t (gene_symbol row) (TumorNetwork.net st') = true.
Proof.
  unfold TumorNetwork.add_specific_gene.
  destruct (TumorNetwork.node_size s (PCC row)) as [size|]; [|discriminate].
  destruct (add_edge _ _) as [net2|] eqn:E; [|discriminate].
  destruct (dict_incr _ _); [|discriminate]. intros [= <-].
  unfold keeps_edges. simpl. split.
  - apply add_edge_incl in E. now rewrite add_node_edges in E.
  - apply add_edge_joined in E. exact E.
Qed.

Lemma tn_add_specific_genes_keeps s d all_genes st t st' :
  TumorNetwork.add_specific_genes s d all_genes st t = Some st' -> keeps_edges st st'.
Proof.
  unfold TumorNetwork.add_specific_genes.
  destruct (dict_get t d); [|intros [= <-]; apply keeps_edges_refl].
  destruct (dict_get t (TumorNetwork.tumor_positions st)); [|discriminate].
  apply (foldM_preorder keeps_edges).
  - apply keeps_edges_refl.
  - apply keeps_edges_trans.
  - intros row a b _ H. now apply tn_add_specific_gene_keeps in H.
Qed.

Lemma tn_add_cross_edge_keeps s g st item st' :
  TumorNetwork.add_cross_edge s g st item = Some st' -> keeps_edges st st'.
Proof.
  destruct item as [t p]. unfold TumorNetwork.add_cross_edge.
  destruct (Qle_bool (min_correlation s) p); [|intros [= <-]; apply keeps_edges_refl].
  destruct (add_edge _ _) as [net2|] eqn:E; [|discriminate].
  destruct (dict_incr _ _); [|discriminate]. intros [= <-].
  unfold keeps_edges. simpl. now apply add_edge_incl in E.
Qed.

Lemma tn_add_cross_gene_keeps s st item st' :
  TumorNetwork.add_cross_gene s st item = Some st' -> keeps_edges st st'.
Proof.
  destruct item as [g tumor_pccs]. unfold TumorNetwork.add_cross_gene.
  destruct (TumorNetwork.main_tumor tumor_pccs) as [main|]; [|discriminate].
  destruct (dict_get main tumor_pccs) as [main_pcc|]; [|discriminate].
  destruct (Qlt_bool main_pcc (min_correlation s));
    [intros [= <-]; apply keeps_edges_refl|].
  destruct (dict_get main (TumorNetwork.tumor_positions st)); [|discriminate].
  destruct (TumorNetwork.node_size s main_pcc) as [size|]; [|discriminate].
  intros Hf. apply (foldM_preorder keeps_edges) in Hf.
  - unfold keeps_edges in *. simpl in Hf. now rewrite add_node_edges in Hf.
  - apply keeps_edges_refl.
  - apply keeps_edges_trans.
  - intros item a b _. apply tn_add_cross_edge_keeps.
Qed.

Lemma keeps_edges_joined a b x y :
  keeps_edges a b ->
  is_joined x y (TumorNetwork.net a) = true -> is_joined x y (TumorNetwork.net b) = true.
Proof. intros H. now apply is_joined_incl. Qed.

Lemma tn_specific_or_cross d g t :
  dict_wf d -> appears_in g t d ->
  TumorNetwork.is_tumor_specific (TumorNetwork.collect_all_genes d) g
  || TumorNetwork.is_cross_tumor (TumorNetwork.collect_all_genes d) g = true.
Proof.
  intros Hwf Happ.
  rewrite is_tumor_specific_length, is_cross_tumor_length by assumption.
  apply tumors_with_In in Happ.
  destruct (tumors_with g d) as [|a [|b l]]; [destruct Happ| |]; reflexivity.
Qed.

Section NetworkEdgesComplete.
Variable s : Settings.
Variable types : list string.
Variable d : PyDict DataFrame.
Hypothesis Hwf : dict_wf d.
Hypothesis Hlow : all_above (min_correlation s) d.

Lemma tn_specific_loop_joins all_genes t df row : forall st st',
  In t types -> dict_get t d = Some df -> In row df ->
  TumorNetwork.is_tumor_specific all_genes (gene_symbol row) = true ->
  foldM (TumorNetwork.add_specific_genes s d all_genes) types st = Some st' ->
  is_joined t (gene_symbol row) (TumorNetwork.net st') = true.
Proof.
  intros st st' Ht Hd Hrow Hspec.
  apply (foldM_reaches
           (fun a => is_joined t (gene_symbol row) (TumorNetwork.net a) = true)
           (TumorNetwork.add_specific_genes s d all_genes) types t Ht).
  - intros a b. unfold TumorNetwork.add_specific_genes. rewrite Hd.
    destruct (dict_get t (TumorNetwork.tumor_positions a)); [|discriminate].
    apply (foldM_reaches
             (fun c => is_joined t (gene_symbol row) (TumorNetwork.net c) = true)
             (TumorNetwork.add_specific_gene s t) _ row).
    + apply specific_rows_In. auto.
    + intros c c' H. now apply tn_add_specific_gene_keeps in H.
    + intros y c c' Hc H. apply tn_add_specific_gene_keeps in H.
      destruct H as [H _]. eapply keeps_edges_joined; eauto.
  - intros y a b Ha H. apply tn_add_specific_genes_keeps in H.
    eapply keeps_edges_joined; eauto.
Qed.

Lemma tn_cross_loop_joins g tumor_pccs t p : forall st st',
  In (g, tumor_pccs)
     (TumorNetwork.cross_tumor_genes (TumorNetwork.collect_all_genes d)) ->
  In (t, p) tumor_pccs ->
  foldM (TumorNetwork.add_cross_gene s)
        (dict_items (TumorNetwork.cross_tumor_genes (TumorNetwork.collect_all_genes d)))
        st = Some st' ->
  is_joined t g (TumorNetwork.net st') = true.
Proof.
  intros st st' Hin Hp.
  apply (foldM_reaches
           (fun a => is_joined t g (TumorNetwork.net a) = true)
           (TumorNetwork.add_cross_gene s) _ (g, tumor_pccs) Hin).
  - intros a b. unfold TumorNetwork.add_cross_gene.
    destruct (TumorNetwork.main_tumor tumor_pccs) as [main|]; [|discriminate].
    destruct (dict_get main tumor_pccs) as [main_pcc|] eqn:Eg; [|discriminate].
    apply dict_get_In in Eg.
    assert (Qlt_bool main_pcc (min_correlation s) = false) as Hguard.
    { unfold Qlt_bool.
      now rewrite (@cross_scores_above s d g tumor_pccs main main_pcc Hwf Hlow Hin Eg). }
    rewrite Hguard.
    destruct (dict_get main (TumorNetwork.tumor_positions a)); [|discriminate].
    destruct (TumorNetwork.node_size s main_pcc) as [size|]; [|discriminate].
    apply (foldM_reaches
             (fun c => is_joined t g (TumorNetwork.net c) = true)
             (TumorNetwork.add_cross_edge s g) _ (t, p) Hp).
    + intros c c'. unfold TumorNetwork.add_cross_edge.
      rewrite (@cross_scores_above s d g tumor_pccs t p Hwf Hlow Hin Hp).
      destruct (add_edge _ _) as [net2|] eqn:E; [|discriminate].
      destruct (dict_incr _ _); [|discriminate]. intros [= <-]. simpl.
      apply add_edge_joined in E. exact E.
    + intros y c c' Hc H. apply tn_add_cross_edge_keeps in H.
      eapply keeps_edges_joined; eauto.
  - intros y a b Ha H. apply tn_add_cross_gene_keeps in H.
    eapply keeps_edges_joined; eauto.
Qed.

Lemma tn_tumor_loop_joins t : forall st st',
  In t types -> dict_mem t d = true ->
  foldM (TumorNetwork.add_tumor_node d) (enumerate types) st = Some st' ->
  is_joined "GCH1" t (TumorNetwork.net st') = true.
Proof.
  intros st st' Ht Hm. destruct (in_enumerate _ _ Ht) as [i Hi].
  apply (foldM_reaches
           (fun a => is_joined "GCH1" t (TumorNetwork.net a) = true)
           (TumorNetwork.add_tumor_node d) _ (i, t) Hi).
  - intros a b. unfold TumorNetwork.add_tumor_node. rewrite Hm. simpl.
    destruct (add_edge _ _) as [net2|] eqn:E; [|discriminate].
    intros [= <-]. simpl. apply add_edge_joined in E. exact E.
  - intros y a b Ha H. apply tn_add_tumor_node_keeps in H.
    eapply keeps_edges_joined; eauto.
Qed.

Lemma tn_edges_complete_general counts nt counts' t df row :
  TumorNetwork.create_network s types counts d = Some (nt, counts') ->
  In t types -> dict_get t d = Some df -> In row df ->
  is_joined "GCH1" t nt = true /\ is_joined t (gene_symbol row) nt = true.
Proof.
  unfold TumorNetwork.create_network.
  destruct (foldM (TumorNetwork.add_tumor_node d) _ _) as [st1|] eqn:E1; [|discriminate].
  destruct (foldM (TumorNetwork.add_specific_genes s d _) _ _) as [st2|] eqn:E2;
    [|discriminate].
  destruct (foldM (TumorNetwork.add_cross_gene s) _ _) as [st3|] eqn:E3; [|discriminate].
  intros [= <- <-] Ht Hd Hrow.
  assert (keeps_edges st1 st2) as K12.
  { revert E2. apply (foldM_preorder keeps_edges).
    - apply keeps_edges_refl.
    - apply keeps_edges_trans.
    - intros y a b _. apply tn_add_specific_genes_keeps. }
  assert (keeps_edges st2 st3) as K23.
  { revert E3. apply (foldM_preorder keeps_edges).
    - apply keeps_edges_refl.
    - apply keeps_edges_trans.
    - intros y a b _. apply tn_add_cross_gene_keeps. }
  split.
  - apply (keeps_edges_joined _ _ K23), (keeps_edges_joined _ _ K12).
    eapply tn_tumor_loop_joins; eauto. unfold dict_mem. now rewrite Hd.
  - set (g := gene_symbol row).
    assert (appears_in g t d) as Happ.
    { eapply appears_in_row; eauto. now apply dict_get_In. }
    destruct (TumorNetwork.is_tumor_specific (TumorNetwork.collect_all_genes d) g)
      eqn:Espec.
    + apply (keeps_edges_joined _ _ K23).
      eapply tn_specific_loop_joins; eauto.
    + assert (TumorNetwork.is_cross_tumor (TumorNetwork.collect_all_genes d) g = true)
        as Hcross.
      { pose proof (@tn_specific_or_cross d g t Hwf Happ) as H.
        rewrite Espec in H. exact H. }
      unfold TumorNetwork.is_cross_tumor, dict_mem in Hcross.
      destruct (dict_get g (TumorNetwork.cross_tumor_genes _)) as [tp|] eqn:Eg;
        [|discriminate].
      apply dict_get_In in Eg.
      destruct (@cross_tumor_genes_In d g tp Hwf Eg) as [Hm _].
      assert (exists p, In (t, p) tp) as [p Hp].
      { apply tumors_with_In in Happ. rewrite <- memberships_keys, <- Hm in Happ.
        unfold dict_keys in Happ. apply in_map_iff in Happ.
        destruct Happ as [[t' p] [E Hin]]. simpl in E. subst t'. eauto. }
      eapply tn_cross_loop_joins; eauto.
Qed.

End NetworkEdgesComplete.

Lemma tn_centre_joined s types counts (d : PyDict DataFrame) nt counts' t :
  TumorNetwork.create_network s types counts d = Some (nt, counts') ->
  In t types -> dict_mem t d = true ->
  is_joined "GCH1" t nt = true.
Proof.
  unfold TumorNetwork.create_network.
  destruct (foldM (TumorNetwork.add_tumor_node d) _ _) as [st1|] eqn:E1; [|discriminate].
  destruct (foldM (TumorNetwork.add_specific_genes s d _) _ _) as [st2|] eqn:E2;
    [|discriminate].
  destruct (foldM (TumorNetwork.add_cross_gene s) _ _) as [st3|] eqn:E3; [|discriminate].
  intros [= <- <-] Ht Hm.
  assert (keeps_edges st1 st2) as K12.
  { revert E2. apply (foldM_preorder keeps_edges).
    - apply keeps_edges_refl.
    - apply keeps_edges_trans.
    - intros y a b _. apply tn_add_specific_genes_keeps. }
  assert (keeps_edges st2 st3) as K23.
  { revert E3. apply (foldM_preorder keeps_edges).
    - apply keeps_edges_refl.
    - apply keeps_edges_trans.
    - intros y a b _. apply tn_add_cross_gene_keeps. }
  apply (keeps_edges_joined _ _ K23), (keeps_edges_joined _ _ K12).
  eapply tn_tumor_loop_joins; eauto.
Qed.

(** X19.  The edges of the network are complete.  On tables whose rows all
    pass the threshold (as [load_all_data] returns them), when
    [create_network] returns, every discovered tumor type that has a table,
    be it empty, is joined to the centre GCH1, and every row of its table is
    drawn: the tumor type is joined to the gene of the row, be the gene
    tumor-specific or cross-tumor. *)
Theorem tn_edges_complete (s : Settings) (tumor_types : list string)
  (counts : PyDict nat) (tumor_data : PyDict DataFrame) (nt : Network)
  (counts' : PyDict nat) (t : string) (df : DataFrame) :
  dict_wf tumor_data ->
  all_above (min_correlation s) tumor_data ->
  TumorNetwork.create_network s tumor_types counts tumor_data = Some (nt, counts') ->
  In t tumor_types ->
  dict_get t tumor_data = Some df ->
  is_joined "GCH1" t nt = true
  /\ forall row, In row df -> is_joined t (gene_symbol row) nt = true.
Proof.
  intros Hwf Hlow Hc Ht Hd. split.
  - apply (@tn_centre_joined s tumor_types counts tumor_data nt counts' t Hc Ht).
    unfold dict_mem. now rewrite Hd.
  - intros row Hrow.
    exact (proj2 (@tn_edges_complete_general s tumor_types tumor_data Hwf Hlow counts
                    nt counts' t df row Hc Ht Hd Hrow)).
Qed.

Lemma data_with_empty_above : all_above (1 # 2) data_with_empty.
Proof.
  intros t df row [[= <- <-]|[[= <- <-]|[]]] Hr; simpl in Hr.
  - destruct Hr.
  - destruct Hr as [<-|[<-|[]]]; simpl; unfold Qle; simpl; lia.
Qed.

Lemma tn_edges_complete_witness :
  exists nt counts',
    TumorNetwork.create_network TumorNetwork.default_settings ["A"; "B"] []
                                data_with_empty = Some (nt, counts')
    /\ is_joined "GCH1" "A" nt = true
    /\ is_joined "GCH1" "B" nt = true /\ is_joined "B" "g3" nt = true.
Proof.
  evaluate_as E (TumorNetwork.create_network TumorNetwork.default_settings ["A"; "B"]
                   [] data_with_empty).
  do 2 eexists. split; [exact E|].
  destruct (@tn_edges_complete TumorNetwork.default_settings ["A"; "B"] []
              data_with_empty _ _ "A" [] data_with_empty_wf data_with_empty_above E)
    as [HA _]; [simpl; auto | reflexivity |].
  destruct (@tn_edges_complete TumorNetwork.default_settings ["A"; "B"] []
              data_with_empty _ _ "B" table_B data_with_empty_wf data_with_empty_above E)
    as [HB Hrows]; [simpl; auto | reflexivity |].
  split; [exact HA|]. split; [exact HB|].
  apply (Hrows {| gene_symbol := "g3"; PCC := 55 # 100 |}). simpl. auto.
Defined.

(** ** The warnings of [create_survival_tree] *)

Lemma map_snd_enumerate {A : Type} (l : list A) : map snd (enumerate l) = l.
Proof.
  unfold enumerate. generalize 0%nat.
  induction l as [|x l IH]; intros n; simpl; [reflexivity|]. now rewrite IH.
Qed.

Lemma bst_add_gene_node_log s t st row st' :
  BadSurvivalTree.add_gene_node s t st row = Some st' ->
  BadSurvivalTree.log st' = BadSurvivalTree.log st.
Proof.
  unfold BadSurvivalTree.add_gene_node.
  destruct (BadSurvivalTree.size_scale s (PCC row)); [|discriminate].
  destruct (add_edge _ _); [|discriminate]. now intros [= <-].
Qed.

Lemma bst_add_tumor_branch_log s st item st' :
  BadSurvivalTree.add_tumor_branch s st item = Some st' ->
  BadSurvivalTree.log st' =
  BadSurvivalTree.log st ++ empty_table_warnings [snd item].
Proof.
  destruct item as [idx [t df]]. unfold BadSurvivalTree.add_tumor_branch.
  unfold empty_table_warnings. simpl.
  destruct (df_empty df) eqn:Ee.
  - now intros [= <-].
  - destruct (add_edge _ _) as [net2|]; [|discriminate]. intros Hf.
    rewrite app_nil_r.
    apply (foldM_invariant
             (fun a => BadSurvivalTree.log a = BadSurvivalTree.log st)
             (BadSurvivalTree.add_gene_node s t)
             (nlargest (max_genes_per_tumor s) df)) in Hf; auto.
    intros row a b _ Ha Hb. rewrite (bst_add_gene_node_log _ _ _ _ Hb). exact Ha.
Qed.

Lemma bst_branches_log s l : forall st st',
  foldM (BadSurvivalTree.add_tumor_branch s) l st = Some st' ->
  BadSurvivalTree.log st' =
  BadSurvivalTree.log st ++ empty_table_warnings (map snd l).
Proof.
  induction l as [|item l IH]; intros st st' Hf; simpl in Hf.
  - injection Hf as <-. unfold empty_table_warnings. simpl. now rewrite app_nil_r.
  - destruct (BadSurvivalTree.add_tumor_branch s st item) as [st1|] eqn:E; [|discriminate].
    rewrite (IH _ _ Hf), (bst_add_tumor_branch_log _ _ _ E), <- app_assoc.
    f_equal. unfold empty_table_warnings. simpl.
    destruct (df_empty (snd (snd item))); reflexivity.
Qed.

(** X20.  The warnings of the survival tree.  When [create_survival_tree]
    returns, the warnings it has logged are one "no data" warning for every
    tumor type whose table is empty, in the order of the tables, and no
    other. *)
Theorem bst_warnings_exact (s : Settings) (counts : PyDict nat)
  (tumor_data : PyDict DataFrame) (nt : Network) (counts' : PyDict nat)
  (lg : list LogRecord) :
  BadSurvivalTree.create_survival_tree s counts tumor_data = Some (nt, counts', lg) ->
  lg = empty_table_warnings tumor_data.
Proof.
  unfold BadSurvivalTree.create_survival_tree.
  destruct (BadSurvivalTree.build_branches s counts tumor_data) as [st|] eqn:Eb;
    [|discriminate].
  destruct (foldM BadSurvivalTree.mark_cross_gene _ _); [|discriminate].
  intros [= _ _ <-]. unfold BadSurvivalTree.build_branches in Eb.
  apply bst_branches_log in Eb. rewrite Eb. simpl.
  now rewrite map_snd_enumerate.
Qed.

Lemma bst_warnings_exact_witness :
  exists nt counts',
    BadSurvivalTree.create_survival_tree BadSurvivalTree.default_settings []
      data_with_empty = Some (nt, counts', empty_table_warnings data_with_empty).
Proof.
  evaluate_as E (BadSurvivalTree.create_survival_tree BadSurvivalTree.default_settings
                   [] data_with_empty).
  pose proof (@bst_warnings_exact BadSurvivalTree.default_settings [] data_with_empty
                _ _ _ E) as H.
  do 2 eexists. rewrite <- H. exact E.
Defined.

(** ** Tables that pass the threshold whole *)

Lemma filter_pcc_ge_all threshold df :
  (forall row, In row df -> threshold <= PCC row) ->
  filter_pcc_ge threshold df = df.
Proof.
  unfold filter_pcc_ge. induction df as [|r df IH]; intros H; simpl; [reflexivity|].
  assert (Qle_bool threshold (PCC r) = true) as ->.
  { apply Qle_bool_iff. apply H. now left. }
  rewrite IH; auto. intros row Hr. apply H. now right.
Qed.

(** X21.  A table without rows below the threshold is loaded as it is.  When
    the file of a discovered tumor type can be read and none of its rows
    has a PCC below [min_correlation], [load_all_data] stores the table
    unchanged: same rows, same order. *)
Theorem load_all_data_keeps_passing_table (read_csv : string -> CsvFile)
  (s : Settings) (tumor_types : list string) (counts : PyDict nat)
  (t : string) (df : DataFrame) :
  In t tumor_types ->
  read_csv t = Readable df ->
  (forall row, In row df -> min_correlation s <= PCC row) ->
  dict_get t (all_data (load_all_data read_csv s tumor_types counts)) = Some df.
Proof.
  intros Ht Hr Hall. rewrite load_all_data_get, Hr.
  assert (existsb (String.eqb t) tumor_types = true) as ->.
  { apply existsb_exists. exists t. split; auto. apply String.eqb_refl. }
  now rewrite filter_pcc_ge_all.
Qed.

Lemma load_all_data_keeps_passing_table_witness :
  dict_get "A" (all_data (load_all_data example_directory TumorNetwork.default_settings
                                        ["A"; "B"] []))
  = Some table_A.
Proof.
  apply load_all_data_keeps_passing_table.
  - simpl. auto.
  - reflexivity.
  - intros row Hr. simpl in Hr.
    destruct Hr as [<-|[<-|[]]]; simpl; unfold Qle; simpl; lia.
Defined.

(** ** The marks on the cross-tumor genes of the survival tree *)

Lemma update_first_marks id (f : Node -> Node) l l' :
  (forall n, n_id (f n) = n_id n) ->
  (forall n, n_shape (f n) = Diamond) ->
  update_first id f l = Some l' ->
  exists n, find (fun n => String.eqb (n_id n) id) l' = Some n /\ n_shape n = Diamond.
Proof.
  intros Hid Hsh. revert l'. induction l as [|n l IH]; intros l' H; simpl in H.
  - discriminate.
  - destruct (String.eqb (n_id n) id) eqn:E.
    + injection H as <-. exists (f n). simpl. rewrite Hid, E. auto.
    + destruct (update_first id f l) as [l1|]; [|discriminate].
      injection H as <-. simpl. rewrite E. now apply IH.
Qed.

Lemma update_first_keeps_mark id0 id (f : Node -> Node) l l' :
  (forall n, n_id (f n) = n_id n) ->
  (forall n, n_shape (f n) = Diamond) ->
  (exists n, find (fun n => String.eqb (n_id n) id0) l = Some n /\ n_shape n = Diamond) ->
  update_first id f l = Some l' ->
  exists n, find (fun n => String.eqb (n_id n) id0) l' = Some n /\ n_shape n = Diamond.
Proof.
  intros Hid Hsh. revert l'. induction l as [|n l IH]; intros l' [m [Hm Hd]] H; simpl in H.
  - discriminate.
  - simpl in Hm. destruct (String.eqb (n_id n) id) eqn:E.
    + injection H as <-. simpl. rewrite Hid.
      destruct (String.eqb (n_id n) id0); eauto.
    + destruct (update_first id f l) as [l1|] eqn:E1; [|discriminate].
      injection H as <-. simpl.
      destruct (String.eqb (n_id n) id0); eauto.
Qed.

Lemma mark_instance_marks g nt t nt' :
  BadSurvivalTree.mark_instance g nt t = Some nt' ->
  is_diamond (BadSurvivalTree.gene_node_id g t) nt'.
Proof.
  unfold BadSurvivalTree.mark_instance, update_node, is_diamond, get_node.
  destruct (update_first _ _ (nodes nt)) as [ns|] eqn:E; [|discriminate].
  intros [= <-]. simpl.
  match type of E with update_first ?i ?f ?l = _ =>
    exact (@update_first_marks i f l ns (fun _ => eq_refl) (fun _ => eq_refl) E)
  end.
Qed.

Lemma mark_instance_keeps id g nt t nt' :
  is_diamond id nt ->
  BadSurvivalTree.mark_instance g nt t = Some nt' ->
  is_diamond id nt'.
Proof.
  unfold BadSurvivalTree.mark_instance, update_node, is_diamond, get_node.
  intros Hd. destruct (update_first _ _ (nodes nt)) as [ns|] eqn:E; [|discriminate].
  intros [= <-]. simpl.
  match type of E with update_first ?i ?f ?l = _ =>
    exact (@update_first_keeps_mark id i f l ns (fun _ => eq_refl) (fun _ => eq_refl) Hd E)
  end.
Qed.

Lemma mark_cross_gene_keeps id nt item nt' :
  is_diamond id nt ->
  BadSurvivalTree.mark_cross_gene nt item = Some nt' ->
  is_diamond id nt'.
Proof.
  destruct item as [g tumors]. unfold BadSurvivalTree.mark_cross_gene.
  intros Hd. destruct (1 <? List.length tumors)%nat.
  - apply (foldM_invariant (is_diamond id)); auto.
    intros t a b _ Ha Hb. eapply mark_instance_keeps; eauto.
  - now intros [= <-].
Qed.

Lemma mark_cross_gene_marks g tumors t nt nt' :
  (1 < List.length tumors)%nat -> In t tumors ->
  BadSurvivalTree.mark_cross_gene nt (g, tumors) = Some nt' ->
  is_diamond (BadSurvivalTree.gene_node_id g t) nt'.
Proof.
  intros Hlen Ht. unfold BadSurvivalTree.mark_cross_gene.
  apply Nat.ltb_lt in Hlen. rewrite Hlen.
  apply (@foldM_reaches _ _ (is_diamond (BadSurvivalTree.gene_node_id g t))
           (BadSurvivalTree.mark_instance g) tumors t Ht).
  - intros a b. apply mark_instance_marks.
  - intros y a b Ha Hb. eapply mark_instance_keeps; eauto.
Qed.

Lemma bst_marks_general s counts d nt counts' lg g t :
  BadSurvivalTree.create_survival_tree s counts d = Some (nt, counts', lg) ->
  (1 < List.length (tracked_tumors s g d))%nat ->
  In t (tracked_tumors s g d) ->
  is_diamond (BadSurvivalTree.gene_node_id g t) nt.
Proof.
  unfold BadSurvivalTree.create_survival_tree.
  destruct (BadSurvivalTree.build_branches s counts d) as [st|] eqn:Eb; [|discriminate].
  destruct (foldM BadSurvivalTree.mark_cross_gene _ _) as [nt1|] eqn:Em; [|discriminate].
  intros [= <- _ _] Hlen Ht.
  rewrite <- (@build_branches_tracked s counts d st g Eb) in Hlen, Ht.
  unfold tumors_of in Hlen, Ht.
  destruct (dict_get g (BadSurvivalTree.gene_tumors st)) as [tumors|] eqn:Eg;
    [|destruct Ht].
  apply dict_get_In in Eg. revert Em.
  apply (@foldM_reaches _ _ (is_diamond (BadSurvivalTree.gene_node_id g t))
           BadSurvivalTree.mark_cross_gene
           (dict_items (BadSurvivalTree.gene_tumors st)) (g, tumors) Eg).
  - intros a b. now apply mark_cross_gene_marks.
  - intros y a b Ha Hb. eapply mark_cross_gene_keeps; eauto.
Qed.

(** X22.  Every instance of a cross-tumor gene of the survival tree is marked.
    When [create_survival_tree] returns and gene [g] was recorded more than
    once (one record per row of [g] among the top rows of a table), then for
    every tumor type [t] recorded for [g] the node [g_t] is in the network
    and is drawn as a diamond. *)
Theorem bst_cross_instances_marked (s : Settings) (counts : PyDict nat)
  (tumor_data : PyDict DataFrame) (nt : Network) (counts' : PyDict nat)
  (lg : list LogRecord) (g t : string) :
  BadSurvivalTree.create_survival_tree s counts tumor_data = Some (nt, counts', lg) ->
  (1 < List.length (tracked_tumors s g tumor_data))%nat ->
  In t (tracked_tumors s g tumor_data) ->
  is_diamond (BadSurvivalTree.gene_node_id g t) nt.
Proof.
  intros Hc Hlen Ht. exact (@bst_marks_general s counts tumor_data nt counts' lg g t Hc Hlen Ht).
Qed.

Lemma bst_cross_instances_marked_witness :
  exists nt counts' lg,
    BadSurvivalTree.create_survival_tree BadSurvivalTree.default_settings []
      example_data = Some (nt, counts', lg)
    /\ is_diamond "g1_B" nt.
Proof.
  evaluate_as E (BadSurvivalTree.create_survival_tree BadSurvivalTree.default_settings
                   [] example_data).
  do 3 eexists. split; [exact E|].
  apply (@bst_cross_instances_marked BadSurvivalTree.default_settings [] example_data
           _ _ _ "g1" "B" E).
  - simpl. lia.
  - simpl. auto.
Defined.

(** ** The counts of [create_network] *)

Lemma dict_incr_get k counts counts' t :
  dict_incr k counts = Some counts' ->
  dict_get t counts' =
  if String.eqb k t then option_map S (dict_get t counts) else dict_get t counts.
Proof.
  unfold dict_incr. destruct (dict_get k counts) as [c|] eqn:E; [|discriminate].
  intros [= <-]. destruct (String.eqb_spec k t) as [->|Hne].
  - now rewrite dict_get_set_same, E.
  - now rewrite dict_get_set_other.
Qed.

Lemma option_map_add_S (n : nat) (x : option nat) :
  option_map (Nat.add n) (option_map S x) = option_map (Nat.add (S n)) x.
Proof. destruct x; simpl; [f_equal; lia | reflexivity]. Qed.

Lemma tn_add_tumor_node_count d t st item st' :
  TumorNetwork.add_tumor_node d st item = Some st' ->
  tn_count t st' =
  if String.eqb (snd item) t && dict_mem t d then Some 0%nat else tn_count t st.
Proof.
  destruct item as [idx tt]. unfold TumorNetwork.add_tumor_node, tn_count. simpl.
  destruct (String.eqb_spec tt t) as [->|Hne]; simpl.
  - destruct (dict_mem t d); simpl.
    + destruct (add_edge _ _); [|discriminate]. intros [= <-]. simpl.
      apply dict_get_set_same.
    + now intros [= <-].
  - destruct (dict_mem tt d); simpl.
    + destruct (add_edge _ _); [|discriminate]. intros [= <-]. simpl.
      now apply dict_get_set_other.
    + now intros [= <-].
Qed.

Lemma tn_tumor_loop_count d t l : forall st st',
  In t (map snd l) -> dict_mem t d = true ->
  foldM (TumorNetwork.add_tumor_node d) l st = Some st' ->
  tn_count t st' = Some 0%nat.
Proof.
  intros st st' Hin Hm. apply in_map_iff in Hin. destruct Hin as [[i t'] [E Hin]].
  simpl in E. subst t'.
  apply (@foldM_reaches _ _ (fun a => tn_count t a = Some 0%nat)
           (TumorNetwork.add_tumor_node d) l (i, t) Hin).
  - intros a b Hb. rewrite (@tn_add_tumor_node_count d t _ _ _ Hb). simpl.
    now rewrite String.eqb_refl, Hm.
  - intros y a b Ha Hb. rewrite (@tn_add_tumor_node_count d t _ _ _ Hb).
    destruct (String.eqb (snd y) t && dict_mem t d); auto.
Qed.

Lemma tn_add_specific_gene_count s t' st row st' t :
  TumorNetwork.add_specific_gene s t' st row = Some st' ->
  tn_count t st' =
  if String.eqb t' t then option_map S (tn_count t st) else tn_count t st.
Proof.
  unfold TumorNetwork.add_specific_gene, tn_count.
  destruct (TumorNetwork.node_size s (PCC row)); [|discriminate].
  destruct (add_edge _ _); [|discriminate].
  destruct (dict_incr t' (TumorNetwork.gene_counts st)) as [c|] eqn:E; [|discriminate].
  intros [= <-]. simpl. now apply dict_incr_get.
Qed.

Lemma tn_specific_rows_count s t' t rows : forall st st',
  foldM (TumorNetwork.add_specific_gene s t') rows st = Some st' ->
  tn_count t st' =
  if String.eqb t' t then option_map (Nat.add (List.length rows)) (tn_count t st)
  else tn_count t st.
Proof.
  induction rows as [|r rows IH]; intros st st' Hf; simpl in Hf.
  - injection Hf as <-. destruct (String.eqb t' t); auto.
    now destruct (tn_count t st).
  - destruct (TumorNetwork.add_specific_gene s t' st r) as [st1|] eqn:E; [|discriminate].
    rewrite (IH _ _ Hf), (@tn_add_specific_gene_count s t' st r st1 t E).
    destruct (String.eqb t' t); auto. apply option_map_add_S.
Qed.

Lemma tn_add_specific_genes_count s d all_genes t' st st' t :
  TumorNetwork.add_specific_genes s d all_genes st t' = Some st' ->
  tn_count t st' =
  if String.eqb t' t then
    match dict_get t d with
    | Some df =>
        option_map
          (Nat.add (List.length
                      (filter_gene (TumorNetwork.is_tumor_specific all_genes) df)))
          (tn_count t st)
    | None => tn_count t st
    end
  else tn_count t st.
Proof.
  unfold TumorNetwork.add_specific_genes.
  destruct (String.eqb_spec t' t) as [->|Hne].
  - destruct (dict_get t d) as [df|]; [|now intros [= <-]].
    destruct (dict_get t (TumorNetwork.tumor_positions st)); [|discriminate].
    intros Hf. apply (@tn_specific_rows_count s t t) in Hf.
    rewrite String.eqb_refl in Hf. rewrite Hf. f_equal. f_equal.
    destruct (negb (df_empty _)); auto.
    apply Permutation_length, sort_values_desc_perm.
  - destruct (dict_get t' d) as [df|]; [|now intros [= <-]].
    destruct (dict_get t' (TumorNetwork.tumor_positions st)); [|discriminate].
    intros Hf. apply (@tn_specific_rows_count s t' t) in Hf.
    apply String.eqb_neq in Hne. now rewrite Hne in Hf.
Qed.

Lemma tn_specific_loop_other s d all_genes t l : forall st st',
  ~ In t l ->
  foldM (TumorNetwork.add_specific_genes s d all_genes) l st = Some st' ->
  tn_count t st' = tn_count t st.
Proof.
  induction l as [|x l IH]; intros st st' Hn Hf; simpl in Hf.
  - now injection Hf as <-.
  - destruct (TumorNetwork.add_specific_genes s d all_genes st x) as [st1|] eqn:E;
      [|discriminate].
    rewrite (IH _ _ (fun H => Hn (or_intror H)) Hf).
    rewrite (@tn_add_specific_genes_count s d all_genes x st st1 t E).
    destruct (String.eqb_spec x t) as [->|Hne]; auto.
    exfalso. apply Hn. now left.
Qed.

Lemma tn_specific_loop_count s d all_genes t df l : forall st st',
  dict_get t d = Some df ->
  NoDup l -> In t l ->
  foldM (TumorNetwork.add_specific_genes s d all_genes) l st = Some st' ->
  tn_count t st' =
  option_map
    (Nat.add (List.length (filter_gene (TumorNetwork.is_tumor_specific all_genes) df)))
    (tn_count t st).
Proof.
  induction l as [|x l IH]; intros st st' Hd Hnd Hin Hf; [destruct Hin|].
  simpl in Hf.
  destruct (TumorNetwork.add_specific_genes s d all_genes st x) as [st1|] eqn:E;
    [|discriminate].
  inversion Hnd as [|? ? Hx Hl]; subst.
  pose proof (@tn_add_specific_genes_count s d all_genes x st st1 t E) as H1.
  destruct (String.eqb_spec x t) as [->|Hne].
  - rewrite (@tn_specific_loop_other s d all_genes t l st1 st' Hx Hf), H1, Hd.
    reflexivity.
  - destruct Hin as [->|Hin]; [congruence|].
    rewrite (IH _ _ Hd Hl Hin Hf), H1. reflexivity.
Qed.

Lemma tn_add_cross_edge_count s g st item st' t :
  TumorNetwork.add_cross_edge s g st item = Some st' ->
  tn_count t st' =
  if Qle_bool (min_correlation s) (snd item) && String.eqb (fst item) t
  then option_map S (tn_count t st) else tn_count t st.
Proof.
  destruct item as [t' p]. unfold TumorNetwork.add_cross_edge, tn_count. simpl.
  destruct (Qle_bool (min_correlation s) p); simpl; [|now intros [= <-]].
  destruct (add_edge _ _); [|discriminate].
  destruct (dict_incr t' (TumorNetwork.gene_counts st)) as [c|] eqn:E; [|discriminate].
  intros [= <-]. simpl. now apply dict_incr_get.
Qed.

Lemma tn_cross_edges_count s g t : forall (pccs : PyDict Q) st st',
  (forall item, In item pccs -> Qle_bool (min_correlation s) (snd item) = true) ->
  dict_wf pccs ->
  foldM (TumorNetwork.add_cross_edge s g) pccs st = Some st' ->
  tn_count t st' =
  if dict_mem t pccs then option_map S (tn_count t st) else tn_count t st.
Proof.
  induction pccs as [|[t' p] pccs IH]; intros st st' Hall Hwf Hf; cbn [foldM] in Hf.
  - now injection Hf as <-.
  - destruct (TumorNetwork.add_cross_edge s g st (t', p)) as [st1|] eqn:E; [|discriminate].
    inversion Hwf as [|? ? Hx Hl]; subst.
    rewrite (IH _ _ (fun item H => Hall item (or_intror H)) Hl Hf).
    rewrite (@tn_add_cross_edge_count s g st (t', p) st1 t E). simpl.
    pose proof (Hall (t', p) (or_introl eq_refl)) as Hp. simpl in Hp. rewrite Hp. simpl.
    unfold dict_mem at 2. cbn [dict_get].
    destruct (String.eqb_spec t' t) as [->|Hne].
    + rewrite String.eqb_refl.
      assert (dict_mem t pccs = false) as ->; [|reflexivity].
      destruct (dict_mem t pccs) eqn:Em; auto.
      apply dict_mem_In in Em. contradiction.
    + assert (String.eqb t t' = false) as -> by (apply String.eqb_neq; congruence).
      reflexivity.
Qed.

Lemma tn_add_cross_gene_count s d st item st' t :
  dict_wf d -> all_above (min_correlation s) d ->
  In item (TumorNetwork.cross_tumor_genes (TumorNetwork.collect_all_genes d)) ->
  TumorNetwork.add_cross_gene s st item = Some st' ->
  tn_count t st' =
  if dict_mem t (snd item) then option_map S (tn_count t st) else tn_count t st.
Proof.
  intros Hwf Hlow Hin. destruct item as [g pccs].
  destruct (@cross_gene_main_tumor d g pccs Hwf Hin)
    as [Hm [main [main_pcc [before [after [Hmain [Hget _]]]]]]].
  unfold TumorNetwork.add_cross_gene. rewrite Hmain, Hget.
  pose proof (@cross_scores_above s d g pccs main main_pcc Hwf Hlow Hin
                (dict_get_In _ _ Hget)) as Hpass.
  unfold Qlt_bool.
  assert (negb (Qle_bool (min_correlation s) main_pcc) = false) as Hneg
    by (now rewrite Hpass).
  destruct (negb (Qle_bool (min_correlation s) main_pcc)); [discriminate|].
  destruct (dict_get main (TumorNetwork.tumor_positions st)); [|discriminate].
  destruct (TumorNetwork.node_size s main_pcc); [|discriminate].
  intros Hf. apply (@tn_cross_edges_count s g t) in Hf.
  - exact Hf.
  - intros [t' p] Hp. simpl.
    exact (@cross_scores_above s d g pccs t' p Hwf Hlow Hin Hp).
  - rewrite Hm. now apply memberships_wf.
Qed.

Lemma tn_cross_loop_count s d t :
  dict_wf d -> all_above (min_correlation s) d ->
  forall (l : list (string * PyDict Q)) st st',
  incl l (TumorNetwork.cross_tumor_genes (TumorNetwork.collect_all_genes d)) ->
  foldM (TumorNetwork.add_cross_gene s) l st = Some st' ->
  tn_count t st' =
  option_map
    (Nat.add (List.length
                (filter (fun item : string * PyDict Q => dict_mem t (snd item)) l)))
    (tn_count t st).
Proof.
  intros Hwf Hlow. induction l as [|item l IH]; intros st st' Hincl Hf; simpl in Hf.
  - injection Hf as <-. simpl. now destruct (tn_count t st).
  - destruct (TumorNetwork.add_cross_gene s st item) as [st1|] eqn:E; [|discriminate].
    rewrite (IH _ _ (fun x H => Hincl x (or_intror H)) Hf).
    rewrite (@tn_add_cross_gene_count s d st item st1 t Hwf Hlow
               (Hincl item (or_introl eq_refl)) E).
    simpl. destruct (dict_mem t (snd item)); simpl; auto.
    rewrite option_map_add_S. reflexivity.
Qed.

Lemma tn_gene_counts_general s types counts d nt counts' t df :
  dict_wf d -> all_above (min_correlation s) d ->
  NoDup types -> In t types -> dict_get t d = Some df ->
  TumorNetwork.create_network s types counts d = Some (nt, counts') ->
  dict_get t counts' = Some (tn_expected_count t df d).
Proof.
  intros Hwf Hlow Hnd Ht Hd. unfold TumorNetwork.create_network.
  destruct (foldM (TumorNetwork.add_tumor_node d) _ _) as [st1|] eqn:E1; [|discriminate].
  destruct (foldM (TumorNetwork.add_specific_genes s d _) _ _) as [st2|] eqn:E2;
    [|discriminate].
  destruct (foldM (TumorNetwork.add_cross_gene s) _ _) as [st3|] eqn:E3; [|discriminate].
  intros [= _ <-].
  apply (@tn_tumor_loop_count d t) in E1.
  - apply (@tn_specific_loop_count s d _ t df _ _ _ Hd Hnd Ht) in E2.
    apply (@tn_cross_loop_count s d t Hwf Hlow) in E3; [|apply incl_refl].
    unfold tn_count in *. rewrite E3, E2, E1. simpl. unfold tn_expected_count.
    f_equal. unfold dict_items. lia.
  - now rewrite map_snd_enumerate.
  - unfold dict_mem. now rewrite Hd.
Qed.

(** Selecting items keeps their keys distinct. *)
Lemma distinct_keys_selected {Item Key : Type} (key : Item -> Key)
  (keep : Item -> bool) : forall items : list Item,
  NoDup (map key items) -> NoDup (map key (filter keep items)).
Proof.
  intros items. induction items as [|x items IH]; intros Hkeys; cbn.
  - constructor.
  - apply NoDup_cons_iff in Hkeys. destruct Hkeys as [Hx Hrest].
    destruct (keep x); cbn; [|now apply IH].
    apply NoDup_cons; [|now apply IH].
    rewrite in_map_iff. intros [y [Ey Hy]]. apply Hx.
    rewrite <- Ey. apply in_map. apply filter_In in Hy. tauto.
Qed.

Lemma tn_row_not_specific_is_cross d t df row :
  dict_wf d -> dict_get t d = Some df -> In row df ->
  negb (TumorNetwork.is_tumor_specific (TumorNetwork.collect_all_genes d)
                                       (gene_symbol row))
  = TumorNetwork.is_cross_tumor (TumorNetwork.collect_all_genes d) (gene_symbol row).
Proof.
  intros Hwf Hd Hrow.
  rewrite is_tumor_specific_length, is_cross_tumor_length by assumption.
  assert (In t (tumors_with (gene_symbol row) d)) as Hin.
  { apply tumors_with_In. exists df. split; [now apply dict_get_In|].
    apply has_gene_In. eauto. }
  destruct (tumors_with (gene_symbol row) d) as [|a [|b l]]; [destruct Hin| |];
    reflexivity.
Qed.

Lemma tn_cross_rows_and_entries d t df g :
  dict_wf d -> dict_get t d = Some df ->
  In g (map gene_symbol
          (filter (fun row =>
                     TumorNetwork.is_cross_tumor (TumorNetwork.collect_all_genes d)
                                                 (gene_symbol row)) df))
  <-> In g (map fst
              (filter (fun item : string * PyDict Q => dict_mem t (snd item))
                      (TumorNetwork.cross_tumor_genes
                         (TumorNetwork.collect_all_genes d)))).
Proof.
  intros Hwf Hd. rewrite !in_map_iff. split.
  - intros [row [E Hrow]]. apply filter_In in Hrow. destruct Hrow as [Hrow Hc].
    rewrite E in Hc. unfold TumorNetwork.is_cross_tumor, dict_mem in Hc.
    destruct (dict_get g (TumorNetwork.cross_tumor_genes
                            (TumorNetwork.collect_all_genes d))) as [pccs|] eqn:Eg;
      [|discriminate].
    apply dict_get_In in Eg. exists (g, pccs). split; [reflexivity|].
    apply filter_In. split; [exact Eg|]. simpl.
    destruct (@cross_tumor_genes_In d g pccs Hwf Eg) as [-> _].
    apply dict_mem_In. rewrite memberships_keys. apply tumors_with_In.
    exists df. split; [now apply dict_get_In|]. apply has_gene_In. eauto.
  - intros [[g' pccs] [E Hitem]]. simpl in E. subst g'.
    apply filter_In in Hitem. destruct Hitem as [Hitem Hm]. simpl in Hm.
    destruct (@cross_tumor_genes_In d g pccs Hwf Hitem) as [-> _].
    apply dict_mem_In in Hm. rewrite memberships_keys in Hm.
    apply tumors_with_In in Hm. destruct Hm as [df' [Hin Hg]].
    rewrite (@In_dict_get _ t df' d Hwf Hin) in Hd. injection Hd as ->.
    apply has_gene_In in Hg. destruct Hg as [row [Hrow E]].
    exists row. split; [exact E|]. apply filter_In. split; [exact Hrow|].
    rewrite E. unfold TumorNetwork.is_cross_tumor. apply dict_mem_In.
    unfold dict_keys. apply in_map_iff. exists (g, memberships g d). auto.
Qed.

Lemma tn_expected_count_rows t df d :
  dict_wf d -> dict_get t d = Some df -> NoDup (map gene_symbol df) ->
  tn_expected_count t df d = List.length df.
Proof.
  intros Hwf Hd Hnd. unfold tn_expected_count, filter_gene.
  rewrite <- (filter_length
                (fun row => TumorNetwork.is_tumor_specific
                              (TumorNetwork.collect_all_genes d) (gene_symbol row)) df).
  f_equal.
  rewrite (@filter_ext_in _
             (fun row => negb (TumorNetwork.is_tumor_specific
                                 (TumorNetwork.collect_all_genes d) (gene_symbol row)))
             (fun row => TumorNetwork.is_cross_tumor
                           (TumorNetwork.collect_all_genes d) (gene_symbol row)) df).
  - rewrite <- (length_map fst), <- (length_map gene_symbol).
    apply Permutation_length. apply NoDup_Permutation.
    + apply distinct_keys_selected. unfold TumorNetwork.cross_tumor_genes, dict_items.
      apply distinct_keys_selected. apply collect_all_genes_wf.
    + now apply distinct_keys_selected.
    + intros g. symmetry. now apply tn_cross_rows_and_entries.
  - intros row Hrow. now apply (@tn_row_not_specific_is_cross d t df row).
Qed.

(** X23.  What [create_network] counts for a tumor type.  On tables whose
    rows all pass the threshold and with every tumor type discovered once,
    the number reported for a discovered tumor type is the number of rows of
    its tumor-specific genes plus the number of cross-tumor genes that have a
    score for it, whatever the counter held before. *)
Theorem tn_gene_counts (s : Settings) (tumor_types : list string)
  (counts : PyDict nat) (tumor_data : PyDict DataFrame) (nt : Network)
  (counts' : PyDict nat) (t : string) (df : DataFrame) :
  dict_wf tumor_data ->
  all_above (min_correlation s) tumor_data ->
  NoDup tumor_types ->
  In t tumor_types ->
  dict_get t tumor_data = Some df ->
  TumorNetwork.create_network s tumor_types counts tumor_data = Some (nt, counts') ->
  dict_get t counts' = Some (tn_expected_count t df tumor_data).
Proof.
  intros Hwf Hlow Hnd Ht Hd Hc.
  exact (@tn_gene_counts_general s tumor_types counts tumor_data nt counts' t df
           Hwf Hlow Hnd Ht Hd Hc).
Qed.

(** X24.  Without recurring genes the count of a tumor type is the size of
    its table.  Under the conditions above, when no gene has two rows in the
    table of a discovered tumor type, [create_network] reports for it the
    number of rows of the table. *)
Theorem tn_gene_counts_without_recurrence (s : Settings) (tumor_types : list string)
  (counts : PyDict nat) (tumor_data : PyDict DataFrame) (nt : Network)
  (counts' : PyDict nat) (t : string) (df : DataFrame) :
  dict_wf tumor_data ->
  all_above (min_correlation s) tumor_data ->
  NoDup tumor_types ->
  In t tumor_types ->
  dict_get t tumor_data = Some df ->
  NoDup (map gene_symbol df) ->
  TumorNetwork.create_network s tumor_types counts tumor_data = Some (nt, counts') ->
  dict_get t counts' = Some (List.length df).
Proof.
  intros Hwf Hlow Hnd Ht Hd Hrows Hc.
  rewrite (@tn_gene_counts_general s tumor_types counts tumor_data nt counts' t df
             Hwf Hlow Hnd Ht Hd Hc).
  now rewrite (@tn_expected_count_rows t df tumor_data Hwf Hd Hrows).
Qed.

Lemma recurring_data_above : all_above (1 # 2) recurring_data.
Proof.
  intros t df row [[= <- <-]|[]] Hr. simpl in Hr.
  destruct Hr as [<-|[<-|[]]]; simpl; unfold Qle; simpl; lia.
Qed.

Lemma tn_gene_counts_witness :
  exists nt counts',
    TumorNetwork.create_network TumorNetwork.default_settings ["A"] [("A", 7%nat)]
                                recurring_data = Some (nt, counts')
    /\ dict_get "A" counts' = Some 2%nat.
Proof.
  evaluate_as E (TumorNetwork.create_network TumorNetwork.default_settings ["A"]
                   [("A", 7%nat)] recurring_data).
  do 2 eexists. split; [exact E|].
  change (Some 2%nat) with (Some (tn_expected_count "A" table_recurring recurring_data)).
  eapply (@tn_gene_counts TumorNetwork.default_settings ["A"] [("A", 7%nat)]
            recurring_data).
  - exact recurring_data_wf.
  - exact recurring_data_above.
  - repeat constructor. simpl. tauto.
  - simpl. auto.
  - reflexivity.
  - exact E.
Defined.

Lemma tn_gene_counts_without_recurrence_witness :
  exists nt counts',
    TumorNetwork.create_network TumorNetwork.default_settings ["A"; "B"] []
                                example_data = Some (nt, counts')
    /\ dict_get "B" counts' = Some 2%nat.
Proof.
  evaluate_as E (TumorNetwork.create_network TumorNetwork.default_settings ["A"; "B"]
                   [] example_data).
  do 2 eexists. split; [exact E|].
  eapply (@tn_gene_counts_without_recurrence TumorNetwork.default_settings ["A"; "B"] []
            example_data _ _ "B" table_B).
  - exact example_data_wf.
  - exact example_data_above.
  - repeat constructor; simpl; intuition discriminate.
  - simpl. auto.
  - reflexivity.
  - repeat constructor; simpl; intuition discriminate.
  - exact E.
Defined.

(** ** The risk level of a score *)

(** X25.  The risk level is monotone.  A higher correlation never gives a
    lower risk level, and equal correlations (as rationals) give the same
    level. *)
Theorem bst_risk_level_monotone (a b : Q) :
  a <= b ->
  (risk_rank (BadSurvivalTree.risk_level a)
   <= risk_rank (BadSurvivalTree.risk_level b))%nat.
Proof.
  intros Hab. unfold BadSurvivalTree.risk_level.
  destruct (Qle_bool (3 # 4) a) eqn:Ea1.
  - apply Qle_bool_iff in Ea1.
    assert (Qle_bool (3 # 4) b = true) as -> by (apply Qle_bool_iff; lra).
    simpl. lia.
  - destruct (Qle_bool (13 # 20) a) eqn:Ea2.
    + apply Qle_bool_iff in Ea2.
      destruct (Qle_bool (3 # 4) b); [simpl; lia|].
      assert (Qle_bool (13 # 20) b = true) as -> by (apply Qle_bool_iff; lra).
      simpl. lia.
    + simpl. lia.
Qed.

Lemma bst_risk_level_monotone_witness :
  (risk_rank (BadSurvivalTree.risk_level (6 # 10))
   <= risk_rank (BadSurvivalTree.risk_level (9 # 10)))%nat.
Proof.
  apply bst_risk_level_monotone. unfold Qle. simpl. lia.
Defined.

(** ** [run]: from the files to the network *)

Lemma load_all_data_readable read_csv s tumor_types counts t :
  dict_mem t (all_data (load_all_data read_csv s tumor_types counts)) = true ->
  In t tumor_types /\ is_readable (read_csv t) = true.
Proof.
  unfold dict_mem. rewrite load_all_data_get.
  destruct (read_csv t) as [| |df]; try discriminate.
  destruct (existsb (String.eqb t) tumor_types) eqn:E; try discriminate.
  intros _. split; [now apply existsb_eqb_In | reflexivity].
Qed.

Lemma load_all_data_passing read_csv s tumor_types counts t df row :
  In t tumor_types -> read_csv t = Readable df ->
  In row df -> min_correlation s <= PCC row ->
  exists df', dict_get t (all_data (load_all_data read_csv s tumor_types counts))
              = Some df' /\ In row df'.
Proof.
  intros Ht Hr Hrow Hp. rewrite load_all_data_get, Hr.
  apply existsb_eqb_In in Ht. rewrite Ht. eexists. split; [reflexivity|].
  unfold filter_pcc_ge. apply filter_In. split; auto. now apply Qle_bool_iff.
Qed.

Lemma tn_run_complete_general s read_csv tumor_types nt counts' t df row :
  TumorNetwork.run s read_csv tumor_types = Some (nt, counts') ->
  In t tumor_types -> read_csv t = Readable df ->
  In row df -> min_correlation s <= PCC row ->
  is_joined "GCH1" t nt = true /\ is_joined t (gene_symbol row) nt = true.
Proof.
  unfold TumorNetwork.run. intros Hc Ht Hr Hrow Hp.
  destruct (@load_all_data_passing read_csv s tumor_types [] t df row Ht Hr Hrow Hp)
    as [df' [Hd Hrow']].
  exact (@tn_edges_complete_general s tumor_types _
           (load_all_data_wf read_csv s tumor_types [])
           (@load_all_data_all_above read_csv s tumor_types [])
           _ nt counts' t df' row Hc Ht Hd Hrow').
Qed.

Lemma tn_run_sound_general s read_csv tumor_types nt counts' e :
  TumorNetwork.run s read_csv tumor_types = Some (nt, counts') ->
  In e (edges nt) ->
  tn_edge_from_files read_csv s tumor_types e.
Proof.
  unfold TumorNetwork.run. intros Hc He.
  pose proof (@tn_edges_sound_general s tumor_types _
                (load_all_data_wf read_csv s tumor_types [])
                _ nt counts' Hc e He) as [[H1 [H2 H3]]|[df' [Hin Hg]]].
  - left. split; auto. split; auto.
    now destruct (@load_all_data_readable read_csv s tumor_types [] _ H3).
  - right.
    destruct (@load_all_data_tables read_csv s tumor_types [] _ _ Hin) as [Ht Hall].
    split; auto.
    apply In_dict_get in Hin; [|apply load_all_data_wf].
    rewrite load_all_data_get in Hin.
    destruct (read_csv (e_from e)) as [| |df]; try discriminate.
    destruct (existsb (String.eqb (e_from e)) tumor_types); try discriminate.
    injection Hin as <-. apply has_gene_In in Hg. destruct Hg as [row [Hrow E]].
    unfold filter_pcc_ge in Hrow. apply filter_In in Hrow. destruct Hrow as [Hrow Hp].
    exists df, row. repeat split; auto. now apply Qle_bool_iff.
Qed.

Lemma tn_run_centre_joined s read_csv tumor_types nt counts' t df :
  TumorNetwork.run s read_csv tumor_types = Some (nt, counts') ->
  In t tumor_types -> read_csv t = Readable df ->
  is_joined "GCH1" t nt = true.
Proof.
  unfold TumorNetwork.run. intros Hc Ht Hr.
  apply (@tn_centre_joined s tumor_types _ _ nt counts' t Hc Ht).
  unfold dict_mem. rewrite load_all_data_get, Hr.
  apply existsb_eqb_In in Ht. now rewrite Ht.
Qed.

(** X26.  [run] draws every row that passes the threshold.  When [run]
    returns, every discovered tumor type whose file could be read is joined
    to the centre GCH1, also when none of its rows passes the threshold, and
    for every row of the file whose PCC is at least [min_correlation] the
    tumor type is joined to the gene of the row. *)
Theorem tn_run_draws_passing_rows (s : Settings) (read_csv : string -> CsvFile)
  (tumor_types : list string) (nt : Network) (counts' : PyDict nat)
  (t : string) (df : DataFrame) :
  TumorNetwork.run s read_csv tumor_types = Some (nt, counts') ->
  In t tumor_types ->
  read_csv t = Readable df ->
  is_joined "GCH1" t nt = true
  /\ forall row, In row df -> min_correlation s <= PCC row ->
                 is_joined t (gene_symbol row) nt = true.
Proof.
  intros Hc Ht Hr. split.
  - exact (@tn_run_centre_joined s read_csv tumor_types nt counts' t df Hc Ht Hr).
  - intros row Hrow Hp.
    exact (proj2 (@tn_run_complete_general s read_csv tumor_types nt counts' t df row
                    Hc Ht Hr Hrow Hp)).
Qed.

Lemma tn_run_draws_passing_rows_witness :
  exists nt counts',
    TumorNetwork.run TumorNetwork.default_settings directory_with_low_scores ["A"; "B"]
    = Some (nt, counts')
    /\ is_joined "GCH1" "B" nt = true
    /\ is_joined "GCH1" "A" nt = true /\ is_joined "A" "g2" nt = true.
Proof.
  evaluate_as E (TumorNetwork.run TumorNetwork.default_settings
                   directory_with_low_scores ["A"; "B"]).
  do 2 eexists. split; [exact E|].
  destruct (@tn_run_draws_passing_rows TumorNetwork.default_settings
              directory_with_low_scores ["A"; "B"] _ _ "B" table_low E)
    as [HB _]; [simpl; auto | reflexivity |].
  destruct (@tn_run_draws_passing_rows TumorNetwork.default_settings
              directory_with_low_scores ["A"; "B"] _ _ "A" table_A E)
    as [HA Hrows]; [simpl; auto | reflexivity |].
  split; [exact HB|]. split; [exact HA|].
  apply (Hrows {| gene_symbol := "g2"; PCC := 6 # 10 |}).
  - simpl. auto.
  - unfold Qle. simpl. lia.
Defined.

(** X27.  [run] draws nothing but the files' passing rows.  When [run]
    returns, every edge of the network joins the centre to a discovered
    tumor type whose file could be read, or joins a discovered tumor type to
    the gene of a row of its file whose PCC is at least [min_correlation]:
    no row below the threshold and no unreadable file leaves a trace. *)
Theorem tn_run_edges_from_files (s : Settings) (read_csv : string -> CsvFile)
  (tumor_types : list string) (nt : Network) (counts' : PyDict nat) (e : Edge) :
  TumorNetwork.run s read_csv tumor_types = Some (nt, counts') ->
  In e (edges nt) ->
  tn_edge_from_files read_csv s tumor_types e.
Proof.
  intros Hc He.
  exact (@tn_run_sound_general s read_csv tumor_types nt counts' e Hc He).
Qed.

Lemma tn_run_edges_from_files_witness :
  tn_edge_from_files example_files TumorNetwork.default_settings ["A"; "B"]
    {| e_from := "A"; e_to := "g2"; e_width := 1680 # 4000 |}.
Proof.
  evaluate_as E (TumorNetwork.run TumorNetwork.default_settings example_files
                   ["A"; "B"]).
  eapply (@tn_run_edges_from_files TumorNetwork.default_settings example_files
            ["A"; "B"]).
  - exact E.
  - simpl. auto 10.
Defined.

Lemma load_all_data_table read_csv s tumor_types counts t df :
  In t tumor_types -> read_csv t = Readable df ->
  dict_get t (all_data (load_all_data read_csv s tumor_types counts))
  = Some (filter_pcc_ge (min_correlation s) df).
Proof.
  intros Ht Hr. rewrite load_all_data_get, Hr.
  apply existsb_eqb_In in Ht. now rewrite Ht.
Qed.

Lemma bst_run_gene_counts_general s read_csv tumor_types nt counts' lg t df :
  BadSurvivalTree.run s read_csv tumor_types = Some (nt, counts', lg) ->
  In t tumor_types -> read_csv t = Readable df ->
  dict_get t counts' =
  Some (Nat.min (max_genes_per_tumor s)
                (List.length (filter_pcc_ge (min_correlation s) df))).
Proof.
  unfold BadSurvivalTree.run. intros Hc Ht Hr.
  pose proof (@load_all_data_table read_csv s tumor_types [] t df Ht Hr) as Hd.
  rewrite (@bst_gene_counts_general s _ _ nt counts' lg t _
             (load_all_data_wf read_csv s tumor_types []) (dict_get_In _ _ Hd) Hc).
  destruct (filter_pcc_ge (min_correlation s) df) as [|r rows] eqn:E; simpl; auto.
  unfold load_all_data. rewrite load_fold_counts, Hr.
  apply existsb_eqb_In in Ht. rewrite Ht. now rewrite Nat.min_0_r.
Qed.

(** X28.  What [run] of the survival tree reports for a tumor type.  When
    [run] returns, the counter of every discovered tumor type whose file
    could be read is the number of rows of the file that pass the threshold,
    capped by [max_genes_per_tumor]. *)
Theorem bst_run_gene_counts (s : Settings) (read_csv : string -> CsvFile)
  (tumor_types : list string) (nt : Network) (counts' : PyDict nat)
  (lg : list LogRecord) (t : string) (df : DataFrame) :
  BadSurvivalTree.run s read_csv tumor_types = Some (nt, counts', lg) ->
  In t tumor_types ->
  read_csv t = Readable df ->
  dict_get t counts' =
  Some (Nat.min (max_genes_per_tumor s)
                (List.length (filter_pcc_ge (min_correlation s) df))).
Proof.
  intros Hc Ht Hr.
  exact (@bst_run_gene_counts_general s read_csv tumor_types nt counts' lg t df
           Hc Ht Hr).
Qed.

Lemma bst_run_gene_counts_witness :
  exists nt counts' lg,
    BadSurvivalTree.run (with_cap 1 BadSurvivalTree.default_settings)
                        example_directory ["A"; "B"] = Some (nt, counts', lg)
    /\ dict_get "B" counts' = Some 1%nat.
Proof.
  evaluate_as E (BadSurvivalTree.run (with_cap 1 BadSurvivalTree.default_settings)
                   example_directory ["A"; "B"]).
  do 3 eexists. split; [exact E|].
  apply (@bst_run_gene_counts (with_cap 1 BadSurvivalTree.default_settings)
           example_directory ["A"; "B"] _ _ _ "B" table_B E).
  - simpl. auto.
  - reflexivity.
Defined.

Lemma tn_run_gene_counts_general s read_csv tumor_types nt counts' t df :
  TumorNetwork.run s read_csv tumor_types = Some (nt, counts') ->
  NoDup tumor_types -> In t tumor_types -> read_csv t = Readable df ->
  NoDup (map gene_symbol df) ->
  dict_get t counts' = Some (List.length (filter_pcc_ge (min_correlation s) df)).
Proof.
  unfold TumorNetwork.run. intros Hc Hnd Ht Hr Hrows.
  pose proof (@load_all_data_table read_csv s tumor_types [] t df Ht Hr) as Hd.
  pose proof (load_all_data_wf read_csv s tumor_types []) as Hwf.
  rewrite (@tn_gene_counts_general s tumor_types _ _ nt counts' t _ Hwf
             (@load_all_data_all_above read_csv s tumor_types []) Hnd Ht Hd Hc).
  f_equal. apply (@tn_expected_count_rows t _ _ Hwf Hd).
  unfold filter_pcc_ge. now apply distinct_keys_selected.
Qed.

(** X29.  What [run] of the network reports for a tumor type.  When [run]
    returns, every tumor type was discovered once and no gene has two rows in
    a file that could be read, the counter of its tumor type is the number of
    rows of the file that pass the threshold: [max_genes_per_tumor] plays no
    part. *)
Theorem tn_run_gene_counts (s : Settings) (read_csv : string -> CsvFile)
  (tumor_types : list string) (nt : Network) (counts' : PyDict nat)
  (t : string) (df : DataFrame) :
  TumorNetwork.run s read_csv tumor_types = Some (nt, counts') ->
  NoDup tumor_types ->
  In t tumor_types ->
  read_csv t = Readable df ->
  NoDup (map gene_symbol df) ->
  dict_get t counts' = Some (List.length (filter_pcc_ge (min_correlation s) df)).
Proof.
  intros Hc Hnd Ht Hr Hrows.
  exact (@tn_run_gene_counts_general s read_csv tumor_types nt counts' t df
           Hc Hnd Ht Hr Hrows).
Qed.

Lemma tn_run_gene_counts_witness :
  exists nt counts',
    TumorNetwork.run (with_cap 1 TumorNetwork.default_settings)
                     example_directory ["A"; "B"] = Some (nt, counts')
    /\ dict_get "B" counts' = Some 2%nat.
Proof.
  evaluate_as E (TumorNetwork.run (with_cap 1 TumorNetwork.default_settings)
                   example_directory ["A"; "B"]).
  do 2 eexists. split; [exact E|].
  apply (@tn_run_gene_counts (with_cap 1 TumorNetwork.default_settings)
           example_directory ["A"; "B"] _ _ "B" table_B E).
  - repeat constructor; simpl; intuition discriminate.
  - simpl. auto.
  - reflexivity.
  - repeat constructor; simpl; intuition discriminate.
Defined.

(** ** The node of a cross-tumor gene *)

Lemma get_node_None_has_node id nt : get_node id nt = None -> has_node id nt = false.
Proof.
  unfold get_node, has_node. induction (nodes nt) as [|n l IH]; simpl; auto.
  destruct (String.eqb (n_id n) id); [discriminate|auto].
Qed.

Lemma find_app_found {A : Type} (p : A -> bool) (l l' : list A) (x : A) :
  find p l = Some x -> find p (l ++ l') = Some x.
Proof.
  induction l as [|a l IH]; simpl; [discriminate|]. now destruct (p a).
Qed.

Lemma find_app_missing {A : Type} (p : A -> bool) (l l' : list A) :
  find p l = None -> find p (l ++ l') = find p l'.
Proof.
  induction l as [|a l IH]; simpl; auto. now destruct (p a).
Qed.

Lemma get_node_add_node_kept id n nt m :
  get_node id nt = Some m -> get_node id (add_node n nt) = Some m.
Proof.
  unfold add_node. destruct (has_node (n_id n) nt); auto.
  unfold get_node. simpl. apply find_app_found.
Qed.

Lemma get_node_add_node_other id n nt :
  n_id n <> id -> get_node id (add_node n nt) = get_node id nt.
Proof.
  intros Hne. unfold add_node. destruct (has_node (n_id n) nt); auto.
  unfold get_node. simpl. destruct (find _ (nodes nt)) as [m|] eqn:E.
  - now apply find_app_found.
  - rewrite find_app_missing by assumption. simpl.
    apply String.eqb_neq in Hne. now rewrite Hne.
Qed.

Lemma get_node_add_node_new n nt :
  get_node (n_id n) nt = None -> get_node (n_id n) (add_node n nt) = Some n.
Proof.
  intros H. unfold add_node. rewrite (get_node_None_has_node _ _ H).
  unfold get_node in *. simpl. rewrite find_app_missing by assumption.
  simpl. now rewrite String.eqb_refl.
Qed.

Lemma get_node_add_edge id e nt nt' :
  add_edge e nt = Some nt' -> get_node id nt' = get_node id nt.
Proof. intros H. unfold get_node. now rewrite (add_edge_nodes _ _ H). Qed.

Lemma tn_add_tumor_node_other d g st item st' :
  snd item <> g ->
  TumorNetwork.add_tumor_node d st item = Some st' ->
  get_node g (TumorNetwork.net st') = get_node g (TumorNetwork.net st).
Proof.
  destruct item as [idx t]. simpl. intros Hne. unfold TumorNetwork.add_tumor_node.
  destruct (negb (dict_mem t d)); [now intros [= <-]|].
  destruct (add_edge _ _) as [net2|] eqn:E; [|discriminate]. intros [= <-]. simpl.
  rewrite (get_node_add_edge g _ _ E). now apply get_node_add_node_other.
Qed.

Lemma tn_add_specific_gene_other s t g st row st' :
  gene_symbol row <> g ->
  TumorNetwork.add_specific_gene s t st row = Some st' ->
  get_node g (TumorNetwork.net st') = get_node g (TumorNetwork.net st).
Proof.
  intros Hne. unfold TumorNetwork.add_specific_gene.
  destruct (TumorNetwork.node_size s (PCC row)); [|discriminate].
  destruct (add_edge _ _) as [net2|] eqn:E; [|discriminate].
  destruct (dict_incr _ _); [|discriminate]. intros [= <-]. simpl.
  rewrite (get_node_add_edge g _ _ E). now apply get_node_add_node_other.
Qed.

Lemma tn_add_specific_genes_other s d all_genes g st t st' :
  TumorNetwork.is_tumor_specific all_genes g = false ->
  TumorNetwork.add_specific_genes s d all_genes st t = Some st' ->
  get_node g (TumorNetwork.net st') = get_node g (TumorNetwork.net st).
Proof.
  intros Hg. unfold TumorNetwork.add_specific_genes.
  destruct (dict_get t d) as [df|]; [|now intros [= <-]].
  destruct (dict_get t (TumorNetwork.tumor_positions st)); [|discriminate].
  apply (foldM_preorder
           (fun a b => get_node g (TumorNetwork.net b) = get_node g (TumorNetwork.net a))).
  - reflexivity.
  - intros a b c H1 H2. now rewrite H2.
  - intros row a b Hrow Hb.
    apply (@tn_add_specific_gene_other s t g a row b); auto.
    intros <-.
    assert (In row (filter_gene (TumorNetwork.is_tumor_specific all_genes) df)) as Hin.
    { destruct (negb (df_empty _)); auto.
      now apply (Permutation_in _ (sort_values_desc_perm _)). }
    unfold filter_gene in Hin. apply filter_In in Hin. destruct Hin as [_ Hs].
    congruence.
Qed.

Lemma tn_add_cross_edge_nodes s g id st item st' :
  TumorNetwork.add_cross_edge s g st item = Some st' ->
  get_node id (TumorNetwork.net st') = get_node id (TumorNetwork.net st).
Proof.
  destruct item as [t p]. unfold TumorNetwork.add_cross_edge.
  destruct (Qle_bool (min_correlation s) p); [|now intros [= <-]].
  destruct (add_edge _ _) as [net2|] eqn:E; [|discriminate].
  destruct (dict_incr _ _); [|discriminate]. intros [= <-]. simpl.
  apply (get_node_add_edge id _ _ E).
Qed.

Lemma tn_cross_edges_nodes s g id pccs : forall st st',
  foldM (TumorNetwork.add_cross_edge s g) pccs st = Some st' ->
  get_node id (TumorNetwork.net st') = get_node id (TumorNetwork.net st).
Proof.
  apply (foldM_preorder
           (fun a b => get_node id (TumorNetwork.net b) = get_node id (TumorNetwork.net a))).
  - reflexivity.
  - intros a b c H1 H2. now rewrite H2.
  - intros item a b _ Hb. apply (@tn_add_cross_edge_nodes s g id a item b Hb).
Qed.

Lemma tn_add_cross_gene_other s g st item st' :
  fst item <> g ->
  TumorNetwork.add_cross_gene s st item = Some st' ->
  get_node g (TumorNetwork.net st') = get_node g (TumorNetwork.net st).
Proof.
  destruct item as [g' pccs]. simpl. intros Hne. unfold TumorNetwork.add_cross_gene.
  destruct (TumorNetwork.main_tumor pccs) as [main|]; [|discriminate].
  destruct (dict_get main pccs) as [main_pcc|]; [|discriminate].
  destruct (Qlt_bool main_pcc (min_correlation s)); [now intros [= <-]|].
  destruct (dict_get main (TumorNetwork.tumor_positions st)); [|discriminate].
  destruct (TumorNetwork.node_size s main_pcc) as [size|]; [|discriminate].
  intros Hf. rewrite (@tn_cross_edges_nodes s g' g pccs _ _ Hf). simpl.
  now apply get_node_add_node_other.
Qed.

Lemma tn_add_cross_gene_kept s g n st item st' :
  get_node g (TumorNetwork.net st) = Some n ->
  TumorNetwork.add_cross_gene s st item = Some st' ->
  get_node g (TumorNetwork.net st') = Some n.
Proof.
  destruct item as [g' pccs]. intros Hn. unfold TumorNetwork.add_cross_gene.
  destruct (TumorNetwork.main_tumor pccs) as [main|]; [|discriminate].
  destruct (dict_get main pccs) as [main_pcc|]; [|discriminate].
  destruct (Qlt_bool main_pcc (min_correlation s)); [now intros [= <-]|].
  destruct (dict_get main (TumorNetwork.tumor_positions st)); [|discriminate].
  destruct (TumorNetwork.node_size s main_pcc) as [size|]; [|discriminate].
  intros Hf. rewrite (@tn_cross_edges_nodes s g' g pccs _ _ Hf). simpl.
  now apply get_node_add_node_kept.
Qed.

Lemma tn_add_cross_gene_drawn s g pccs main main_pcc st st' :
  TumorNetwork.main_tumor pccs = Some main ->
  dict_get main pccs = Some main_pcc ->
  min_correlation s <= main_pcc ->
  get_node g (TumorNetwork.net st) = None ->
  TumorNetwork.add_cross_gene s st (g, pccs) = Some st' ->
  exists size,
    TumorNetwork.node_size s main_pcc = Some size
    /\ get_node g (TumorNetwork.net st')
       = Some {| n_id := g; n_shape := Diamond; n_size := size + 2 |}.
Proof.
  intros Hmain Hget Hp Hnone. unfold TumorNetwork.add_cross_gene.
  rewrite Hmain, Hget. unfold Qlt_bool.
  apply Qle_bool_iff in Hp. rewrite Hp. simpl.
  destruct (dict_get main (TumorNetwork.tumor_positions st)); [|discriminate].
  destruct (TumorNetwork.node_size s main_pcc) as [size|]; [|discriminate].
  intros Hf. exists size. split; [reflexivity|].
  rewrite (@tn_cross_edges_nodes s g g pccs _ _ Hf). simpl.
  apply (get_node_add_node_new
           {| n_id := g; n_shape := Diamond; n_size := size + 2 |}). exact Hnone.
Qed.

Lemma tn_cross_loop_node s g pccs main main_pcc :
  TumorNetwork.main_tumor pccs = Some main ->
  dict_get main pccs = Some main_pcc ->
  min_correlation s <= main_pcc ->
  forall (l : list (string * PyDict Q)) st st',
  NoDup (map fst l) -> In (g, pccs) l ->
  get_node g (TumorNetwork.net st) = None ->
  foldM (TumorNetwork.add_cross_gene s) l st = Some st' ->
  exists size,
    TumorNetwork.node_size s main_pcc = Some size
    /\ get_node g (TumorNetwork.net st')
       = Some {| n_id := g; n_shape := Diamond; n_size := size + 2 |}.
Proof.
  intros Hmain Hget Hp. induction l as [|item l IH]; intros st st' Hnd Hin Hnone Hf;
    [destruct Hin|].
  cbn [foldM] in Hf.
  destruct (TumorNetwork.add_cross_gene s st item) as [st1|] eqn:E; [|discriminate].
  simpl in Hnd. apply NoDup_cons_iff in Hnd. destruct Hnd as [Hx Hl].
  destruct Hin as [->|Hin].
  - destruct (@tn_add_cross_gene_drawn s g pccs main main_pcc st st1
                Hmain Hget Hp Hnone E) as [size [Hs Hn]].
    exists size. split; auto. revert Hf.
    apply (foldM_invariant
             (fun a => get_node g (TumorNetwork.net a)
                       = Some {| n_id := g; n_shape := Diamond; n_size := size + 2 |}));
      auto.
    intros y a b _ Ha Hb. eapply tn_add_cross_gene_kept; eauto.
  - apply (IH st1 st' Hl Hin); auto.
    rewrite (@tn_add_cross_gene_other s g st item st1); auto.
    intros Heq. apply Hx. rewrite Heq. apply (in_map fst) in Hin. exact Hin.
Qed.

Lemma tn_cross_gene_node_general s types counts d nt counts' g pccs main main_pcc :
  dict_wf d -> all_above (min_correlation s) d ->
  TumorNetwork.create_network s types counts d = Some (nt, counts') ->
  In (g, pccs) (TumorNetwork.cross_tumor_genes (TumorNetwork.collect_all_genes d)) ->
  TumorNetwork.main_tumor pccs = Some main ->
  dict_get main pccs = Some main_pcc ->
  g <> "GCH1" -> ~ In g types ->
  exists size,
    TumorNetwork.node_size s main_pcc = Some size
    /\ get_node g nt = Some {| n_id := g; n_shape := Diamond; n_size := size + 2 |}.
Proof.
  intros Hwf Hlow Hc Hin Hmain Hget Hcentre Htypes.
  assert (TumorNetwork.is_tumor_specific (TumorNetwork.collect_all_genes d) g = false)
    as Hspec.
  { assert (TumorNetwork.is_cross_tumor (TumorNetwork.collect_all_genes d) g = true)
      as Hcross.
    { unfold TumorNetwork.is_cross_tumor. apply dict_mem_In. unfold dict_keys.
      apply (in_map fst) in Hin. exact Hin. }
    rewrite is_cross_tumor_length in Hcross by assumption.
    rewrite is_tumor_specific_length by assumption.
    destruct (tumors_with g d) as [|a [|b l]];
      [cbv in Hcross; discriminate | cbv in Hcross; discriminate | reflexivity]. }
  pose proof (@cross_scores_above s d g pccs main main_pcc Hwf Hlow Hin
                (dict_get_In _ _ Hget)) as Hp.
  apply Qle_bool_iff in Hp.
  revert Hc. unfold TumorNetwork.create_network.
  destruct (foldM (TumorNetwork.add_tumor_node d) _ _) as [st1|] eqn:E1; [|discriminate].
  destruct (foldM (TumorNetwork.add_specific_genes s d _) _ _) as [st2|] eqn:E2;
    [|discriminate].
  destruct (foldM (TumorNetwork.add_cross_gene s) _ _) as [st3|] eqn:E3; [|discriminate].
  intros [= <- _].
  apply (@tn_cross_loop_node s g pccs main main_pcc Hmain Hget Hp _ _ _) in E3; auto.
  - unfold dict_items, TumorNetwork.cross_tumor_genes.
    apply distinct_keys_selected. apply collect_all_genes_wf.
  - assert (get_node g (TumorNetwork.net st1) = None) as H1.
    { revert E1.
      apply (foldM_invariant (fun a => get_node g (TumorNetwork.net a) = None)).
      - intros item a b Hitem Ha Hb.
        rewrite (@tn_add_tumor_node_other d g a item b); auto.
        intros Heq. apply Htypes. rewrite <- Heq. now apply in_enumerate_snd.
      - cbn [TumorNetwork.net]. rewrite get_node_add_node_other; [reflexivity|].
        simpl. congruence. }
    revert E2.
    apply (foldM_invariant (fun a => get_node g (TumorNetwork.net a) = None)); auto.
    intros t a b _ Ha Hb.
    now rewrite (@tn_add_specific_genes_other s d _ g a t b Hspec Hb).
Qed.

(** X30.  The node of a cross-tumor gene.  On tables whose rows all pass the
    threshold, when [create_network] returns, a cross-tumor gene whose name
    is neither GCH1 nor a discovered tumor type is drawn once, as a diamond,
    and its size is the size of its highest score (the score in its main
    tumor) plus 2. *)
Theorem tn_cross_gene_node (s : Settings) (tumor_types : list string)
  (counts : PyDict nat) (tumor_data : PyDict DataFrame) (nt : Network)
  (counts' : PyDict nat) (g : string) (tumor_pccs : PyDict Q)
  (main : string) (main_pcc : Q) :
  dict_wf tumor_data ->
  all_above (min_correlation s) tumor_data ->
  TumorNetwork.create_network s tumor_types counts tumor_data = Some (nt, counts') ->
  In (g, tumor_pccs)
     (TumorNetwork.cross_tumor_genes (TumorNetwork.collect_all_genes tumor_data)) ->
  TumorNetwork.main_tumor tumor_pccs = Some main ->
  dict_get main tumor_pccs = Some main_pcc ->
  g <> "GCH1" ->
  ~ In g tumor_types ->
  exists size,
    TumorNetwork.node_size s main_pcc = Some size
    /\ get_node g nt = Some {| n_id := g; n_shape := Diamond; n_size := size + 2 |}.
Proof.
  intros Hwf Hlow Hc Hin Hmain Hget Hcentre Htypes.
  exact (@tn_cross_gene_node_general s tumor_types counts tumor_data nt counts' g
           tumor_pccs main main_pcc Hwf Hlow Hc Hin Hmain Hget Hcentre Htypes).
Qed.

Lemma tn_cross_gene_node_witness :
  exists nt counts' size,
    TumorNetwork.create_network TumorNetwork.default_settings ["A"; "B"] []
                                example_data = Some (nt, counts')
    /\ TumorNetwork.node_size TumorNetwork.default_settings (9 # 10) = Some size
    /\ get_node "g1" nt = Some {| n_id := "g1"; n_shape := Diamond; n_size := size + 2 |}.
Proof.
  evaluate_as E (TumorNetwork.create_network TumorNetwork.default_settings ["A"; "B"]
                   [] example_data).
  destruct (@tn_cross_gene_node TumorNetwork.default_settings ["A"; "B"] [] example_data
              _ _ "g1" [("A", 9 # 10); ("B", 7 # 10)] "A" (9 # 10)
              example_data_wf example_data_above E) as [size [Hs Hn]].
  - simpl. auto.
  - reflexivity.
  - reflexivity.
  - discriminate.
  - simpl. intuition discriminate.
  - do 3 eexists. split; [exact E|]. split; [exact Hs|exact Hn].
Defined.
